(** * AutoHeal-AI: incident correlation and OODA healing orchestration

    A shallow embedding of the correlation and orchestration core of the
    AutoHeal-AI services, with the properties its specification states
    about it.

    - [PyStr]: the Python string operations the services use, on ASCII text.
    - [AutoHealAgent]: services/autoheal-agent (core/decision_maker.py,
      core/ooda_engine.py, api/routes.py).
    - [IncidentManager]: services/incident-manager (core/incident_store.py,
      api/routes.py).
    - [PyList], [IncidentStore], [IncidentRoutes], [EventCorrelator]: slices
      and the stable sort of Python lists; the listing, counting and deletion
      of the store; the management endpoints; core/event_correlator.py.
    - [AgentQueries], [ActionExecutor]: the history and the read-only
      endpoints of the agent; core/action_executor.py.

    Conventions.  A [datetime] is an integer number of microseconds ([Z]);
    [timedelta(minutes=m)] is [m * 60_000_000].  What the code obtains from
    the outside world (a reading of [datetime.utcnow()], a [uuid4()], the
    response of the cluster executor) comes from the oracles of an
    environment [Env]; the state of a process counts how many values of each
    oracle it consumed.  A Python [float] is a binary64 [float] of the
    kernel, so that arithmetic rounds as it does in the interpreter.  A
    Python [dict] whose iteration order is irrelevant is a [gmap]; the
    incident store, whose scan returns the first match in insertion order,
    is an association list.  A coroutine is run to completion in one step:
    the interleaving of other handlers at its awaits is not modelled. *)

From Stdlib Require Import ZArith List String Ascii Bool Lia PrimFloat Uint63.
From Stdlib Require Import DecimalString DecimalNat.
From stdpp Require Import gmap strings list fin_maps sorting.

Set Warnings "-inexact-float".
Open Scope string_scope.
Open Scope list_scope.

(* ===================================================================== *)
(** ** Python strings (ASCII) *)
(* ===================================================================== *)

Module PyStr.

Definition is_upper (c : ascii) : bool :=
  let n := nat_of_ascii c in (65 <=? n)%nat && (n <=? 90)%nat.

Definition is_lower (c : ascii) : bool :=
  let n := nat_of_ascii c in (97 <=? n)%nat && (n <=? 122)%nat.

Definition lower_char (c : ascii) : ascii :=
  if is_upper c then ascii_of_nat (nat_of_ascii c + 32) else c.

Definition upper_char (c : ascii) : ascii :=
  if is_lower c then ascii_of_nat (nat_of_ascii c - 32) else c.

Fixpoint smap (f : ascii -> ascii) (s : string) : string :=
  match s with
  | EmptyString => EmptyString
  | String c s' => String (f c) (smap f s')
  end.

(** [s.lower()] and [s.upper()]. *)
Definition lower (s : string) : string := smap lower_char s.
Definition upper (s : string) : string := smap upper_char s.

(** [s.title()]: a cased character is upper-cased when the character
    before it is uncased and lower-cased otherwise. *)
Fixpoint title_go (prev_cased : bool) (s : string) : string :=
  match s with
  | EmptyString => EmptyString
  | String c s' =>
      if is_lower c then
        String (if prev_cased then c else upper_char c) (title_go true s')
      else if is_upper c then
        String (if prev_cased then lower_char c else c) (title_go true s')
      else String c (title_go false s')
  end.
Definition title (s : string) : string := title_go false s.

(** [s.replace(a, b)] for one-character [a] and [b]. *)
Definition replace_char (a b : ascii) (s : string) : string :=
  smap (fun c => if Ascii.eqb c a then b else c) s.

Fixpoint starts_with (p s : string) : bool :=
  match p, s with
  | EmptyString, _ => true
  | String a p', String b s' => Ascii.eqb a b && starts_with p' s'
  | String _ _, EmptyString => false
  end.

(** [needle in s]. *)
Fixpoint contains (s needle : string) : bool :=
  starts_with needle s
  || match s with
     | EmptyString => false
     | String _ s' => contains s' needle
     end.

(** [sep.join(parts)]. *)
Fixpoint join (sep : string) (parts : list string) : string :=
  match parts with
  | [] => ""
  | [p] => p
  | p :: rest => p +:+ sep +:+ join sep rest
  end.

(** [s[:n]] *)
Fixpoint slice_to (n : nat) (s : string) : string :=
  match n, s with
  | S n', String c s' => String c (slice_to n' s')
  | _, _ => EmptyString
  end.

(** [str(n)] for a natural number. *)
Definition of_nat (n : nat) : string := NilEmpty.string_of_uint (Nat.to_uint n).

(** [str(z)] for an integer. *)
Definition of_int (z : Z) : string :=
  if (z <? 0)%Z then "-" +:+ of_nat (Z.to_nat (- z)) else of_nat (Z.to_nat z).

(** [bool(s)]: the empty string is falsy. *)
Definition truthy (s : string) : bool :=
  match s with EmptyString => false | _ => true end.

End PyStr.

(* ===================================================================== *)
(** ** Python floats *)
(* ===================================================================== *)

Module PyFloat.

(** [min(a, b)] and [max(a, b)] of two arguments: the first argument is
    kept unless the second is strictly smaller (larger). *)
Definition min2 (a b : float) : float := if PrimFloat.ltb b a then b else a.
Definition max2 (a b : float) : float := if PrimFloat.ltb a b then b else a.

(** [n / m] for natural numbers small enough to convert exactly. *)
Definition of_nat (n : nat) : float := PrimFloat.of_uint63 (Uint63.of_Z (Z.of_nat n)).
Definition of_Z (z : Z) : float :=
  if (z <? 0)%Z then PrimFloat.opp (PrimFloat.of_uint63 (Uint63.of_Z (- z)))
  else PrimFloat.of_uint63 (Uint63.of_Z z).

(** [sum(xs)] starting from the integer [0]. *)
Definition sum (xs : list float) : float :=
  fold_left PrimFloat.add xs 0%float.

End PyFloat.

(* ===================================================================== *)
(** ** services/autoheal-agent *)
(* ===================================================================== *)

Module AutoHealAgent.

Import PyStr.

(** *** api/schemas.py *)

(** Modelled from the spec: the module [src/api/schemas.py] of the agent
    (its enums [ActionType] and [HealingStatus] and its records).  The
    members of [ActionType] are the ones core/decision_maker.py names; the
    members of [HealingStatus] are the states of the state machine of the
    specification's section 4.4; the records carry the fields of section 3
    and section 6. *)
Inductive ActionType :=
  | RESTART_POD | SCALE_UP | SCALE_DOWN | ROLLBACK | INCREASE_RESOURCES
  | CIRCUIT_BREAKER | FAILOVER | RATE_LIMIT | CUSTOM.

#[global] Instance ActionType_eq_dec : EqDecision ActionType.
Proof. solve_decision. Defined.

Inductive HealingStatus :=
  | PENDING | OBSERVING | ORIENTING | DECIDING | ACTING | VALIDATING
  | COMPLETED | FAILED | CANCELLED.

#[global] Instance HealingStatus_eq_dec : EqDecision HealingStatus.
Proof. solve_decision. Defined.

(** A value of a [parameters] dictionary. *)
Inductive PValue :=
  | PStr (s : string)
  | PInt (z : Z)
  | PFloat (f : float).

Record HealingAction := {
  action_id : string;
  action_type : ActionType;
  target : string;
  parameters : list (string * PValue);
  reasoning : string;
  risk_level : string;
  reversible : bool
  }.

Record HealingPlan := {
  plan_id : string;
  plan_incident_id : string;
  observation : string;
  orientation : string;
  decision : string;
  actions : list HealingAction;
  estimated_duration_seconds : nat;
  confidence : float;
  risk_assessment : string
  }.

Record HealingRequest := {
  req_incident_id : string;
  target_service : string;
  target_namespace : string;
  severity : string;
  root_cause : option string;
  recommended_actions : list string;
  force : bool
  }.

Record HealingResult := {
  healing_id : string;
  incident_id : string;
  status : HealingStatus;
  plan : option HealingPlan;
  actions_executed : nat;
  actions_successful : nat;
  started_at : Z;
  completed_at : option Z;
  result_message : option string;
  error_message : option string
  }.

Record OODAState := {
  st_healing_id : string;
  phase : string;
  st_observation : option string;
  st_orientation : option string;
  st_decision : option string
  }.

(** *** core/decision_maker.py *)

Module DecisionMaker.

Definition CAUSE_ACTION_MAP : list (string * list (ActionType * string)) :=
  [ ("error_rate_spike",
      [ (RESTART_POD, "Restart problematic pods to clear state");
        (SCALE_UP, "Scale up to handle load if needed") ]);
    ("latency_spike",
      [ (SCALE_UP, "Scale up to reduce load per instance");
        (CIRCUIT_BREAKER, "Enable circuit breaker for slow dependencies") ]);
    ("cpu_overload",
      [ (SCALE_UP, "Add more replicas to distribute load");
        (INCREASE_RESOURCES, "Increase CPU limits if scaling not possible") ]);
    ("memory_overload",
      [ (RESTART_POD, "Restart pods to clear memory");
        (INCREASE_RESOURCES, "Increase memory limits") ]);
    ("pod_crash_loop",
      [ (ROLLBACK, "Rollback to previous stable version");
        (RESTART_POD, "Restart with fresh state") ]);
    ("connection_error",
      [ (CIRCUIT_BREAKER, "Enable circuit breaker");
        (FAILOVER, "Failover to healthy instances") ]);
    ("timeout",
      [ (SCALE_UP, "Add capacity to reduce latency");
        (RATE_LIMIT, "Apply rate limiting to prevent overload") ]);
    ("out_of_memory",
      [ (RESTART_POD, "Restart to clear memory state");
        (INCREASE_RESOURCES, "Increase memory allocation") ]);
    ("database",
      [ (RESTART_POD, "Restart to reset connections");
        (FAILOVER, "Failover to replica if available") ]) ].

Definition analyze_incident (root_cause : option string) (severity : string)
    (recommended_actions : list string) : string :=
  let analysis_parts : list string := [] in
  let analysis_parts :=
    match root_cause with
    | Some rc =>
        if truthy rc then
          let analysis_parts := analysis_parts ++ ["Root cause identified: " +:+ rc] in
          let normalized :=
            replace_char "-" "_" (replace_char " " "_" (lower rc)) in
          if existsb (fun e : string * list (ActionType * string) =>
                        contains normalized e.1) CAUSE_ACTION_MAP
          then analysis_parts ++ ["Known pattern detected - automated healing available"]
          else analysis_parts ++ ["Unknown pattern - conservative approach recommended"]
        else analysis_parts ++ ["No root cause identified - will attempt general recovery"]
    | None => analysis_parts ++ ["No root cause identified - will attempt general recovery"]
    end in
  let analysis_parts :=
    if String.eqb severity "critical" || String.eqb severity "high"
    then analysis_parts ++ [upper severity +:+ " severity - immediate action required"]
    else analysis_parts ++ [title severity +:+ " severity - standard remediation"] in
  let analysis_parts :=
    match recommended_actions with
    | [] => analysis_parts
    | _ => analysis_parts ++
             ["Recommendations available: "
                +:+ of_nat (length recommended_actions) +:+ " actions"]
    end in
  join " | " analysis_parts.

(** The first loop of [_select_actions]: the scan of the table, left at
    the first entry that matches. *)
Fixpoint _select_actions_patterns (table : list (string * list (ActionType * string)))
    (observation_lower : string) (selected : list (ActionType * string))
    : list (ActionType * string) :=
  match table with
  | [] => selected
  | (pattern, acts) :: table' =>
      if contains observation_lower (replace_char "_" " " pattern)
         || contains observation_lower pattern
      then selected ++ take 2 acts
      else _select_actions_patterns table' observation_lower selected
  end.

(** The second loop: one [if]/[elif] chain per recommended action. *)
Fixpoint _select_actions_recommended (recs : list string)
    (selected : list (ActionType * string)) : list (ActionType * string) :=
  match recs with
  | [] => selected
  | rec :: recs' =>
      let rec_lower := lower rec in
      let selected :=
        if contains rec_lower "restart" then selected ++ [(RESTART_POD, rec)]
        else if contains rec_lower "scale" then selected ++ [(SCALE_UP, rec)]
        else if contains rec_lower "rollback" then selected ++ [(ROLLBACK, rec)]
        else if contains rec_lower "circuit" then selected ++ [(CIRCUIT_BREAKER, rec)]
        else selected in
      _select_actions_recommended recs' selected
  end.

(** The third loop: deduplication through the set [seen]. *)
Fixpoint _select_actions_unique (selected : list (ActionType * string))
    (seen : list ActionType) (unique : list (ActionType * string))
    : list (ActionType * string) :=
  match selected with
  | [] => unique
  | (ty, reasoning) :: selected' =>
      if bool_decide (ty ∈ seen)
      then _select_actions_unique selected' seen unique
      else _select_actions_unique selected' (ty :: seen) (unique ++ [(ty, reasoning)])
  end.

Definition _select_actions (observation : string) (recommended_actions : list string)
    : list (ActionType * string) :=
  let selected : list (ActionType * string) := [] in
  let observation_lower := lower observation in
  let selected := _select_actions_patterns CAUSE_ACTION_MAP observation_lower selected in
  let selected := _select_actions_recommended (take 2 recommended_actions) selected in
  let unique := _select_actions_unique selected [] [] in
  take 3 unique.

Definition _get_action_parameters (ty : ActionType) (service namespace : string)
    : list (string * PValue) :=
  let params := [("service", PStr service); ("namespace", PStr namespace)] in
  match ty with
  | RESTART_POD => params ++ [("strategy", PStr "rolling"); ("max_unavailable", PInt 1)]
  | SCALE_UP => params ++ [("increment", PInt 1); ("max_replicas", PInt 10)]
  | ROLLBACK => params ++ [("revision", PInt (-1))]
  | INCREASE_RESOURCES =>
      params ++ [("cpu_multiplier", PFloat 1.5); ("memory_multiplier", PFloat 1.5)]
  | _ => params
  end.

Definition _assess_action_risk (ty : ActionType) : string :=
  match ty with
  | ROLLBACK | SCALE_DOWN | CUSTOM => "high"
  | INCREASE_RESOURCES | FAILOVER => "medium"
  | _ => "low"
  end.

Definition _assess_plan_risk (acts : list HealingAction) : string :=
  let risks := map risk_level acts in
  if existsb (String.eqb "high") risks
  then "HIGH: Plan contains high-risk actions. Manual review recommended."
  else if existsb (String.eqb "medium") risks
  then "MEDIUM: Plan contains moderately risky actions. Monitor closely."
  else "LOW: Plan contains low-risk, reversible actions.".

Definition _calculate_confidence (acts : list HealingAction) (observation : string)
    : float :=
  let base_confidence := 0.7%float in
  let base_confidence :=
    if contains (lower observation) "known pattern"
    then (base_confidence + 0.15)%float else base_confidence in
  let base_confidence :=
    if contains (lower observation) "unknown pattern"
    then (base_confidence - 0.2)%float else base_confidence in
  let base_confidence :=
    if existsb (fun a => String.eqb (risk_level a) "high") acts
    then (base_confidence - 0.1)%float else base_confidence in
  PyFloat.max2 0.3 (PyFloat.min2 0.95 base_confidence).

(** The default action of [generate_plan], used when nothing was
    selected. *)
Definition default_action (id service namespace : string) : HealingAction :=
  {| action_id := id;
     action_type := RESTART_POD;
     target := namespace +:+ "/" +:+ service;
     parameters := [("replicas", PInt 1); ("strategy", PStr "rolling")];
     reasoning := "Default recovery action - restart pods with rolling update";
     risk_level := "low";
     reversible := true |}.

(** [uuid4 k] is the value of the [k]-th call of [uuid.uuid4()] that
    [generate_plan] makes. *)
Definition generate_plan (uuid4 : nat -> string)
    (incident_id service namespace observation orientation : string)
    (recommended_actions : list string) : HealingPlan :=
  let plan_id := uuid4 0%nat in
  let action_types := _select_actions observation recommended_actions in
  let acts :=
    imap (fun k (p : ActionType * string) =>
            {| action_id := uuid4 (S k);
               action_type := p.1;
               target := namespace +:+ "/" +:+ service;
               parameters := _get_action_parameters p.1 service namespace;
               reasoning := p.2;
               risk_level := _assess_action_risk p.1;
               reversible := negb (bool_decide (p.1 = CUSTOM)) |})
         action_types in
  let acts :=
    match acts with
    | [] => [default_action (uuid4 1%nat) service namespace]
    | _ => acts
    end in
  let confidence := _calculate_confidence acts observation in
  {| plan_id := plan_id;
     plan_incident_id := incident_id;
     observation := observation;
     orientation := orientation;
     decision := "Execute " +:+ of_nat (length acts)
                   +:+ " healing actions for " +:+ service;
     actions := acts;
     estimated_duration_seconds := length acts * 30;
     confidence := confidence;
     risk_assessment := _assess_plan_risk acts |}.

End DecisionMaker.

(** *** config.py *)

Inductive HealingMode := AUTO | SEMI_AUTO | MANUAL.

Record Settings := {
  healing_mode : HealingMode;
  max_concurrent_healings : Z;
  cooldown_minutes : Z
  }.

(** The defaults of [Settings]. *)
Definition default_settings : Settings :=
  {| healing_mode := AUTO; max_concurrent_healings := 3; cooldown_minutes := 10 |}.

(** [timedelta(minutes=m)] in microseconds. *)
Definition minutes (m : Z) : Z := (m * 60000000)%Z.

(** *** Field updates of the records the engine mutates *)

Definition with_status (s : HealingStatus) (r : HealingResult) : HealingResult :=
  {| healing_id := healing_id r; incident_id := incident_id r; status := s;
     plan := plan r; actions_executed := actions_executed r;
     actions_successful := actions_successful r; started_at := started_at r;
     completed_at := completed_at r; result_message := result_message r;
     error_message := error_message r |}.

Definition with_plan (p : HealingPlan) (r : HealingResult) : HealingResult :=
  {| healing_id := healing_id r; incident_id := incident_id r; status := status r;
     plan := Some p; actions_executed := actions_executed r;
     actions_successful := actions_successful r; started_at := started_at r;
     completed_at := completed_at r; result_message := result_message r;
     error_message := error_message r |}.

Definition with_completed_at (t : Z) (r : HealingResult) : HealingResult :=
  {| healing_id := healing_id r; incident_id := incident_id r; status := status r;
     plan := plan r; actions_executed := actions_executed r;
     actions_successful := actions_successful r; started_at := started_at r;
     completed_at := Some t; result_message := result_message r;
     error_message := error_message r |}.

Definition with_result_message (m : string) (r : HealingResult) : HealingResult :=
  {| healing_id := healing_id r; incident_id := incident_id r; status := status r;
     plan := plan r; actions_executed := actions_executed r;
     actions_successful := actions_successful r; started_at := started_at r;
     completed_at := completed_at r; result_message := Some m;
     error_message := error_message r |}.

Definition with_error_message (m : string) (r : HealingResult) : HealingResult :=
  {| healing_id := healing_id r; incident_id := incident_id r; status := status r;
     plan := plan r; actions_executed := actions_executed r;
     actions_successful := actions_successful r; started_at := started_at r;
     completed_at := completed_at r; result_message := result_message r;
     error_message := Some m |}.

(** [result.actions_executed += 1], and [result.actions_successful += 1]
    when [success]. *)
Definition count_action (success : bool) (r : HealingResult) : HealingResult :=
  {| healing_id := healing_id r; incident_id := incident_id r; status := status r;
     plan := plan r; actions_executed := S (actions_executed r);
     actions_successful :=
       if success then S (actions_successful r) else actions_successful r;
     started_at := started_at r;
     completed_at := completed_at r; result_message := result_message r;
     error_message := error_message r |}.

Definition with_phase (ph : string) (s : OODAState) : OODAState :=
  {| st_healing_id := st_healing_id s; phase := ph;
     st_observation := st_observation s; st_orientation := st_orientation s;
     st_decision := st_decision s |}.

Definition with_observation (o : string) (s : OODAState) : OODAState :=
  {| st_healing_id := st_healing_id s; phase := phase s;
     st_observation := Some o; st_orientation := st_orientation s;
     st_decision := st_decision s |}.

Definition with_orientation (o : string) (s : OODAState) : OODAState :=
  {| st_healing_id := st_healing_id s; phase := phase s;
     st_observation := st_observation s; st_orientation := Some o;
     st_decision := st_decision s |}.

Definition with_decision (d : string) (s : OODAState) : OODAState :=
  {| st_healing_id := st_healing_id s; phase := phase s;
     st_observation := st_observation s; st_orientation := st_orientation s;
     st_decision := Some d |}.

(** [status.value] *)
Definition status_value (s : HealingStatus) : string :=
  match s with
  | PENDING => "pending" | OBSERVING => "observing" | ORIENTING => "orienting"
  | DECIDING => "deciding" | ACTING => "acting" | VALIDATING => "validating"
  | COMPLETED => "completed" | FAILED => "failed" | CANCELLED => "cancelled"
  end.

(** [status not in (COMPLETED, FAILED, CANCELLED)]. *)
Definition non_terminal (s : HealingStatus) : bool :=
  match s with
  | COMPLETED | FAILED | CANCELLED => false
  | _ => true
  end.

(** *** The outside world of the agent *)

(** What a POST to the cluster executor yields: a response with a status
    code, or an exception of the HTTP client. *)
Inductive Response :=
  | Status (code : Z)
  | Raised (msg : string).

(** The oracles of one run of the agent: the successive values of
    [uuid.uuid4()], the successive readings of [datetime.utcnow()], and the
    successive outcomes of the POSTs to the executor. *)
Record Env := {
  uuid4 : nat -> string;
  utcnow : nat -> Z;
  post : nat -> Response
  }.

(** The calls the engine makes to the executor and to its validation
    hook, in the order it makes them. *)
Inductive Call :=
  | CallExecute (a : HealingAction)
  | CallValidate (service : string).

(** The engine object: the attributes [OODAEngine.__init__] creates. *)
Record OODAEngine := {
  _healings : gmap string HealingResult;
  _states : gmap string OODAState;
  _cooldowns : gmap string Z;
  _history : list HealingResult
  }.

(** The state a computation of the agent runs in: the engine, how many
    values of each oracle were consumed, and the log of calls. *)
Record St := {
  engine : OODAEngine;
  n_uuid : nat;
  n_clock : nat;
  n_post : nat;
  calls : list Call
  }.

Inductive exn :=
  | HTTPException (status_code : Z) (detail : string)
  | Exception (msg : string).

(** Python's [str(e)]. *)
Definition str_exn (e : exn) : string :=
  match e with
  | HTTPException c d => d
  | Exception m => m
  end.

(** A computation: it reads the oracles, transforms the state, and
    either returns a value or raises; the state a raising computation
    reached is kept, as the mutations of a Python block are. *)
Definition M (A : Type) : Type := Env -> St -> St * (exn + A).

Definition ret {A} (a : A) : M A := fun _ st => (st, inr a).

Definition bind {A B} (m : M A) (k : A -> M B) : M B :=
  fun env st =>
    match m env st with
    | (st', inr a) => k a env st'
    | (st', inl e) => (st', inl e)
    end.

Definition raise {A} (e : exn) : M A := fun _ st => (st, inl e).

(** [try: body except Exception as e: handler(e)]. *)
Definition try_except {A} (body : M A) (handler : exn -> M A) : M A :=
  fun env st =>
    match body env st with
    | (st', inr a) => (st', inr a)
    | (st', inl e) => handler e env st'
    end.

#[global] Instance M_ret : MRet M := @ret.
#[global] Instance M_bind : MBind M := fun A B k m => bind m k.

Definition get_engine : M OODAEngine := fun _ st => (st, inr (engine st)).

Definition modify_engine (f : OODAEngine -> OODAEngine) : M unit :=
  fun _ st =>
    ({| engine := f (engine st); n_uuid := n_uuid st; n_clock := n_clock st;
        n_post := n_post st; calls := calls st |}, inr tt).

(** [datetime.utcnow()]. *)
Definition now : M Z :=
  fun env st =>
    ({| engine := engine st; n_uuid := n_uuid st; n_clock := S (n_clock st);
        n_post := n_post st; calls := calls st |}, inr (utcnow env (n_clock st))).

(** [str(uuid.uuid4())]. *)
Definition new_uuid : M string :=
  fun env st =>
    ({| engine := engine st; n_uuid := S (n_uuid st); n_clock := n_clock st;
        n_post := n_post st; calls := calls st |}, inr (uuid4 env (n_uuid st))).

(** The [k] next values of [uuid.uuid4()], as a function of the index of
    the call. *)
Definition take_uuids (k : nat) : M (nat -> string) :=
  fun env st =>
    ({| engine := engine st; n_uuid := k + n_uuid st; n_clock := n_clock st;
        n_post := n_post st; calls := calls st |},
     inr (fun i => uuid4 env (n_uuid st + i))).

(** [await client.post(.../api/v1/execute, json=...)]. *)
Definition client_post (a : HealingAction) : M Response :=
  fun env st =>
    ({| engine := engine st; n_uuid := n_uuid st; n_clock := n_clock st;
        n_post := S (n_post st); calls := calls st ++ [CallExecute a] |},
     inr (post env (n_post st))).

Definition log_call (c : Call) : M unit :=
  fun _ st =>
    ({| engine := engine st; n_uuid := n_uuid st; n_clock := n_clock st;
        n_post := n_post st; calls := calls st ++ [c] |}, inr tt).

Arguments ret {A} a _ st /.
Arguments bind {A B} m k env st /.
Arguments raise {A} e _ st /.
Arguments try_except {A} body handler env st /.
Arguments get_engine _ st /.
Arguments modify_engine f _ st /.
Arguments now env st /.
Arguments new_uuid env st /.
Arguments client_post a env st /.
Arguments log_call c _ st /.

(** [f(uuids)] for a block that calls [uuid.uuid4()] some number of
    times: [uuids i] is its [i]-th call, and the block reports how many
    calls it made. *)
Definition with_uuids {A} (f : (nat -> string) -> A * nat) : M A :=
  fun env st =>
    let '(a, k) := f (fun i => uuid4 env (n_uuid st + i)) in
    ({| engine := engine st; n_uuid := n_uuid st + k; n_clock := n_clock st;
        n_post := n_post st; calls := calls st |}, inr a).

(** *** core/ooda_engine.py *)

Module Engine.

(** [OODAEngine()] *)
Definition init : OODAEngine :=
  {| _healings := ∅; _states := ∅; _cooldowns := ∅; _history := [] |}.

Definition values (e : OODAEngine) : list HealingResult :=
  (map_to_list (_healings e)).*2.

Definition register_healing (result : HealingResult) : M unit :=
  modify_engine (fun e =>
    {| _healings := <[healing_id result := result]> (_healings e);
       _states := <[healing_id result :=
                      {| st_healing_id := healing_id result; phase := "pending";
                         st_observation := None; st_orientation := None;
                         st_decision := None |}]> (_states e);
       _cooldowns := _cooldowns e;
       _history := _history e |}).

Definition get_healing (e : OODAEngine) (hid : string) : option HealingResult :=
  _healings e !! hid.

Definition get_ooda_state (e : OODAEngine) (hid : string) : option OODAState :=
  _states e !! hid.

Definition is_healing (e : OODAEngine) (iid : string) : bool :=
  existsb (fun h => String.eqb (incident_id h) iid && non_terminal (status h))
          (values e).

Definition is_in_cooldown (service : string) : M bool :=
  e ← get_engine;
  match _cooldowns e !! service with
  | None => mret false
  | Some cooldown_until => t ← now; mret (t <? cooldown_until)%Z
  end.

Definition get_active_count (e : OODAEngine) : nat :=
  sum_list_with (fun h => if non_terminal (status h) then 1 else 0)%nat (values e).

Definition get_total_count (e : OODAEngine) : nat :=
  size (_healings e) + length (_history e).

Definition get_success_rate (e : OODAEngine) : float :=
  let completed :=
    List.filter (fun h => bool_decide (status h = COMPLETED)) (_history e) in
  let total := length (_history e) in
  if (0 <? total)%nat
  then (PyFloat.of_nat (length completed) / PyFloat.of_nat total)%float
  else 0%float.

(** [(a - b).total_seconds()] *)
Definition total_seconds (a b : Z) : float :=
  (PyFloat.of_Z (a - b) / 1000000)%float.

Definition get_average_duration (e : OODAEngine) : float :=
  let durations :=
    omap (fun h => match completed_at h with
                   | Some c => Some (total_seconds c (started_at h))
                   | None => None
                   end) (_history e) in
  match durations with
  | [] => 0%float
  | _ => (PyFloat.sum durations / PyFloat.of_nat (length durations))%float
  end.

(** [result.<field> = ...] on the result registered under [hid]. *)
Definition set_result (hid : string) (f : HealingResult -> HealingResult) : M unit :=
  modify_engine (fun e =>
    {| _healings := alter f hid (_healings e); _states := _states e;
       _cooldowns := _cooldowns e; _history := _history e |}).

(** [state.<field> = ...] on the state registered under [hid]. *)
Definition set_state (hid : string) (f : OODAState -> OODAState) : M unit :=
  modify_engine (fun e =>
    {| _healings := _healings e; _states := alter f hid (_states e);
       _cooldowns := _cooldowns e; _history := _history e |}).

(** [self._cooldowns[service] = t] *)
Definition set_cooldown (service : string) (t : Z) : M unit :=
  modify_engine (fun e =>
    {| _healings := _healings e; _states := _states e;
       _cooldowns := <[service := t]> (_cooldowns e); _history := _history e |}).

Arguments set_result hid f _ st /.
Arguments set_state hid f _ st /.
Arguments set_cooldown service t _ st /.

Definition _observe (request : HealingRequest) : M string :=
  let observations : list string := [] in
  let observations :=
    observations ++ ["Incident " +:+ req_incident_id request
                       +:+ " affecting " +:+ target_service request] in
  let observations := observations ++ ["Severity: " +:+ severity request] in
  let observations :=
    match root_cause request with
    | Some rc => if truthy rc
                 then observations ++ ["Suspected root cause: " +:+ rc]
                 else observations
    | None => observations
    end in
  let observations :=
    match recommended_actions request with
    | [] => observations
    | recs => observations ++ ["Recommended actions: " +:+ join ", " recs]
    end in
  mret (join " | " observations).

Definition _orient (request : HealingRequest) (observation : string) : M string :=
  mret (DecisionMaker.analyze_incident (root_cause request) (severity request)
          (recommended_actions request)).

Definition _decide (request : HealingRequest) (observation orientation : string)
    : M HealingPlan :=
  with_uuids (fun uuids =>
    let plan :=
      DecisionMaker.generate_plan uuids (req_incident_id request)
        (target_service request) (target_namespace request)
        observation orientation (recommended_actions request) in
    (plan, S (length (actions plan)))).

Definition _execute_action (action : HealingAction) : M bool :=
  try_except
    (response ← client_post action;
     match response with
     | Status code =>
         mret (bool_decide (code = 200 ∨ code = 201 ∨ code = 202)%Z)
     | Raised msg => raise (Exception msg)
     end)
    (fun _ => mret false).

(** The loop of [_act] over the actions of the plan. *)
Fixpoint _act_loop (hid : string) (acts : list HealingAction) : M unit :=
  match acts with
  | [] => mret tt
  | action :: acts' =>
      try_except
        (success ← _execute_action action;
         set_result hid (count_action success))
        (fun _ => set_result hid (count_action false));;
      _act_loop hid acts'
  end.

Definition _act (hid : string) (p : HealingPlan) : M unit :=
  e ← get_engine;
  match _healings e !! hid with
  | None => mret tt
  | Some _ => _act_loop hid (actions p)
  end.

Definition _validate (service : string) : M bool :=
  log_call (CallValidate service);;
  mret true.

Section WithSettings.

Variable settings : Settings.

Definition run_ooda_loop (hid : string) (request : HealingRequest) : M unit :=
  e ← get_engine;
  match _healings e !! hid, _states e !! hid with
  | Some _, Some _ =>
      try_except
        (set_state hid (with_phase "observe");;
         set_result hid (with_status OBSERVING);;
         observation ← _observe request;
         set_state hid (with_observation observation);;
         set_state hid (with_phase "orient");;
         set_result hid (with_status ORIENTING);;
         orientation ← _orient request observation;
         set_state hid (with_orientation orientation);;
         set_state hid (with_phase "decide");;
         set_result hid (with_status DECIDING);;
         p ← _decide request observation orientation;
         set_result hid (with_plan p);;
         set_state hid (with_decision (decision p));;
         set_state hid (with_phase "act");;
         set_result hid (with_status ACTING);;
         _act hid p;;
         set_state hid (with_phase "validate");;
         set_result hid (with_status VALIDATING);;
         success ← _validate (target_service request);
         set_result hid (with_status (if success : bool then COMPLETED else FAILED));;
         t ← now;
         set_result hid (with_completed_at t);;
         set_result hid (with_result_message
                           (if success : bool then "Healing completed successfully"
                            else "Healing validation failed"));;
         t' ← now;
         set_cooldown (target_service request)
                      (t' + minutes (cooldown_minutes settings)))
        (fun e =>
           set_result hid (with_status FAILED);;
           set_result hid (with_error_message (str_exn e));;
           t ← now;
           set_result hid (with_completed_at t))
  | _, _ => mret tt
  end.

Definition generate_plan_only (hid : string) (request : HealingRequest) : M unit :=
  e ← get_engine;
  match _healings e !! hid, _states e !! hid with
  | Some _, Some _ =>
      try_except
        (set_state hid (with_phase "observe");;
         observation ← _observe request;
         set_state hid (with_observation observation);;
         set_state hid (with_phase "orient");;
         orientation ← _orient request observation;
         set_state hid (with_orientation orientation);;
         set_state hid (with_phase "decide");;
         p ← _decide request observation orientation;
         set_result hid (with_plan p);;
         set_state hid (with_decision (decision p));;
         set_result hid (with_status DECIDING);;
         set_result hid (with_result_message "Plan generated, awaiting approval"))
        (fun e =>
           set_result hid (with_status FAILED);;
           set_result hid (with_error_message (str_exn e)))
  | _, _ => mret tt
  end.

Definition analyze_only (hid : string) (request : HealingRequest) : M unit :=
  e ← get_engine;
  match _healings e !! hid, _states e !! hid with
  | Some _, Some _ =>
      try_except
        (set_state hid (with_phase "observe");;
         observation ← _observe request;
         set_state hid (with_observation observation);;
         set_state hid (with_phase "orient");;
         orientation ← _orient request observation;
         set_state hid (with_orientation orientation);;
         set_result hid (with_status COMPLETED);;
         set_result hid (with_result_message
                           "Analysis complete. Manual action required.");;
         t ← now;
         set_result hid (with_completed_at t))
        (fun e =>
           set_result hid (with_status FAILED);;
           set_result hid (with_error_message (str_exn e)))
  | _, _ => mret tt
  end.

Definition execute_plan (hid : string) : M unit :=
  e ← get_engine;
  match _healings e !! hid with
  | Some result =>
      match plan result with
      | Some p =>
          try_except
            (set_result hid (with_status ACTING);;
             _act hid p;;
             set_result hid (with_status VALIDATING);;
             set_result hid (with_status COMPLETED);;
             t ← now;
             set_result hid (with_completed_at t);;
             set_result hid (with_result_message "Plan executed successfully"))
            (fun e =>
               set_result hid (with_status FAILED);;
               set_result hid (with_error_message (str_exn e)))
      | None => mret tt
      end
  | None => mret tt
  end.

Definition cancel_healing (hid : string) : M (option HealingResult) :=
  e ← get_engine;
  match _healings e !! hid with
  | Some _ =>
      set_result hid (with_status CANCELLED);;
      t ← now;
      set_result hid (with_completed_at t);;
      e' ← get_engine;
      mret (_healings e' !! hid)
  | None => mret None
  end.

End WithSettings.

End Engine.

(** *** api/routes.py *)

Module Routes.

(** What a handler hands to [background_tasks.add_task]. *)
Inductive Task :=
  | TaskRunOODALoop (hid : string) (request : HealingRequest)
  | TaskGeneratePlanOnly (hid : string) (request : HealingRequest)
  | TaskAnalyzeOnly (hid : string) (request : HealingRequest)
  | TaskExecutePlan (hid : string).

Section WithSettings.

Variable settings : Settings.

(** [POST /heal].  [started_at] is stamped when the result is
    built. *)
Definition trigger_healing (request_data : HealingRequest)
    : M (HealingResult * Task) :=
  e ← get_engine;
  if Engine.is_healing e (req_incident_id request_data) then
    raise (HTTPException 409
             ("Healing already in progress for incident "
                +:+ req_incident_id request_data))
  else if (max_concurrent_healings settings <=? Z.of_nat (Engine.get_active_count e))%Z then
    raise (HTTPException 429
             ("Maximum concurrent healings ("
                +:+ of_int (max_concurrent_healings settings) +:+ ") reached"))
  else
    in_cooldown ← Engine.is_in_cooldown (target_service request_data);
    if (in_cooldown : bool) && negb (force request_data) then
      raise (HTTPException 429
               ("Service " +:+ target_service request_data
                  +:+ " is in cooldown period"))
    else
      hid ← new_uuid;
      t ← now;
      let result :=
        {| healing_id := hid;
           incident_id := req_incident_id request_data;
           status := PENDING;
           plan := None;
           actions_executed := 0;
           actions_successful := 0;
           started_at := t;
           completed_at := None;
           result_message := None;
           error_message := None |} in
      Engine.register_healing result;;
      match healing_mode settings with
      | AUTO =>
          Engine.set_result hid (with_status OBSERVING);;
          mret (with_status OBSERVING result, TaskRunOODALoop hid request_data)
      | SEMI_AUTO =>
          Engine.set_result hid (with_status DECIDING);;
          mret (with_status DECIDING result, TaskGeneratePlanOnly hid request_data)
      | MANUAL =>
          Engine.set_result hid (with_status ORIENTING);;
          mret (with_status ORIENTING result, TaskAnalyzeOnly hid request_data)
      end.

(** [POST /heal/{healing_id}/approve] *)
Definition approve_healing_plan (hid : string) : M Task :=
  e ← get_engine;
  match Engine.get_healing e hid with
  | None => raise (HTTPException 404 "Healing not found")
  | Some result =>
      if bool_decide (status result = DECIDING)
      then mret (TaskExecutePlan hid)
      else raise (HTTPException 400
                    ("Cannot approve healing in status "
                       +:+ status_value (status result)))
  end.

(** [POST /heal/{healing_id}/cancel] *)
Definition cancel_healing (hid : string) : M unit :=
  result ← Engine.cancel_healing hid;
  match result with
  | None => raise (HTTPException 404 "Healing not found")
  | Some _ => mret tt
  end.

(** The body of a background task. *)
Definition run_task (t : Task) : M unit :=
  match t with
  | TaskRunOODALoop hid request => Engine.run_ooda_loop settings hid request
  | TaskGeneratePlanOnly hid request => Engine.generate_plan_only hid request
  | TaskAnalyzeOnly hid request => Engine.analyze_only hid request
  | TaskExecutePlan hid => Engine.execute_plan hid
  end.

End WithSettings.

End Routes.

(** *** The agent as a transition system *)

(** The agent process: the state of its computations, the background
    tasks that were scheduled and have not run yet, and (a ghost count) how
    many healings were registered so far.  A coroutine is run to completion
    in one step: the interleaving of other handlers at the awaits of a
    dispatch is not part of the model. *)
Record Sys := {
  state : St;
  background : list Routes.Task;
  registered : nat
  }.

Inductive Event :=
  | Trigger (request_data : HealingRequest)
  | Approve (hid : string)
  | Cancel (hid : string)
  | Run (k : nat).

Definition boot : Sys :=
  {| state := {| engine := Engine.init; n_uuid := 0; n_clock := 0; n_post := 0;
                 calls := [] |};
     background := [];
     registered := 0 |}.

Section Step.

Variable settings : Settings.
Variable env : Env.

Definition step (ev : Event) (s : Sys) : Sys :=
  match ev with
  | Trigger request_data =>
      match Routes.trigger_healing settings request_data env (state s) with
      | (st', inr (_, task)) =>
          {| state := st'; background := background s ++ [task];
             registered := S (registered s) |}
      | (st', inl _) =>
          {| state := st'; background := background s; registered := registered s |}
      end
  | Approve hid =>
      match Routes.approve_healing_plan hid env (state s) with
      | (st', inr task) =>
          {| state := st'; background := background s ++ [task];
             registered := registered s |}
      | (st', inl _) =>
          {| state := st'; background := background s; registered := registered s |}
      end
  | Cancel hid =>
      {| state := (Routes.cancel_healing hid env (state s)).1;
         background := background s; registered := registered s |}
  | Run k =>
      match background s !! k with
      | Some task =>
          {| state := (Routes.run_task settings task env (state s)).1;
             background := delete k (background s);
             registered := registered s |}
      | None => s
      end
  end.

Definition run (evs : list Event) (s : Sys) : Sys :=
  fold_left (fun s ev => step ev s) evs s.

Inductive reachable : Sys -> Prop :=
  | reachable_boot : reachable boot
  | reachable_step s ev : reachable s -> reachable (step ev s).

End Step.

End AutoHealAgent.

(* ===================================================================== *)
(** ** services/incident-manager *)
(* ===================================================================== *)

Module IncidentManager.

Import PyStr.

(** *** api/schemas.py *)

Inductive IncidentStatus :=
  | NEW | ANALYZING | HEALING | AWAITING_APPROVAL | RESOLVED | FAILED.

Inductive IncidentSeverity := CRITICAL | HIGH | MEDIUM | LOW.

Record AnomalyEventInput := {
  a_event_id : string;
  anomaly_type : string;
  a_severity : string;
  a_target_service : string;
  a_target_namespace : string;
  metric_name : string;
  current_value : float;
  threshold_value : float
  }.

Record LogAnalysisEventInput := {
  l_event_id : string;
  service_name : string;
  namespace : string;
  error_category : string;
  error_count : Z;
  l_severity : string;
  l_root_cause : string;
  l_confidence : float;
  sample_message : string;
  recommended_actions : list string
  }.

Record Incident := {
  incident_id : string;
  title : string;
  description : string;
  status : IncidentStatus;
  severity : IncidentSeverity;
  target_service : string;
  target_namespace : string;
  created_at : Z;
  updated_at : Z;
  resolved_at : option Z;
  event_ids : list string;
  event_count : Z;
  root_cause : option string;
  confidence : option float;
  healing_plan_id : option string;
  healing_actions : list string;
  healing_result : option string
  }.

(** *** config.py *)

Record Settings := {
  incident_correlation_window_minutes : Z;
  healing_enabled : bool;
  approval_required : bool
  }.

Definition default_settings : Settings :=
  {| incident_correlation_window_minutes := 15;
     healing_enabled := true;
     approval_required := false |}.

Definition minutes (m : Z) : Z := (m * 60000000)%Z.

(** *** The outside world of the incident manager *)

(** The successive values of [uuid.uuid4()] and readings of
    [datetime.utcnow()], and the text Python prints for a float. *)
Record Env := {
  uuid4 : nat -> string;
  utcnow : nat -> Z;
  repr_float : float -> string
  }.

(** *** core/incident_store.py *)

(** The dictionary [IncidentStore._incidents], in insertion order. *)
Definition IncidentDict := list (string * Incident).

(** [d.get(k)] *)
Fixpoint dict_get (k : string) (d : IncidentDict) : option Incident :=
  match d with
  | [] => None
  | (k', v) :: d' => if String.eqb k' k then Some v else dict_get k d'
  end.

(** [d[k] = v]: a key already present keeps its place. *)
Fixpoint dict_set (k : string) (v : Incident) (d : IncidentDict) : IncidentDict :=
  match d with
  | [] => [(k, v)]
  | (k', v') :: d' =>
      if String.eqb k' k then (k, v) :: d' else (k', v') :: dict_set k v d'
  end.

(** The process: the store, how many values of each oracle were
    consumed, and the incidents [_trigger_healing] was called for. *)
Record St := {
  _incidents : IncidentDict;
  n_uuid : nat;
  n_clock : nat;
  triggered : list Incident
  }.

Definition boot : St :=
  {| _incidents := []; n_uuid := 0; n_clock := 0; triggered := [] |}.

Definition with_incidents (d : IncidentDict) (st : St) : St :=
  {| _incidents := d; n_uuid := n_uuid st; n_clock := n_clock st;
     triggered := triggered st |}.

(** [status not in (RESOLVED, FAILED)] *)
Definition is_open (s : IncidentStatus) : bool :=
  match s with
  | RESOLVED | FAILED => false
  | _ => true
  end.

(** A field of the [updates] dictionary of [update_incident]. *)
Inductive Update :=
  | UpdStatus (s : IncidentStatus)
  | UpdSeverity (s : IncidentSeverity)
  | UpdResolvedAt (t : Z)
  | UpdRootCause (rc : string)
  | UpdConfidence (c : float)
  | UpdHealingActions (l : list string).

Definition apply_update (i : Incident) (u : Update) : Incident :=
  {| incident_id := incident_id i; title := title i; description := description i;
     status := match u with UpdStatus s => s | _ => status i end;
     severity := match u with UpdSeverity s => s | _ => severity i end;
     target_service := target_service i; target_namespace := target_namespace i;
     created_at := created_at i; updated_at := updated_at i;
     resolved_at := match u with UpdResolvedAt t => Some t | _ => resolved_at i end;
     event_ids := event_ids i; event_count := event_count i;
     root_cause := match u with UpdRootCause rc => Some rc | _ => root_cause i end;
     confidence := match u with UpdConfidence c => Some c | _ => confidence i end;
     healing_plan_id := healing_plan_id i;
     healing_actions :=
       match u with UpdHealingActions l => l | _ => healing_actions i end;
     healing_result := healing_result i |}.

Definition with_updated_at (t : Z) (i : Incident) : Incident :=
  {| incident_id := incident_id i; title := title i; description := description i;
     status := status i; severity := severity i;
     target_service := target_service i; target_namespace := target_namespace i;
     created_at := created_at i; updated_at := t; resolved_at := resolved_at i;
     event_ids := event_ids i; event_count := event_count i;
     root_cause := root_cause i; confidence := confidence i;
     healing_plan_id := healing_plan_id i; healing_actions := healing_actions i;
     healing_result := healing_result i |}.

(** [incident.event_ids.append(event_id)],
    [incident.event_count = len(incident.event_ids)],
    [incident.updated_at = t]. *)
Definition with_event (event_id : string) (t : Z) (i : Incident) : Incident :=
  {| incident_id := incident_id i; title := title i; description := description i;
     status := status i; severity := severity i;
     target_service := target_service i; target_namespace := target_namespace i;
     created_at := created_at i; updated_at := t; resolved_at := resolved_at i;
     event_ids := event_ids i ++ [event_id];
     event_count := Z.of_nat (length (event_ids i ++ [event_id]));
     root_cause := root_cause i; confidence := confidence i;
     healing_plan_id := healing_plan_id i; healing_actions := healing_actions i;
     healing_result := healing_result i |}.

Section Store.

Variable env : Env.

(** [datetime.utcnow()] *)
Definition now (st : St) : St * Z :=
  ({| _incidents := _incidents st; n_uuid := n_uuid st; n_clock := S (n_clock st);
      triggered := triggered st |}, utcnow env (n_clock st)).

(** [str(uuid.uuid4())] *)
Definition new_uuid (st : St) : St * string :=
  ({| _incidents := _incidents st; n_uuid := S (n_uuid st); n_clock := n_clock st;
      triggered := triggered st |}, uuid4 env (n_uuid st)).

Definition create_incident (incident : Incident) (st : St) : St * Incident :=
  (with_incidents (dict_set (incident_id incident) incident (_incidents st)) st,
   incident).

Definition get_incident (iid : string) (st : St) : option Incident :=
  dict_get iid (_incidents st).

Definition update_incident (iid : string) (updates : list Update) (st : St)
    : St * option Incident :=
  match dict_get iid (_incidents st) with
  | None => (st, None)
  | Some incident =>
      let incident_dict := fold_left apply_update updates incident in
      let '(st, t) := now st in
      let updated := with_updated_at t incident_dict in
      (with_incidents (dict_set iid updated (_incidents st)) st, Some updated)
  end.

Definition add_event_to_incident (iid event_id : string) (st : St)
    : St * option Incident :=
  match dict_get iid (_incidents st) with
  | None => (st, None)
  | Some incident =>
      let '(st, t) := now st in
      let incident := with_event event_id t incident in
      (with_incidents (dict_set iid incident (_incidents st)) st, Some incident)
  end.

(** The loop of [find_related_incident] over [self._incidents.values()]. *)
Fixpoint find_related_loop (d : IncidentDict) (service namespace : string)
    (cutoff : Z) : option Incident :=
  match d with
  | [] => None
  | (_, incident) :: d' =>
      if is_open (status incident)
         && String.eqb (target_service incident) service
         && String.eqb (target_namespace incident) namespace
         && (cutoff <=? created_at incident)%Z
      then Some incident
      else find_related_loop d' service namespace cutoff
  end.

Definition find_related_incident (service namespace : string) (window_minutes : Z)
    (st : St) : St * option Incident :=
  let '(st, t) := now st in
  let cutoff := (t - minutes window_minutes)%Z in
  (st, find_related_loop (_incidents st) service namespace cutoff).

End Store.

(** *** api/routes.py *)

(** [IncidentSeverity(s) if s in IncidentSeverity.__members__.values()
    else IncidentSeverity.MEDIUM] *)
Definition severity_of (s : string) : IncidentSeverity :=
  if String.eqb s "critical" then CRITICAL
  else if String.eqb s "high" then HIGH
  else if String.eqb s "medium" then MEDIUM
  else if String.eqb s "low" then LOW
  else MEDIUM.

(** The JSON body a handler answers with. *)
Record Answer := {
  action : string;
  answer_incident_id : string
  }.

Section Routes.

Variable settings : Settings.
Variable env : Env.

(** [await _trigger_healing(incident)]: the POST to the agent, whose
    outcome is logged and otherwise ignored. *)
Definition _trigger_healing (incident : Incident) (st : St) : St :=
  {| _incidents := _incidents st; n_uuid := n_uuid st; n_clock := n_clock st;
     triggered := triggered st ++ [incident] |}.

Definition maybe_trigger_healing (incident : Incident) (st : St) : St :=
  if healing_enabled settings && negb (approval_required settings)
  then _trigger_healing incident st
  else st.

(** [POST /events/anomaly] *)
Definition receive_anomaly_event (event : AnomalyEventInput) (st : St) : St * Answer :=
  let '(st, existing) :=
    find_related_incident env (a_target_service event) (a_target_namespace event)
      (incident_correlation_window_minutes settings) st in
  match existing with
  | Some existing =>
      let '(st, _) :=
        add_event_to_incident env (incident_id existing) (a_event_id event) st in
      (st, {| action := "correlated"; answer_incident_id := incident_id existing |})
  | None =>
      let severity := severity_of (a_severity event) in
      let '(st, iid) := new_uuid env st in
      let '(st, t_created) := now env st in
      let '(st, t_updated) := now env st in
      let incident :=
        {| incident_id := iid;
           title := PyStr.title (replace_char "_" " " (anomaly_type event))
                      +:+ " on " +:+ a_target_service event;
           description :=
             "Detected " +:+ anomaly_type event +:+ ": " +:+ metric_name event
               +:+ " = " +:+ repr_float env (current_value event)
               +:+ " (threshold: " +:+ repr_float env (threshold_value event) +:+ ")";
           status := NEW;
           severity := severity;
           target_service := a_target_service event;
           target_namespace := a_target_namespace event;
           created_at := t_created;
           updated_at := t_updated;
           resolved_at := None;
           event_ids := [a_event_id event];
           event_count := 1;
           root_cause := Some ("Possible cause: " +:+ anomaly_type event);
           confidence := Some 0.7%float;
           healing_plan_id := None;
           healing_actions := [];
           healing_result := None |} in
      let '(st, _) := create_incident incident st in
      let st := maybe_trigger_healing incident st in
      (st, {| action := "created"; answer_incident_id := incident_id incident |})
  end.

(** [POST /events/log-analysis] *)
Definition receive_log_analysis_event (event : LogAnalysisEventInput) (st : St)
    : St * Answer :=
  let '(st, existing) :=
    find_related_incident env (service_name event) (namespace event)
      (incident_correlation_window_minutes settings) st in
  match existing with
  | Some existing =>
      let '(st, _) :=
        add_event_to_incident env (incident_id existing) (l_event_id event) st in
      let '(st, _) :=
        update_incident env (incident_id existing)
          [UpdRootCause (l_root_cause event);
           UpdConfidence (l_confidence event);
           UpdHealingActions (recommended_actions event)] st in
      (st, {| action := "correlated"; answer_incident_id := incident_id existing |})
  | None =>
      let severity := severity_of (l_severity event) in
      let '(st, iid) := new_uuid env st in
      let '(st, t_created) := now env st in
      let '(st, t_updated) := now env st in
      let incident :=
        {| incident_id := iid;
           title := PyStr.title (replace_char "_" " " (error_category event))
                      +:+ " Error in " +:+ service_name event;
           description := slice_to 500 (sample_message event);
           status := ANALYZING;
           severity := severity;
           target_service := service_name event;
           target_namespace := namespace event;
           created_at := t_created;
           updated_at := t_updated;
           resolved_at := None;
           event_ids := [l_event_id event];
           event_count := error_count event;
           root_cause := Some (l_root_cause event);
           confidence := Some (l_confidence event);
           healing_plan_id := None;
           healing_actions := recommended_actions event;
           healing_result := None |} in
      let '(st, _) := create_incident incident st in
      let st := maybe_trigger_healing incident st in
      (st, {| action := "created"; answer_incident_id := incident_id incident |})
  end.

(** A signal: the body of either ingestion endpoint. *)
Inductive Signal :=
  | Anomaly (event : AnomalyEventInput)
  | LogAnalysis (event : LogAnalysisEventInput).

Definition signal_service (sg : Signal) : string :=
  match sg with
  | Anomaly e => a_target_service e
  | LogAnalysis e => service_name e
  end.

Definition signal_namespace (sg : Signal) : string :=
  match sg with
  | Anomaly e => a_target_namespace e
  | LogAnalysis e => namespace e
  end.

Definition signal_event_id (sg : Signal) : string :=
  match sg with
  | Anomaly e => a_event_id e
  | LogAnalysis e => l_event_id e
  end.

Definition ingest (sg : Signal) (st : St) : St * Answer :=
  match sg with
  | Anomaly e => receive_anomaly_event e st
  | LogAnalysis e => receive_log_analysis_event e st
  end.

Definition ingest_all (sgs : list Signal) (st : St) : St :=
  fold_left (fun st sg => (ingest sg st).1) sgs st.

End Routes.

End IncidentManager.

(* ===================================================================== *)
(** ** The behaviour the specification describes *)
(* ===================================================================== *)

(** Definitions that follow the words of the specification, to be compared
    with the functions above. *)
Module Described.

Import PyStr AutoHealAgent.

(** The key occurs in the lowercased observation, as written or with its
    underscores replaced by spaces. *)
Definition key_occurs (observation key : string) : bool :=
  contains (lower observation) key
  || contains (lower observation) (replace_char "_" " " key).

(** The first entry of the cause table whose key occurs. *)
Definition first_matching_entry (observation : string)
    : option (string * list (ActionType * string)) :=
  List.find (fun e => key_occurs observation e.1) DecisionMaker.CAUSE_ACTION_MAP.

(** Its actions, at most two. *)
Definition table_candidates (observation : string) : list (ActionType * string) :=
  match first_matching_entry observation with
  | Some e => take 2 e.2
  | None => []
  end.

(** The action a hint stands for, by its first keyword among restart,
    scale, rollback and circuit. *)
Definition hint_candidate (hint : string) : option (ActionType * string) :=
  if contains (lower hint) "restart" then Some (RESTART_POD, hint)
  else if contains (lower hint) "scale" then Some (SCALE_UP, hint)
  else if contains (lower hint) "rollback" then Some (ROLLBACK, hint)
  else if contains (lower hint) "circuit" then Some (CIRCUIT_BREAKER, hint)
  else None.

(** The candidates of the first two hints. *)
Definition hint_candidates (hints : list string) : list (ActionType * string) :=
  omap hint_candidate (take 2 hints).

(** Deduplication by action type: an element stays, and removes the later
    elements of its type. *)
Definition first_by_type (l : list (ActionType * string)) : list (ActionType * string) :=
  foldr (fun p acc => p :: filter (fun q => q.1 ≠ p.1) acc) [] l.

Definition selection (observation : string) (hints : list string)
    : list (ActionType * string) :=
  take 3 (first_by_type (table_candidates observation ++ hint_candidates hints)).

(** The confidence of a plan as the specification computes it: from the
    orientation text. *)
Definition confidence_of_orientation (orientation : string)
    (acts : list HealingAction) : float :=
  let c := 0.7%float in
  let c := if contains (lower orientation) "known pattern" then (c + 0.15)%float else c in
  let c := if contains (lower orientation) "unknown pattern" then (c - 0.2)%float else c in
  let c := if existsb (fun a => String.eqb (risk_level a) "high") acts
           then (c - 0.1)%float else c in
  PyFloat.max2 0.3 (PyFloat.min2 0.95 c).

(** Some registered healing of the incident is not terminal. *)
Definition already_healing (e : OODAEngine) (iid : string) : Prop :=
  ∃ hid h, _healings e !! hid = Some h
           ∧ incident_id h = iid ∧ non_terminal (status h) = true.

(** The number of registered healings that are not terminal. *)
Definition active_healings (e : OODAEngine) : nat :=
  size (filter (fun kv : string * HealingResult =>
                  non_terminal (status kv.2) = true) (_healings e)).

(** The service has a cooldown that ends after [t]. *)
Definition cooling_down (e : OODAEngine) (service : string) (t : Z) : Prop :=
  ∃ cooldown_until, _cooldowns e !! service = Some cooldown_until
                    ∧ (t < cooldown_until)%Z.

(** The executor answered a dispatch with 200, 201 or 202. *)
Definition dispatch_ok (r : Response) : bool :=
  match r with
  | Status code => bool_decide (code = 200 ∨ code = 201 ∨ code = 202)%Z
  | Raised _ => false
  end.

(** The outcomes of dispatching [acts] in order, when [n] dispatches were
    made before. *)
Fixpoint dispatch_outcomes (env : Env) (n : nat) (acts : list HealingAction)
    : list bool :=
  match acts with
  | [] => []
  | _ :: acts' => dispatch_ok (post env n) :: dispatch_outcomes env (S n) acts'
  end.

(** The counters of a result after dispatches with the outcomes [oks]. *)
Definition count_actions (oks : list bool) (r : HealingResult) : HealingResult :=
  foldl (fun r ok => count_action ok r) r oks.

(** How many of the outcomes are successes. *)
Definition successes (oks : list bool) : nat := length (filter (fun ok => ok = true) oks).

(** What no operation on registered healings changes: the set of
    registered ids and the archive stay, and no [uuid4] value is given
    back. *)
Definition registry_frame (st st' : St) : Prop :=
  dom (_healings (engine st')) = dom (_healings (engine st))
  ∧ _history (engine st') = _history (engine st)
  ∧ (n_uuid st ≤ n_uuid st')%nat.

(** The cooldown table stays. *)
Definition cooldown_frame (st st' : St) : Prop :=
  _cooldowns (engine st') = _cooldowns (engine st).

(** What holds of the agent in manual mode: no call was made to the
    executor or to the validation hook; every registered healing is being
    analysed, completed or cancelled, with no plan and no action counted; and
    every pending background task is the analysis of a registered
    healing. *)
Definition manual_invariant (s : Sys) : Prop :=
  calls (state s) = []
  ∧ (∀ hid r, _healings (engine (state s)) !! hid = Some r →
              (status r = ORIENTING ∨ status r = COMPLETED ∨ status r = CANCELLED)
              ∧ plan r = None ∧ actions_executed r = 0%nat)
  ∧ (∀ task, task ∈ background s →
             ∃ hid request,
               task = Routes.TaskAnalyzeOnly hid request
               ∧ is_Some (_healings (engine (state s)) !! hid)
               ∧ is_Some (_states (engine (state s)) !! hid)).

(** A computation whose final state is related to its initial state by
    [R], whatever the oracles and whether it returns or raises. *)
Definition keeps (R : relation St) {A} (m : M A) : Prop :=
  ∀ env st, R st (m env st).1.

End Described.

(** The correlation rule and the store, in the words of the
    specification. *)
Module DescribedIncidents.

Import IncidentManager.

(** The incident is open, has the target of the signal, and was created at
    most [window] before [t]. *)
Definition correlates_with (sg : Signal) (t window : Z) (i : Incident) : Prop :=
  is_open (status i) = true
  ∧ target_service i = signal_service sg
  ∧ target_namespace i = signal_namespace sg
  ∧ (t - created_at i ≤ window)%Z.

(** The incident is open and has the given target. *)
Definition open_for (service namespace : string) (i : Incident) : Prop :=
  is_open (status i) = true
  ∧ target_service i = service ∧ target_namespace i = namespace.

(** The store is a dictionary keyed by incident id. *)
Definition store_wf (d : IncidentDict) : Prop :=
  NoDup d.*1 ∧ ∀ k i, (k, i) ∈ d → incident_id i = k.

(** Successive readings of the clock do not decrease. *)
Definition monotone_clock (env : Env) : Prop :=
  ∀ i j, (i ≤ j)%nat → (utcnow env i ≤ utcnow env j)%Z.

(** What holds of the incident manager after any sequence of ingests under
    a monotone clock: the store is keyed by incident id, every incident was
    created at a reading of the clock already taken, and two open incidents
    of one target were created more than [window] apart. *)
Definition ingest_invariant (env : Env) (window : Z) (st : St) : Prop :=
  store_wf (_incidents st)
  ∧ (∀ k i, (k, i) ∈ _incidents st →
            ∃ j, (j < n_clock st)%nat ∧ created_at i = utcnow env j)
  ∧ (∀ k1 i1 k2 i2,
       (k1, i1) ∈ _incidents st → (k2, i2) ∈ _incidents st → k1 ≠ k2 →
       is_open (status i1) = true → is_open (status i2) = true →
       target_service i1 = target_service i2 →
       target_namespace i1 = target_namespace i2 →
       (window < created_at i1 - created_at i2
        ∨ window < created_at i2 - created_at i1)%Z).

End DescribedIncidents.

(* ===================================================================== *)
(** ** Scenarios *)
(* ===================================================================== *)

(** Concrete runs of the agent, on which the theorems below are
    instantiated. *)
Module Scenario.

Import PyStr AutoHealAgent.

(** The [k]-th id is ["uuid-k"], the [k]-th clock reading is [k] seconds,
    and the executor accepts every action. *)
Definition env_up : Env :=
  {| uuid4 := fun k => "uuid-" +:+ of_nat k;
     utcnow := fun k => (Z.of_nat k * 1000000)%Z;
     post := fun _ => Status 200 |}.

(** The same world with the executor unreachable. *)
Definition env_down : Env :=
  {| uuid4 := fun k => "uuid-" +:+ of_nat k;
     utcnow := fun k => (Z.of_nat k * 1000000)%Z;
     post := fun _ => Raised "All connection attempts failed" |}.

Definition auto_mode : Settings := default_settings.

Definition semi_auto_mode : Settings :=
  {| healing_mode := SEMI_AUTO; max_concurrent_healings := 3; cooldown_minutes := 10 |}.

Definition manual_mode : Settings :=
  {| healing_mode := MANUAL; max_concurrent_healings := 3; cooldown_minutes := 10 |}.

Definition checkout_request : HealingRequest :=
  {| req_incident_id := "inc-1"; target_service := "checkout";
     target_namespace := "default"; severity := "high";
     root_cause := Some "Possible cause: error_rate_spike";
     recommended_actions := []; force := false |}.

(** A later, non-forced request for the same service, for another
    incident. *)
Definition checkout_again : HealingRequest :=
  {| req_incident_id := "inc-2"; target_service := "checkout";
     target_namespace := "default"; severity := "high";
     root_cause := Some "Possible cause: error_rate_spike";
     recommended_actions := []; force := false |}.

(** Auto mode: a trigger, then its pipeline. *)
Definition healed : Sys :=
  run auto_mode env_up [Trigger checkout_request; Run 0] boot.

(** Semi-auto mode: a trigger and its plan. *)
Definition planned (env : Env) : Sys :=
  run semi_auto_mode env [Trigger checkout_request; Run 0] boot.

(** Semi-auto mode: the plan approved and executed. *)
Definition approved (env : Env) : Sys :=
  run semi_auto_mode env [Approve "uuid-0"; Run 0] (planned env).

(** Manual mode: a trigger, and then its analysis. *)
Definition analysis_pending : Sys :=
  run manual_mode env_up [Trigger checkout_request] boot.

Definition analysed : Sys :=
  run manual_mode env_up [Run 0] analysis_pending.

(** The result registered under an id, if any. *)
Definition result_of (s : Sys) (hid : string) : option HealingResult :=
  _healings (engine (state s)) !! hid.

Definition no_plan : HealingPlan :=
  {| plan_id := ""; plan_incident_id := ""; observation := ""; orientation := "";
     decision := ""; actions := []; estimated_duration_seconds := 0;
     confidence := 0; risk_assessment := "" |}.

Definition no_result : HealingResult :=
  {| healing_id := ""; incident_id := ""; status := PENDING; plan := None;
     actions_executed := 0; actions_successful := 0; started_at := 0;
     completed_at := None; result_message := None; error_message := None |}.

(** The result of the healing of [healed], which is COMPLETED. *)
Definition healed_result : HealingResult :=
  Eval vm_compute in default no_result (result_of healed "uuid-0").

(** The result and the plan of [planned env_down], awaiting approval. *)
Definition planned_result : HealingResult :=
  Eval vm_compute in default no_result (result_of (planned env_down) "uuid-0").

Definition planned_plan : HealingPlan :=
  Eval vm_compute in default no_plan (plan planned_result).

End Scenario.

(** Runs of the incident manager. *)
Module IncidentScenario.

Import PyStr IncidentManager.

(** Three readings of the clock are taken at one instant, the next three
    sixteen minutes later, and so on: a handler that creates an incident reads
    the clock three times. *)
Definition env_slow : Env :=
  {| uuid4 := fun k => "uuid-" +:+ of_nat k;
     utcnow := fun k => (Z.of_nat (k / 3) * minutes 16)%Z;
     repr_float := fun _ => "0.3" |}.

(** The same with five minutes between the instants. *)
Definition env_quick : Env :=
  {| uuid4 := fun k => "uuid-" +:+ of_nat k;
     utcnow := fun k => (Z.of_nat (k / 3) * minutes 5)%Z;
     repr_float := fun _ => "0.3" |}.

Definition spike (event_id : string) : AnomalyEventInput :=
  {| a_event_id := event_id; anomaly_type := "error_rate_spike";
     a_severity := "high"; a_target_service := "checkout";
     a_target_namespace := "default"; metric_name := "error_rate";
     current_value := 0.3; threshold_value := 0.05 |}.

(** Two signals for one target, under each clock. *)
Definition two_spikes (env : Env) : St :=
  ingest_all default_settings env [Anomaly (spike "e1"); Anomaly (spike "e2")] boot.

(** The store after the first of them, under the quick clock, and its
    incident. *)
Definition one_spike : St :=
  ingest_all default_settings env_quick [Anomaly (spike "e1")] boot.

Definition first_incident : Incident :=
  Eval vm_compute in
    match _incidents one_spike with
    | (_, i) :: _ => i
    | [] => {| incident_id := ""; title := ""; description := ""; status := RESOLVED;
               severity := LOW; target_service := ""; target_namespace := "";
               created_at := 0; updated_at := 0; resolved_at := None;
               event_ids := []; event_count := 0; root_cause := None;
               confidence := None; healing_plan_id := None; healing_actions := [];
               healing_result := None |}
    end.

End IncidentScenario.

(* ===================================================================== *)
(** ** Python lists *)
(* ===================================================================== *)

Module PyList.

(** The index a bound of a slice stands for in a list of length [len]: a
    negative bound counts from the end, and every bound is clamped to the
    list. *)
Definition clamp_index (len i : Z) : Z :=
  if (i <? 0)%Z then Z.max 0 (i + len) else Z.min i len.

(** [l[start:stop]] *)
Definition slice {A} (start stop : Z) (l : list A) : list A :=
  let len := Z.of_nat (length l) in
  let s := clamp_index len start in
  let e := clamp_index len stop in
  take (Z.to_nat (e - s)) (drop (Z.to_nat s) l).

(** [l.sort(key=key, reverse=True)].  The sort of Python is stable, also
    when reversed: elements of equal key keep their order.  An element is
    inserted before the first element whose key is not larger than its
    own. *)
Fixpoint insert_desc {A} (key : A -> Z) (x : A) (l : list A) : list A :=
  match l with
  | [] => [x]
  | y :: l' =>
      if (key x <? key y)%Z then y :: insert_desc key x l' else x :: y :: l'
  end.

Definition sort_desc {A} (key : A -> Z) (l : list A) : list A :=
  foldr (insert_desc key) [] l.

End PyList.

(* ===================================================================== *)
(** ** services/incident-manager: queries and management *)
(* ===================================================================== *)

(** The rest of core/incident_store.py: deletion, listing and counting. *)
Module IncidentStore.

Import PyStr IncidentManager.

#[global] Instance IncidentStatus_eq_dec : EqDecision IncidentStatus.
Proof. solve_decision. Defined.

#[global] Instance IncidentSeverity_eq_dec : EqDecision IncidentSeverity.
Proof. solve_decision. Defined.

(** [status.value] and [severity.value] *)
Definition status_value (s : IncidentStatus) : string :=
  match s with
  | NEW => "new" | ANALYZING => "analyzing" | HEALING => "healing"
  | AWAITING_APPROVAL => "awaiting_approval" | RESOLVED => "resolved"
  | FAILED => "failed"
  end.

Definition severity_value (s : IncidentSeverity) : string :=
  match s with
  | CRITICAL => "critical" | HIGH => "high" | MEDIUM => "medium" | LOW => "low"
  end.

(** [timedelta(hours=h)] in microseconds. *)
Definition hours (h : Z) : Z := (h * 3600000000)%Z.

(** [del d[k]] *)
Fixpoint dict_del (k : string) (d : IncidentDict) : IncidentDict :=
  match d with
  | [] => []
  | (k', v) :: d' =>
      if String.eqb k' k then dict_del k d' else (k', v) :: dict_del k d'
  end.

(** [list(self._incidents.values())] *)
Definition values (st : St) : list Incident := (_incidents st).*2.

Definition delete_incident (iid : string) (st : St) : St * bool :=
  match dict_get iid (_incidents st) with
  | Some _ => (with_incidents (dict_del iid (_incidents st)) st, true)
  | None => (st, false)
  end.

(** A filter that was not given is [None].  A member of either enum is
    truthy (its value is a non-empty string), so that a given status or
    severity always filters; the empty string is falsy, so that
    [service=""] does not. *)
Definition list_incidents (status : option IncidentStatus)
    (severity : option IncidentSeverity) (service : option string)
    (page page_size : Z) (st : St) : list Incident :=
  let incidents := values st in
  let incidents :=
    match status with
    | Some s => List.filter (fun i => bool_decide (IncidentManager.status i = s)) incidents
    | None => incidents
    end in
  let incidents :=
    match severity with
    | Some s => List.filter (fun i => bool_decide (IncidentManager.severity i = s)) incidents
    | None => incidents
    end in
  let incidents :=
    match service with
    | Some s => if truthy s
                then List.filter (fun i => String.eqb (target_service i) s) incidents
                else incidents
    | None => incidents
    end in
  let incidents := PyList.sort_desc created_at incidents in
  let start := ((page - 1) * page_size)%Z in
  let stop := (start + page_size)%Z in
  PyList.slice start stop incidents.

Definition count_incidents (status : option IncidentStatus)
    (severity : option IncidentSeverity) (service : option string)
    (st : St) : nat :=
  let incidents := values st in
  let incidents :=
    match status with
    | Some s => List.filter (fun i => bool_decide (IncidentManager.status i = s)) incidents
    | None => incidents
    end in
  let incidents :=
    match severity with
    | Some s => List.filter (fun i => bool_decide (IncidentManager.severity i = s)) incidents
    | None => incidents
    end in
  let incidents :=
    match service with
    | Some s => if truthy s
                then List.filter (fun i => String.eqb (target_service i) s) incidents
                else incidents
    | None => incidents
    end in
  length incidents.

Definition count_active (st : St) : nat :=
  sum_list_with (fun i => if is_open (IncidentManager.status i) then 1 else 0)%nat
                (values st).

(** [counts[k] = counts.get(k, 0) + 1] *)
Definition bump (k : string) (counts : gmap string nat) : gmap string nat :=
  <[k := (default 0 (counts !! k) + 1)%nat]> counts.

Definition count_by_status (st : St) : gmap string nat :=
  foldl (fun counts incident => bump (status_value (IncidentManager.status incident)) counts)
        ∅ (values st).

Definition count_by_severity (st : St) : gmap string nat :=
  foldl (fun counts incident =>
           bump (severity_value (IncidentManager.severity incident)) counts)
        ∅ (values st).

Section Clock.

Variable env : Env.

(** [count_recent(hours)] reads the clock once. *)
Definition count_recent (h : Z) (st : St) : St * nat :=
  let '(st, t) := now env st in
  let cutoff := (t - hours h)%Z in
  (st, sum_list_with (fun i => if (cutoff <=? created_at i)%Z then 1 else 0)%nat
         (values st)).

End Clock.

End IncidentStore.

(** The rest of api/routes.py: the management endpoints. *)
Module IncidentRoutes.

Import PyStr IncidentManager.

(** What a handler answers: its value, or the [HTTPException] it
    raises. *)
Inductive Reply (A : Type) :=
  | Ok (a : A)
  | HTTPError (status_code : Z) (detail : string).

Arguments Ok {A} a.
Arguments HTTPError {A} status_code detail.

Record IncidentListResponse := {
  incidents : list Incident;
  total : nat;
  page : Z;
  page_size : Z
  }.

(** The body [{"status": ..., "incident_id": ...}]. *)
Record Ack := {
  ack_status : string;
  ack_incident_id : string
  }.

(** What the POST of [_trigger_healing] to the agent yields: a response
    with its status code, its text and the outcome of [response.json()] (the
    message of the exception it raises, or the body), or an exception of the
    HTTP client. *)
Inductive AgentResponse :=
  | Responded (status_code : Z) (text : string) (json : string + string)
  | Unreachable (msg : string).

(** The dictionary [_trigger_healing] returns. *)
Record TriggerResult := {
  result_triggered : bool;
  result_response : option string;
  result_error : option string
  }.

Record Stats := {
  total_incidents : nat;
  active_incidents : nat;
  by_status : gmap string nat;
  by_severity : gmap string nat;
  last_24h : nat
  }.

Section Handlers.

Variable env : Env.

(** [agent k] is the outcome of the [k]-th POST to the agent. *)
Variable agent : nat -> AgentResponse.

(** [GET /incidents].  The query parameters are validated before the
    handler runs: [page >= 1] and [1 <= page_size <= 100]. *)
Definition list_incidents (status : option IncidentStatus)
    (severity : option IncidentSeverity) (service : option string)
    (page page_size : Z) (st : St) : IncidentListResponse :=
  let incidents :=
    IncidentStore.list_incidents status severity service page page_size st in
  let total := IncidentStore.count_incidents status severity service st in
  {| incidents := incidents; total := total; page := page; page_size := page_size |}.

(** [GET /incidents/{incident_id}] *)
Definition get_incident (iid : string) (st : St) : Reply Incident :=
  match IncidentManager.get_incident iid st with
  | None => HTTPError 404 "Incident not found"
  | Some incident => Ok incident
  end.

(** [PATCH /incidents/{incident_id}] *)
Definition update_incident (iid : string) (status : option IncidentStatus)
    (severity : option IncidentSeverity) (st : St) : St * Reply Incident :=
  let updates : list Update := [] in
  let '(st, updates) :=
    match status with
    | Some s =>
        let updates := updates ++ [UpdStatus s] in
        if bool_decide (s = RESOLVED)
        then let '(st, t) := now env st in (st, updates ++ [UpdResolvedAt t])
        else (st, updates)
    | None => (st, updates)
    end in
  let updates :=
    match severity with
    | Some s => updates ++ [UpdSeverity s]
    | None => updates
    end in
  let '(st, incident) := IncidentManager.update_incident env iid updates st in
  match incident with
  | None => (st, HTTPError 404 "Incident not found")
  | Some incident => (st, Ok incident)
  end.

(** [DELETE /incidents/{incident_id}]: the dictionary of updates, with
    its reading of the clock, is built before the store is asked. *)
Definition close_incident (iid : string) (st : St) : St * Reply Ack :=
  let '(st, t) := now env st in
  let '(st, incident) :=
    IncidentManager.update_incident env iid [UpdStatus RESOLVED; UpdResolvedAt t] st in
  match incident with
  | None => (st, HTTPError 404 "Incident not found")
  | Some _ => (st, Ok {| ack_status := "closed"; ack_incident_id := iid |})
  end.

(** [_trigger_healing(incident)] with the dictionary it returns: the
    POST is the one [IncidentManager._trigger_healing] records. *)
Definition _trigger_healing (incident : Incident) (st : St) : St * TriggerResult :=
  let outcome := agent (length (triggered st)) in
  let st := IncidentManager._trigger_healing incident st in
  match outcome with
  | Responded status_code text json =>
      if bool_decide (status_code = 200 ∨ status_code = 201 ∨ status_code = 202)%Z
      then
        match json with
        | inr body =>
            (st, {| result_triggered := true; result_response := Some body;
                    result_error := None |})
        | inl msg =>
            (st, {| result_triggered := false; result_response := None;
                    result_error := Some msg |})
        end
      else
        (st, {| result_triggered := false; result_response := None;
                result_error := Some text |})
  | Unreachable msg =>
      (st, {| result_triggered := false; result_response := None;
              result_error := Some msg |})
  end.

(** [POST /incidents/{incident_id}/heal] *)
Definition trigger_incident_healing (iid : string) (st : St)
    : St * Reply (Ack * TriggerResult) :=
  match IncidentManager.get_incident iid st with
  | None => (st, HTTPError 404 "Incident not found")
  | Some incident =>
      if bool_decide (IncidentManager.status incident = RESOLVED)
      then (st, HTTPError 400 "Incident already resolved")
      else
        let '(st, result) := _trigger_healing incident st in
        (st, Ok ({| ack_status := "healing_triggered"; ack_incident_id := iid |},
                 result))
  end.

(** [GET /stats] *)
Definition get_incident_stats (st : St) : St * Stats :=
  let total_incidents := IncidentStore.count_incidents None None None st in
  let active_incidents := IncidentStore.count_active st in
  let by_status := IncidentStore.count_by_status st in
  let by_severity := IncidentStore.count_by_severity st in
  let '(st, last_24h) := IncidentStore.count_recent env 24 st in
  (st, {| total_incidents := total_incidents; active_incidents := active_incidents;
          by_status := by_status; by_severity := by_severity;
          last_24h := last_24h |}).

End Handlers.

End IncidentRoutes.

(** The vocabulary of the statements about the queries. *)
Module IncidentQueryTerms.

Import PyStr IncidentManager.

(** The incident passes each filter that was given; a service filter
    that is the empty string counts as not given. *)
Definition passes (status : option IncidentStatus)
    (severity : option IncidentSeverity) (service : option string)
    (i : Incident) : bool :=
  match status with
  | Some s => bool_decide (IncidentManager.status i = s)
  | None => true
  end
  && match severity with
     | Some s => bool_decide (IncidentManager.severity i = s)
     | None => true
     end
  && match service with
     | Some s => negb (truthy s) || String.eqb (target_service i) s
     | None => true
     end.

(** Newest first. *)
Definition newest_first (l : list Incident) : Prop :=
  StronglySorted (fun a b => (created_at b ≤ created_at a)%Z) l.

(** The complete listing: the first page, of the size [count_incidents]
    reports. *)
Definition listing (status : option IncidentStatus)
    (severity : option IncidentSeverity) (service : option string)
    (st : St) : list Incident :=
  IncidentStore.list_incidents status severity service 1
    (Z.of_nat (IncidentStore.count_incidents status severity service st)) st.

(** The sum of the values of a table of counts. *)
Definition sum_counts (counts : gmap string nat) : nat :=
  map_fold (fun _ n acc => (n + acc)%nat) 0%nat counts.

End IncidentQueryTerms.

(* ===================================================================== *)
(** ** services/autoheal-agent: queries and the action executor *)
(* ===================================================================== *)

(** The rest of core/ooda_engine.py and of api/routes.py: the history and
    the read-only endpoints. *)
Module AgentQueries.

Import PyStr AutoHealAgent.

(** [get_history(service, limit)].  [vals] is [self._healings.values()]:
    the registered results in the order of their registration, which the
    [gmap] of the engine does not record; it is an enumeration of
    [Engine.values].  The block [if service: pass] does nothing. *)
Definition get_history (vals : list HealingResult) (e : OODAEngine)
    (service : option string) (limit : Z) : list HealingResult :=
  let history := _history e in
  let history :=
    history ++ List.filter (fun h => bool_decide (status h = COMPLETED)
                                     || bool_decide (status h = FAILED)) vals in
  let history :=
    match service with
    | Some s => if truthy s then history else history
    | None => history
    end in
  let history := PyList.sort_desc started_at history in
  PyList.slice 0 limit history.

(** [GET /heal/{healing_id}] *)
Definition get_healing_status (hid : string) : M HealingResult :=
  e ← get_engine;
  match Engine.get_healing e hid with
  | None => raise (HTTPException 404 "Healing not found")
  | Some result => mret result
  end.

(** [GET /heal/{healing_id}/state] *)
Definition get_ooda_state (hid : string) : M OODAState :=
  e ← get_engine;
  match Engine.get_ooda_state e hid with
  | None => raise (HTTPException 404 "OODA state not found")
  | Some state => mret state
  end.

(** [GET /history]: the healings and their count. *)
Definition get_healing_history (vals : list HealingResult)
    (service : option string) (limit : Z) : M (list HealingResult * nat) :=
  e ← get_engine;
  let history := get_history vals e service limit in
  mret (history, length history).

End AgentQueries.

(** core/action_executor.py *)
Module ActionExecutor.

Import PyStr AutoHealAgent.

(** What [client.post] yields: a response with its status code, a
    timeout of the HTTP client, or another exception. *)
Inductive Outcome :=
  | Answered (status_code : Z)
  | TimedOut
  | Failed (msg : string).

(** An entry of the [details] of a batch. *)
Record Detail := {
  detail_action_id : string;
  detail_action_type : ActionType;
  detail_success : bool;
  detail_message : string
  }.

Record BatchResults := {
  total : nat;
  successful : nat;
  failed : nat;
  details : list Detail
  }.

(** [execute(action)], given the outcome of its POST. *)
Definition execute (outcome : Outcome) (action : HealingAction) : bool * string :=
  match outcome with
  | Answered status_code =>
      if bool_decide (status_code = 200 ∨ status_code = 201 ∨ status_code = 202)%Z
      then (true, "Action completed successfully")
      else (false, "Executor returned status " +:+ of_int status_code)
  | TimedOut => (false, "Action execution timed out")
  | Failed msg => (false, msg)
  end.

(** The loop of [execute_batch]: [post k] is the outcome of the [k]-th
    POST. *)
Fixpoint execute_batch_loop (post : nat -> Outcome) (k : nat)
    (actions : list HealingAction) (results : BatchResults) : BatchResults :=
  match actions with
  | [] => results
  | action :: actions' =>
      let '(success, message) := execute (post k) action in
      let results :=
        {| total := total results; successful := successful results;
           failed := failed results;
           details := details results
                      ++ [{| detail_action_id := action_id action;
                             detail_action_type := action_type action;
                             detail_success := success;
                             detail_message := message |}] |} in
      let results :=
        if success
        then {| total := total results; successful := S (successful results);
                failed := failed results; details := details results |}
        else {| total := total results; successful := successful results;
                failed := S (failed results); details := details results |} in
      execute_batch_loop post (S k) actions' results
  end.

Definition execute_batch (post : nat -> Outcome) (actions : list HealingAction)
    : BatchResults :=
  let results :=
    {| total := length actions; successful := 0; failed := 0; details := [] |} in
  execute_batch_loop post 0 actions results.

(** [{t for t in ActionType}] *)
Definition supported : list ActionType :=
  [RESTART_POD; SCALE_UP; SCALE_DOWN; ROLLBACK; INCREASE_RESOURCES;
   CIRCUIT_BREAKER; FAILOVER; RATE_LIMIT; CUSTOM].

Section Validate.

(** [str(action_type)], which the schema module fixes. *)
Variable str_action_type : ActionType -> string.

Definition validate_action (action : HealingAction) : bool * string :=
  if negb (bool_decide (action_type action ∈ supported))
  then (false, "Unsupported action type: " +:+ str_action_type (action_type action))
  else if negb (truthy (target action))
  then (false, "Action target not specified")
  else if bool_decide (action_type action = SCALE_UP)
          && negb (existsb (String.eqb "increment") (parameters action).*1)
  then (false, "SCALE_UP requires 'increment' parameter")
  else (true, "Action is valid").

End Validate.

End ActionExecutor.

(** More runs of the agent. *)
Module AgentScenario.

Import PyStr AutoHealAgent Scenario.

Definition no_state : OODAState :=
  {| st_healing_id := ""; phase := ""; st_observation := None;
     st_orientation := None; st_decision := None |}.

(** Auto mode: a healing triggered, its pipeline not run yet. *)
Definition pending_auto : Sys :=
  run auto_mode env_up [Trigger checkout_request] boot.

Definition pending_result : HealingResult :=
  Eval vm_compute in default no_result (result_of pending_auto "uuid-0").

Definition pending_state : OODAState :=
  Eval vm_compute in
    default no_state (_states (engine (state pending_auto)) !! "uuid-0").

(** Semi-auto mode: a healing triggered, its planning not run yet. *)
Definition pending_semi : Sys :=
  run semi_auto_mode env_up [Trigger checkout_request] boot.

Definition pending_semi_result : HealingResult :=
  Eval vm_compute in default no_result (result_of pending_semi "uuid-0").

Definition pending_semi_state : OODAState :=
  Eval vm_compute in
    default no_state (_states (engine (state pending_semi)) !! "uuid-0").

End AgentScenario.

(** core/event_correlator.py of the incident manager: the history of
    events and the search in it. *)
Module EventCorrelator.

Import PyStr.

(** An event dictionary: the keys the correlator reads and the rest of
    the dictionary.  A key that is absent, or whose value is not a string,
    is [None]: it compares unequal to every service name.  [_added_at] is
    the key [add_event] writes. *)
Record Event := {
  target_service : option string;
  service_name : option string;
  _added_at : Z;
  payload : list (string * string)
  }.

(** The correlator object, and how many readings of the clock it took. *)
Record Correlator := {
  correlation_window : Z;
  _event_history : list Event;
  n_clock : nat
  }.

(** [EventCorrelator(correlation_window_minutes)] *)
Definition init (correlation_window_minutes : Z) : Correlator :=
  {| correlation_window := IncidentManager.minutes correlation_window_minutes;
     _event_history := [];
     n_clock := 0 |}.

(** [event["_added_at"] = t] *)
Definition with_added_at (t : Z) (event : Event) : Event :=
  {| target_service := target_service event; service_name := service_name event;
     _added_at := t; payload := payload event |}.

(** [e.get(key) == service] *)
Definition is_service (value : option string) (service : string) : bool :=
  match value with
  | Some s => String.eqb s service
  | None => false
  end.

Section Clock.

(** The successive readings of [datetime.utcnow()]. *)
Variable utcnow : nat -> Z.

(** [add_event(event)], each call being given a dictionary of its
    own. *)
Definition add_event (event : Event) (c : Correlator) : Correlator :=
  let event := with_added_at (utcnow (n_clock c)) event in
  let history := _event_history c ++ [event] in
  let cutoff := (utcnow (S (n_clock c)) - correlation_window c * 2)%Z in
  {| correlation_window := correlation_window c;
     _event_history := List.filter (fun e => (cutoff <=? _added_at e)%Z) history;
     n_clock := S (S (n_clock c)) |}.

(** [find_related_events(service, namespace, since)]: in the condition
    of the comprehension [and] binds tighter than [or]. *)
Definition find_related_events (service namespace : string) (since : option Z)
    (c : Correlator) : Correlator * list Event :=
  let '(c, since) :=
    match since with
    | None =>
        ({| correlation_window := correlation_window c;
            _event_history := _event_history c;
            n_clock := S (n_clock c) |},
         (utcnow (n_clock c) - correlation_window c)%Z)
    | Some since => (c, since)
    end in
  (c, List.filter (fun e => is_service (target_service e) service
                            || is_service (service_name e) service
                               && (since <=? _added_at e)%Z)
        (_event_history c)).

End Clock.

End EventCorrelator.

(* ===================================================================== *)
(** ** Strings *)
(* ===================================================================== *)

Module PyStrFacts.

Import PyStr.

Lemma of_nat_inj : Inj (=) (=) of_nat.
Proof.
  intros n m H. unfold of_nat in H.
  assert (Hu : Nat.to_uint n = Nat.to_uint m).
  { apply (f_equal NilEmpty.uint_of_string) in H.
    rewrite !NilEmpty.usu in H. by injection H. }
  rewrite <- (Unsigned.of_to n), <- (Unsigned.of_to m). by rewrite Hu.
Qed.

Lemma append_inj_r (p s1 s2 : string) : p +:+ s1 = p +:+ s2 → s1 = s2.
Proof. induction p as [|c p IH]; cbn; [done|]. intros [= H]. by apply IH. Qed.

Lemma scenario_uuid4_inj : Inj (=) (=) (AutoHealAgent.uuid4 Scenario.env_up).
Proof. intros n m H. cbn in H. by apply of_nat_inj, (append_inj_r "uuid-"). Qed.

End PyStrFacts.

(* ===================================================================== *)
(** ** Decision Maker: action selection and confidence *)
(* ===================================================================== *)

Module DecisionMakerFacts.

Import PyStr AutoHealAgent AutoHealAgent.DecisionMaker Described.

Lemma patterns_loop_find table obs selected :
  _select_actions_patterns table obs selected
  = selected ++
      match List.find (fun e : string * list (ActionType * string) =>
                         contains obs e.1 || contains obs (replace_char "_" " " e.1))
                      table with
      | Some e => take 2 e.2
      | None => []
      end.
Proof.
  induction table as [|[pattern acts] table IH]; cbn [_select_actions_patterns List.find].
  - by rewrite app_nil_r.
  - cbn [fst snd]. rewrite (orb_comm (contains obs pattern)).
    destruct (contains obs (replace_char "_" " " pattern) || contains obs pattern);
      [done | apply IH].
Qed.

Lemma recommended_loop_omap recs selected :
  _select_actions_recommended recs selected = selected ++ omap hint_candidate recs.
Proof.
  revert selected.
  induction recs as [|rec recs IH]; intros selected;
    cbn [_select_actions_recommended omap list_omap].
  - by rewrite app_nil_r.
  - rewrite IH. unfold hint_candidate.
    destruct (contains (lower rec) "restart"); [by rewrite <- app_assoc|].
    destruct (contains (lower rec) "scale"); [by rewrite <- app_assoc|].
    destruct (contains (lower rec) "rollback"); [by rewrite <- app_assoc|].
    destruct (contains (lower rec) "circuit"); [by rewrite <- app_assoc|].
    done.
Qed.

(** A filter on the action type commutes with the deduplication. *)
Lemma first_by_type_filter (Q : ActionType * string -> Prop)
    `{!∀ p, Decision (Q p)} (l : list (ActionType * string)) :
  (∀ p q, p.1 = q.1 → Q p ↔ Q q) →
  first_by_type (filter Q l) = filter Q (first_by_type l).
Proof.
  intros HQ. induction l as [|p l IH]; [done|].
  cbn [first_by_type foldr]. fold (first_by_type l).
  rewrite !filter_cons. destruct (decide (Q p)) as [Hp|Hp].
  - cbn [first_by_type foldr]. fold (first_by_type (filter Q l)).
    rewrite IH. f_equal.
    rewrite !list_filter_filter. apply list_filter_iff. intros q. tauto.
  - rewrite IH. rewrite list_filter_filter. apply list_filter_iff.
    intros q. split; [|tauto]. intros Hq. split; [done|].
    intros Heq. apply Hp. by apply (HQ q p).
Qed.

Lemma unique_loop_first_by_type selected seen unique :
  _select_actions_unique selected seen unique
  = unique ++ first_by_type (filter (fun p => p.1 ∉ seen) selected).
Proof.
  revert seen unique.
  induction selected as [|[ty reasoning] selected IH]; intros seen unique;
    cbn [_select_actions_unique].
  - by rewrite filter_nil, app_nil_r.
  - rewrite filter_cons. cbn [fst]. case_bool_decide as Hseen.
    + rewrite decide_False by tauto. apply IH.
    + rewrite decide_True by done. rewrite IH, <- app_assoc. f_equal.
      cbn [first_by_type foldr app]. f_equal.
      fold (first_by_type (filter (fun p => p.1 ∉ seen) selected)).
      cbn [fst].
      transitivity (first_by_type (filter (fun p => p.1 ≠ ty)
                                     (filter (fun p => p.1 ∉ seen) selected))).
      * f_equal. rewrite list_filter_filter. apply list_filter_iff.
        intros q. rewrite not_elem_of_cons. tauto.
      * apply first_by_type_filter. intros p q Hpq. by rewrite Hpq.
Qed.

Lemma filter_all {A} (P : A -> Prop) `{!∀ x, Decision (P x)} (l : list A) :
  (∀ x, P x) → filter P l = l.
Proof.
  intros HP. induction l as [|x l IH]; [done|].
  rewrite filter_cons_True by done. by rewrite IH.
Qed.

Lemma select_actions_selection observation hints :
  _select_actions observation hints = selection observation hints.
Proof.
  unfold _select_actions, selection, table_candidates, first_matching_entry,
    hint_candidates, key_occurs.
  rewrite patterns_loop_find, recommended_loop_omap, unique_loop_first_by_type.
  cbn [app]. f_equal. f_equal.
  rewrite filter_all; [done|]. intros q. apply not_elem_of_nil.
Qed.

Lemma first_by_type_elem (l : list (ActionType * string)) p :
  p ∈ first_by_type l → p ∈ l.
Proof.
  revert p. induction l as [|q l IH]; intros p; cbn [first_by_type foldr]; [done|].
  fold (first_by_type l). rewrite !elem_of_cons, list_elem_of_filter.
  intros [->|[_ H]]; [by left | right; by apply IH].
Qed.

Lemma first_by_type_NoDup (l : list (ActionType * string)) :
  NoDup (first_by_type l).*1.
Proof.
  induction l as [|p l IH]; cbn [first_by_type foldr]; [constructor|].
  fold (first_by_type l). rewrite fmap_cons. constructor.
  - rewrite list_elem_of_fmap. intros [q [Hq Hin]].
    apply list_elem_of_filter in Hin as [Hne _]. congruence.
  - revert IH. generalize (first_by_type l). intros l' Hl'.
    induction l' as [|q l' IH']; [rewrite filter_nil; constructor|].
    rewrite fmap_cons in Hl'. apply NoDup_cons in Hl' as [Hq Hl'].
    rewrite filter_cons. destruct (decide (q.1 ≠ p.1)); [|by apply IH'].
    rewrite fmap_cons. constructor; [|by apply IH'].
    rewrite list_elem_of_fmap. intros [r [Hr Hin]].
    apply list_elem_of_filter in Hin as [_ Hin].
    apply Hq. rewrite list_elem_of_fmap. by exists r.
Qed.

Lemma action_type_imap (f : nat -> ActionType * string -> HealingAction)
    (l : list (ActionType * string)) :
  (∀ k p, action_type (f k p) = p.1) →
  action_type <$> imap f l = l.*1.
Proof.
  revert f. induction l as [|p l IH]; intros f Hf; [done|].
  cbn [imap fmap list_fmap]. rewrite Hf. f_equal. apply IH.
  intros k q. apply Hf.
Qed.

(** C5.  Action selection: the actions [_select_actions] returns are the
    candidates of the first matching table entry (at most two) followed by
    the candidates of the first two hints, deduplicated by action type with
    the first occurrence kept and cut to three; they are at most three, of
    pairwise different types; and the plan of [generate_plan] carries one
    action per selected pair, in order, or exactly the default RESTART_POD
    action when nothing was selected. *)
Theorem select_actions_first_match_dedup_cap
    (uuids : nat -> string) (incident service namespace observation orientation : string)
    (hints : list string) :
  let selected := _select_actions observation hints in
  let p := generate_plan uuids incident service namespace observation orientation hints in
  selected
    = take 3 (first_by_type (table_candidates observation ++ hint_candidates hints))
  ∧ (length selected ≤ 3)%nat
  ∧ NoDup selected.*1
  ∧ match selected with
    | [] => actions p = [default_action (uuids 1) service namespace]
    | _ :: _ => action_type <$> actions p = selected.*1
    end.
Proof.
  intros selected p. subst selected p.
  rewrite select_actions_selection. unfold selection.
  set (cands := table_candidates observation ++ hint_candidates hints).
  split; [done|]. split; [|split].
  - rewrite length_take. lia.
  - rewrite fmap_take. eapply sublist_NoDup; [|apply sublist_take].
    apply first_by_type_NoDup.
  - unfold generate_plan. cbn [actions].
    rewrite select_actions_selection. unfold selection. fold cands.
    destruct (take 3 (first_by_type cands)) as [|q sel] eqn:Hsel; [done|].
    rewrite <- (action_type_imap
                  (fun k (p : ActionType * string) =>
                     {| action_id := uuids (S k);
                        action_type := p.1;
                        target := namespace +:+ "/" +:+ service;
                        parameters := _get_action_parameters p.1 service namespace;
                        reasoning := p.2;
                        risk_level := _assess_action_risk p.1;
                        reversible := negb (bool_decide (p.1 = CUSTOM)) |})
                  (q :: sel)) by done.
    done.
Qed.

(** The observation of the error-rate scenario selects the first table
    entry; two keys that both occur do not merge. *)
Example select_actions_error_rate_spike :
  _select_actions "Incident i affecting checkout | Suspected root cause: Possible cause: error_rate_spike" []
  = [(RESTART_POD, "Restart problematic pods to clear state");
     (SCALE_UP, "Scale up to handle load if needed")].
Proof. reflexivity. Qed.

Example select_actions_first_entry_only :
  _select_actions "database timeout" []
  = [(SCALE_UP, "Add capacity to reduce latency");
     (RATE_LIMIT, "Apply rate limiting to prevent overload")].
Proof. reflexivity. Qed.

Example select_actions_third_hint_unread :
  _select_actions "nothing known" ["wait"; "Scale out"; "rollback now"]
  = [(SCALE_UP, "Scale out")].
Proof. reflexivity. Qed.

Example select_actions_cut_to_three :
  _select_actions "cpu overload" ["restart it"; "open the circuit"]
  = [(SCALE_UP, "Add more replicas to distribute load");
     (INCREASE_RESOURCES, "Increase CPU limits if scaling not possible");
     (RESTART_POD, "restart it")].
Proof. reflexivity. Qed.

Example generate_plan_default_action :
  actions (generate_plan (fun k => of_nat k) "inc" "svc" "ns" "nothing known" "" ["wait"])
  = [ {| action_id := "1"; action_type := RESTART_POD; target := "ns/svc";
         parameters := [("replicas", PInt 1); ("strategy", PStr "rolling")];
         reasoning := "Default recovery action - restart pods with rolling update";
         risk_level := "low"; reversible := true |} ].
Proof. reflexivity. Qed.

(** The confidence of a plan is the described formula read on the
    observation: the orientation does not enter it. *)
Lemma generate_plan_confidence uuids incident service namespace observation
    orientation hints :
  let p := generate_plan uuids incident service namespace observation orientation hints in
  confidence p = confidence_of_orientation observation (actions p).
Proof. reflexivity. Qed.

Lemma generate_plan_confidence_any_orientation uuids incident service namespace
    observation orientation orientation' hints :
  confidence (generate_plan uuids incident service namespace observation orientation hints)
  = confidence (generate_plan uuids incident service namespace observation orientation' hints).
Proof. reflexivity. Qed.

(** C3.  The confidence of a plan is computed from the observation text,
    not from the orientation text.  For a request whose root cause is the
    known cause "cpu overload", the orientation mentions a known pattern and
    no unknown pattern and no selected action is high-risk, so the described
    confidence is 0.7 + 0.15; the plan of [generate_plan] has confidence
    0.7, because the observation does not contain the orientation's
    phrase. *)
Theorem generate_plan_confidence_misses_orientation (uuids : nat -> string) :
  let observation :=
    "Incident inc-1 affecting checkout | Severity: high | Suspected root cause: cpu overload" in
  let orientation := analyze_incident (Some "cpu overload") "high" [] in
  let p := generate_plan uuids "inc-1" "checkout" "default" observation orientation [] in
  contains (lower orientation) "known pattern" = true
  ∧ contains (lower orientation) "unknown pattern" = false
  ∧ existsb (fun a => String.eqb (risk_level a) "high") (actions p) = false
  ∧ confidence_of_orientation orientation (actions p) = (0.7 + 0.15)%float
  ∧ confidence p = 0.7%float
  ∧ confidence p ≠ confidence_of_orientation orientation (actions p).
Proof.
  cbv zeta. repeat split; try reflexivity.
  intros Heq.
  assert (Hb : PrimFloat.eqb 0.7 (0.7 + 0.15) = true).
  { change (0.7 + 0.15)%float with
      (confidence_of_orientation
         (analyze_incident (Some "cpu overload") "high" [])
         (actions (generate_plan uuids "inc-1" "checkout" "default"
            "Incident inc-1 affecting checkout | Severity: high | Suspected root cause: cpu overload"
            (analyze_incident (Some "cpu overload") "high" []) []))).
    rewrite <- Heq. reflexivity. }
  vm_compute in Hb. discriminate.
Qed.

End DecisionMakerFacts.

(* ===================================================================== *)
(** ** OODA engine: admission, execution, cancellation, statistics *)
(* ===================================================================== *)

Module EngineFacts.

Import PyStr AutoHealAgent Described Scenario.

(** *** Reading the registry *)

Lemma is_healing_already_healing e iid :
  Engine.is_healing e iid = true ↔ already_healing e iid.
Proof.
  unfold Engine.is_healing, already_healing, Engine.values.
  rewrite existsb_exists. split.
  - intros [h [Hin Hh]]. apply list_elem_of_In, list_elem_of_fmap in Hin.
    destruct Hin as [[hid h'] [-> Hin]]. apply elem_of_map_to_list in Hin.
    apply andb_true_iff in Hh as [Hi Hs]. apply String.eqb_eq in Hi.
    by exists hid, h'.
  - intros (hid & h & Hl & Hi & Hs). exists h. split.
    + apply list_elem_of_In, list_elem_of_fmap. exists (hid, h).
      split; [done|]. by apply elem_of_map_to_list.
    + apply andb_true_iff. split; [by apply String.eqb_eq | done].
Qed.

Lemma get_active_count_active_healings e :
  Engine.get_active_count e = active_healings e.
Proof.
  unfold Engine.get_active_count, active_healings, Engine.values.
  induction (_healings e) as [|hid h m Hfresh IH] using map_ind.
  - by rewrite map_to_list_empty, map_filter_empty, map_size_empty.
  - rewrite map_to_list_insert by done. cbn [fmap list_fmap snd].
    cbn [sum_list_with]. fold (@fmap list _ _ _ (@snd string HealingResult) (map_to_list m)).
    rewrite IH. destruct (non_terminal (status h)) eqn:Hs.
    + rewrite map_filter_insert_True by done.
      rewrite map_size_insert_None; [done|].
      by rewrite map_lookup_filter_None_2; [|left].
    + rewrite map_filter_insert_not' ; [done| cbn; congruence |].
      intros y. by rewrite Hfresh.
Qed.

Lemma not_is_healing e iid :
  Engine.is_healing e iid = false ↔ ¬ already_healing e iid.
Proof.
  rewrite <- is_healing_already_healing. destruct (Engine.is_healing e iid); naive_solver.
Qed.

Lemma cooling_down_lookup e service t :
  cooling_down e service t
  ↔ match _cooldowns e !! service with
    | Some cooldown_until => (t < cooldown_until)%Z
    | None => False
    end.
Proof.
  unfold cooling_down. destruct (_cooldowns e !! service) as [cu|].
  - split; [intros (cu' & [= <-] & Hlt); done | intros Hlt; by exists cu].
  - split; [intros (cu' & [=] & _) | done].
Qed.

(** Unfolding of the monad's operations. *)
Ltac unfold_M :=
  unfold mbind, mret, M_bind, M_ret, bind, ret, raise, try_except,
    get_engine, modify_engine, now, new_uuid, log_call, client_post, with_uuids in *.

(** Symbolic execution of a computation: the monad's operations and the
    projections of the state are computed, the phases of the engine are
    not. *)
Ltac run_M :=
  unfold mbind, mret, M_bind, M_ret;
  cbn beta iota zeta delta
    [bind ret raise try_except
     get_engine modify_engine now new_uuid log_call client_post
     Engine.set_result Engine.set_state Engine.set_cooldown
     engine n_uuid n_clock n_post calls
     _healings _states _cooldowns _history fst snd].

(** *** Admission *)

(** C6.  [trigger_healing] admits or rejects a request by three checks in
    a fixed order: it raises 409 when some registered healing of the same
    incident is not terminal; otherwise 429 when the number of non-terminal
    healings is at least [max_concurrent_healings]; otherwise 429 when the
    target service is in cooldown and [force] is false; a rejection leaves
    the engine as it was.  Otherwise it registers a new result, under a new
    healing id, for the incident. *)
Theorem trigger_healing_admission (settings : Settings) (env : Env) (st : St)
    (request_data : HealingRequest) :
  let e := engine st in
  let iid := req_incident_id request_data in
  let service := target_service request_data in
  let t := utcnow env (n_clock st) in
  let limit := max_concurrent_healings settings in
  match Routes.trigger_healing settings request_data env st with
  | (st', inl exc) =>
      engine st' = e
      ∧ ((already_healing e iid
          ∧ exc = HTTPException 409 ("Healing already in progress for incident " +:+ iid))
         ∨ (¬ already_healing e iid
            ∧ (limit ≤ Z.of_nat (active_healings e))%Z
            ∧ exc = HTTPException 429
                      ("Maximum concurrent healings (" +:+ of_int limit +:+ ") reached"))
         ∨ (¬ already_healing e iid
            ∧ (Z.of_nat (active_healings e) < limit)%Z
            ∧ cooling_down e service t ∧ force request_data = false
            ∧ exc = HTTPException 429
                      ("Service " +:+ service +:+ " is in cooldown period")))
  | (st', inr (result, task)) =>
      ¬ already_healing e iid
      ∧ (Z.of_nat (active_healings e) < limit)%Z
      ∧ (¬ cooling_down e service t ∨ force request_data = true)
      ∧ _healings (engine st') !! healing_id result = Some result
      ∧ incident_id result = iid
      ∧ healing_id result = uuid4 env (n_uuid st)
  end.
Proof.
  intros e iid service t limit. subst e iid service t limit.
  unfold Routes.trigger_healing, Engine.is_in_cooldown. unfold_M.
  destruct (Engine.is_healing (engine st) (req_incident_id request_data)) eqn:Hh.
  { split; [done|]. left. by apply is_healing_already_healing in Hh. }
  apply not_is_healing in Hh.
  rewrite get_active_count_active_healings.
  destruct (Z.leb_spec (max_concurrent_healings settings)
              (Z.of_nat (active_healings (engine st)))) as [Hc|Hc].
  { split; [done|]. right. left. done. }
  assert (Hcool :
    ∀ b, (b = true ↔ cooling_down (engine st) (target_service request_data)
                        (utcnow env (n_clock st))) →
         (if b && negb (force request_data) then
            cooling_down (engine st) (target_service request_data) (utcnow env (n_clock st))
            ∧ force request_data = false
          else ¬ cooling_down (engine st) (target_service request_data)
                   (utcnow env (n_clock st))
               ∨ force request_data = true)).
  { intros b Hb. destruct b, (force request_data); cbn; intuition congruence. }
  destruct (_cooldowns (engine st) !! target_service request_data)
    as [cooldown_until|] eqn:Hcd; cbn.
  - specialize (Hcool (utcnow env (n_clock st) <? cooldown_until)%Z).
    destruct ((utcnow env (n_clock st) <? cooldown_until)%Z && negb (force request_data)).
    + cbn. split; [done|]. right. right.
      destruct Hcool as [? ?]; [|done].
      by rewrite Z.ltb_lt, cooling_down_lookup, Hcd.
    + assert (Hadm : ¬ cooling_down (engine st) (target_service request_data)
                       (utcnow env (n_clock st)) ∨ force request_data = true).
      { apply Hcool. by rewrite Z.ltb_lt, cooling_down_lookup, Hcd. }
      destruct (healing_mode settings); cbn;
        (split; [done|]); (split; [done|]); (split; [done|]);
        rewrite lookup_alter_eq, lookup_insert_eq; done.
  - assert (Hno : ¬ cooling_down (engine st) (target_service request_data)
                     (utcnow env (n_clock st))).
    { rewrite cooling_down_lookup, Hcd. tauto. }
    destruct (healing_mode settings); cbn;
      (split; [done|]); (split; [done|]); (split; [by left|]);
      rewrite lookup_alter_eq, lookup_insert_eq; done.
Qed.

(** *** The Act phase *)

Lemma execute_action_run env st a :
  Engine._execute_action a env st
  = ({| engine := engine st; n_uuid := n_uuid st; n_clock := n_clock st;
        n_post := S (n_post st); calls := calls st ++ [CallExecute a] |},
     inr (dispatch_ok (post env (n_post st)))).
Proof.
  unfold Engine._execute_action. unfold_M. cbn.
  by destruct (post env (n_post st)).
Qed.

Lemma dispatch_outcomes_length env n acts :
  length (dispatch_outcomes env n acts) = length acts.
Proof. revert n. induction acts as [|a acts IH]; intros n; cbn; [done|]. by rewrite IH. Qed.

Lemma count_actions_fields oks r :
  let r' := count_actions oks r in
  healing_id r' = healing_id r ∧ incident_id r' = incident_id r
  ∧ status r' = status r ∧ plan r' = plan r
  ∧ actions_executed r' = (actions_executed r + length oks)%nat
  ∧ actions_successful r' = (actions_successful r + successes oks)%nat
  ∧ started_at r' = started_at r ∧ completed_at r' = completed_at r
  ∧ result_message r' = result_message r ∧ error_message r' = error_message r.
Proof.
  revert r. induction oks as [|ok oks IH]; intros r.
  - cbn. unfold successes. cbn. repeat split; lia.
  - cbn [count_actions foldl]. fold (count_actions oks (count_action ok r)).
    destruct (IH (count_action ok r)) as (H1 & H2 & H3 & H4 & H5 & H6 & H7 & H8 & H9 & H10).
    cbv zeta. rewrite H1, H2, H3, H4, H5, H6, H7, H8, H9, H10.
    unfold successes. rewrite filter_cons.
    destruct ok; [rewrite decide_True by done | rewrite decide_False by done];
      cbn; repeat split; lia.
Qed.

Lemma act_loop_cons env hid a acts st :
  Engine._act_loop hid (a :: acts) env st
  = Engine._act_loop hid acts env
      {| engine :=
           {| _healings :=
                alter (count_action (dispatch_ok (post env (n_post st)))) hid
                      (_healings (engine st));
              _states := _states (engine st);
              _cooldowns := _cooldowns (engine st);
              _history := _history (engine st) |};
         n_uuid := n_uuid st; n_clock := n_clock st;
         n_post := S (n_post st); calls := calls st ++ [CallExecute a] |}.
Proof.
  cbn [Engine._act_loop]. unfold mbind, M_bind, bind, try_except.
  by rewrite execute_action_run.
Qed.

(** The loop of [_act] dispatches every action, in order, and counts each
    one on the result registered under [hid]; it touches nothing else and
    does not raise. *)
Lemma act_loop_run env hid acts st :
  let out := Engine._act_loop hid acts env st in
  out.2 = inr tt
  ∧ _healings (engine out.1)
    = alter (count_actions (dispatch_outcomes env (n_post st) acts)) hid
            (_healings (engine st))
  ∧ _states (engine out.1) = _states (engine st)
  ∧ _cooldowns (engine out.1) = _cooldowns (engine st)
  ∧ _history (engine out.1) = _history (engine st)
  ∧ n_uuid out.1 = n_uuid st ∧ n_clock out.1 = n_clock st
  ∧ n_post out.1 = (n_post st + length acts)%nat
  ∧ calls out.1 = calls st ++ (CallExecute <$> acts).
Proof.
  revert st. induction acts as [|a acts IH]; intros st; cbv zeta.
  - cbn. rewrite app_nil_r, Nat.add_0_r. repeat split; try done.
    symmetry. by apply alter_id.
  - rewrite act_loop_cons.
    match goal with |- context [Engine._act_loop hid acts env ?s] =>
      specialize (IH s); cbv zeta in IH;
      cbn [engine n_uuid n_clock n_post calls
             _healings _states _cooldowns _history] in IH
    end.
    destruct IH as (H1 & H2 & H3 & H4 & H5 & H6 & H7 & H8 & H9).
    rewrite H1, H2, H3, H4, H5, H6, H7, H8, H9.
    cbn [dispatch_outcomes length fmap list_fmap].
    rewrite alter_alter_eq, <- app_assoc. cbn [app].
    repeat split; try done; lia.
Qed.

Lemma act_run env hid p st :
  is_Some (_healings (engine st) !! hid) →
  Engine._act hid p env st = Engine._act_loop hid (actions p) env st.
Proof.
  intros [r Hr]. unfold Engine._act. unfold_M. by rewrite Hr.
Qed.

(** C10.  For a healing with a stored plan, [execute_plan] returns without
    raising and leaves the healing COMPLETED with the message "Plan executed
    successfully" and a completion time, whatever the executor answered:
    [actions_executed] grows by the number of actions of the plan,
    [actions_successful] by the number of dispatches the executor accepted,
    and the only calls made are the dispatches of the plan's actions, in
    order (no validation). *)
Theorem execute_plan_completes_whatever_dispatch (env : Env) (st : St) (hid : string)
    (r : HealingResult) (p : HealingPlan) :
  _healings (engine st) !! hid = Some r →
  plan r = Some p →
  let out := Engine.execute_plan hid env st in
  let oks := dispatch_outcomes env (n_post st) (actions p) in
  out.2 = inr tt
  ∧ _healings (engine out.1) !! hid
    = Some {| healing_id := healing_id r; incident_id := incident_id r;
              status := COMPLETED; plan := Some p;
              actions_executed := actions_executed r + length (actions p);
              actions_successful := actions_successful r + successes oks;
              started_at := started_at r;
              completed_at := Some (utcnow env (n_clock st));
              result_message := Some "Plan executed successfully";
              error_message := error_message r |}
  ∧ calls out.1 = calls st ++ (CallExecute <$> actions p).
Proof.
  intros Hr Hp out oks. subst out oks.
  destruct (Engine.execute_plan hid env st) as [st' res] eqn:Hex. cbn [fst snd].
  unfold Engine.execute_plan, Engine.set_result in Hex. unfold_M.
  rewrite Hr, Hp in Hex.
  rewrite act_run in Hex by (cbn; rewrite lookup_alter_eq, Hr; by eexists).
  match type of Hex with context [Engine._act_loop hid (actions p) env ?s] =>
    pose proof (act_loop_run env hid (actions p) s) as Hact;
    cbv zeta in Hact;
    cbn [engine n_uuid n_clock n_post calls
           _healings _states _cooldowns _history] in Hact;
    destruct (Engine._act_loop hid (actions p) env s) as [st2 [e|[]]]
  end; cbn [fst snd] in Hact;
    destruct Hact as (H1 & H2 & H3 & H4 & H5 & H6 & H7 & H8 & H9); [done|].
  injection Hex as <- <-. cbn.
  rewrite H2, H7, H9, !lookup_alter_eq, Hr. cbn.
  split; [done|]. split; [|done].
  destruct (count_actions_fields (dispatch_outcomes env (n_post st) (actions p))
              (with_status ACTING r))
    as (F1 & F2 & F3 & F4 & F5 & F6 & F7 & F8 & F9 & F10).
  cbv zeta in *. unfold with_result_message, with_completed_at, with_status at 1 2.
  cbn. rewrite F1, F2, F4, F5, F6, F7, F10. cbn.
  by rewrite Hp, dispatch_outcomes_length.
Qed.

(** *** Frame reasoning for computations *)

Section Keeps.

Context (R : relation St) `{!PreOrder R}.

Lemma keeps_ret {A} (a : A) : keeps R (mret a).
Proof. intros env st. cbn. reflexivity. Qed.

Lemma keeps_raise {A} (e : exn) : keeps R (@raise A e).
Proof. intros env st. cbn. reflexivity. Qed.

Lemma keeps_get_engine : keeps R get_engine.
Proof. intros env st. cbn. reflexivity. Qed.

Lemma keeps_bind {A B} (m : M A) (k : A -> M B) :
  keeps R m → (∀ a, keeps R (k a)) → keeps R (m ≫= k).
Proof.
  intros Hm Hk env st. unfold mbind, M_bind, bind.
  specialize (Hm env st). destruct (m env st) as [st' [e|a]]; cbn in *; [done|].
  etrans; [exact Hm | apply Hk].
Qed.

Lemma keeps_try_except {A} (body : M A) (handler : exn -> M A) :
  keeps R body → (∀ e, keeps R (handler e)) → keeps R (try_except body handler).
Proof.
  intros Hm Hk env st. unfold try_except.
  specialize (Hm env st). destruct (body env st) as [st' [e|a]]; cbn in *; [|done].
  etrans; [exact Hm | apply Hk].
Qed.

End Keeps.

#[local] Instance registry_frame_preorder : PreOrder registry_frame.
Proof.
  split.
  - intros st. unfold registry_frame. auto.
  - intros st1 st2 st3 (H1 & H2 & H3) (H4 & H5 & H6). unfold registry_frame.
    rewrite H4, H1, H5, H2. split; [done|]. split; [done|lia].
Qed.

#[local] Instance cooldown_frame_preorder : PreOrder cooldown_frame.
Proof.
  split.
  - intros st. reflexivity.
  - intros st1 st2 st3 H1 H2. unfold cooldown_frame in *. congruence.
Qed.

Lemma registry_now : keeps registry_frame now.
Proof. intros env st. cbn. unfold registry_frame. auto. Qed.

Lemma registry_log_call c : keeps registry_frame (log_call c).
Proof. intros env st. cbn. unfold registry_frame. auto. Qed.

Lemma registry_client_post a : keeps registry_frame (client_post a).
Proof. intros env st. cbn. unfold registry_frame. auto. Qed.

Lemma registry_with_uuids {A} (f : (nat -> string) -> A * nat) :
  keeps registry_frame (with_uuids f).
Proof.
  intros env st. unfold with_uuids.
  destruct (f _) as [a k]. cbn. unfold registry_frame. cbn.
  split; [done|]. split; [done|lia].
Qed.

Lemma registry_set_result hid f : keeps registry_frame (Engine.set_result hid f).
Proof.
  intros env st. cbn. unfold registry_frame. cbn. by rewrite dom_alter_L.
Qed.

Lemma registry_set_state hid f : keeps registry_frame (Engine.set_state hid f).
Proof. intros env st. cbn. unfold registry_frame. auto. Qed.

Lemma registry_set_cooldown service t :
  keeps registry_frame (Engine.set_cooldown service t).
Proof. intros env st. cbn. unfold registry_frame. auto. Qed.

Lemma cooldown_now : keeps cooldown_frame now.
Proof. by intros env st. Qed.

Lemma cooldown_log_call c : keeps cooldown_frame (log_call c).
Proof. by intros env st. Qed.

Lemma cooldown_client_post a : keeps cooldown_frame (client_post a).
Proof. by intros env st. Qed.

Lemma cooldown_with_uuids {A} (f : (nat -> string) -> A * nat) :
  keeps cooldown_frame (with_uuids f).
Proof. intros env st. unfold with_uuids. by destruct (f _). Qed.

Lemma cooldown_set_result hid f : keeps cooldown_frame (Engine.set_result hid f).
Proof. by intros env st. Qed.

Lemma cooldown_set_state hid f : keeps cooldown_frame (Engine.set_state hid f).
Proof. by intros env st. Qed.

(** One step of a frame proof, chosen by the head of the computation:
    split a sequence, a handler or a branch, or close a primitive. *)
Ltac keeps_step :=
  lazymatch goal with
  | |- keeps _ (mbind _ _) => apply keeps_bind; [typeclasses eauto | | intros ?]
  | |- keeps _ (try_except _ _) =>
      apply keeps_try_except; [typeclasses eauto | | intros ?]
  | |- keeps _ (mret _) => apply keeps_ret; typeclasses eauto
  | |- keeps _ (raise _) => apply keeps_raise; typeclasses eauto
  | |- keeps _ get_engine => apply keeps_get_engine; typeclasses eauto
  | |- keeps registry_frame now => apply registry_now
  | |- keeps registry_frame (log_call _) => apply registry_log_call
  | |- keeps registry_frame (client_post _) => apply registry_client_post
  | |- keeps registry_frame (with_uuids _) => apply registry_with_uuids
  | |- keeps registry_frame (Engine.set_result _ _) => apply registry_set_result
  | |- keeps registry_frame (Engine.set_state _ _) => apply registry_set_state
  | |- keeps registry_frame (Engine.set_cooldown _ _) => apply registry_set_cooldown
  | |- keeps cooldown_frame now => apply cooldown_now
  | |- keeps cooldown_frame (log_call _) => apply cooldown_log_call
  | |- keeps cooldown_frame (client_post _) => apply cooldown_client_post
  | |- keeps cooldown_frame (with_uuids _) => apply cooldown_with_uuids
  | |- keeps cooldown_frame (Engine.set_result _ _) => apply cooldown_set_result
  | |- keeps cooldown_frame (Engine.set_state _ _) => apply cooldown_set_state
  | |- keeps _ (match ?x with _ => _ end) => destruct x
  end.

Ltac keeps_auto := repeat keeps_step.

Lemma registry_execute_action a : keeps registry_frame (Engine._execute_action a).
Proof. unfold Engine._execute_action. keeps_auto. Qed.

Lemma cooldown_execute_action a : keeps cooldown_frame (Engine._execute_action a).
Proof. unfold Engine._execute_action. keeps_auto. Qed.

Lemma registry_act_loop hid acts : keeps registry_frame (Engine._act_loop hid acts).
Proof.
  induction acts as [|a acts IH]; cbn [Engine._act_loop]; [keeps_auto|].
  apply keeps_bind; [typeclasses eauto | | intros _; exact IH].
  apply keeps_try_except; [typeclasses eauto | | intros ?; keeps_auto].
  apply keeps_bind; [typeclasses eauto | apply registry_execute_action | intros ?].
  keeps_auto.
Qed.

Lemma cooldown_act_loop hid acts : keeps cooldown_frame (Engine._act_loop hid acts).
Proof.
  induction acts as [|a acts IH]; cbn [Engine._act_loop]; [keeps_auto|].
  apply keeps_bind; [typeclasses eauto | | intros _; exact IH].
  apply keeps_try_except; [typeclasses eauto | | intros ?; keeps_auto].
  apply keeps_bind; [typeclasses eauto | apply cooldown_execute_action | intros ?].
  keeps_auto.
Qed.

Lemma registry_act hid p : keeps registry_frame (Engine._act hid p).
Proof.
  unfold Engine._act. apply keeps_bind; [typeclasses eauto | keeps_auto | intros e].
  destruct (_healings e !! hid); [apply registry_act_loop | keeps_auto].
Qed.

Lemma cooldown_act hid p : keeps cooldown_frame (Engine._act hid p).
Proof.
  unfold Engine._act. apply keeps_bind; [typeclasses eauto | keeps_auto | intros e].
  destruct (_healings e !! hid); [apply cooldown_act_loop | keeps_auto].
Qed.

Lemma keeps_observe R `{!PreOrder R} request : keeps R (Engine._observe request).
Proof. unfold Engine._observe. cbv zeta. by apply keeps_ret. Qed.

Lemma keeps_orient R `{!PreOrder R} request observation :
  keeps R (Engine._orient request observation).
Proof. unfold Engine._orient. by apply keeps_ret. Qed.

Lemma registry_decide request observation orientation :
  keeps registry_frame (Engine._decide request observation orientation).
Proof. apply registry_with_uuids. Qed.

Lemma cooldown_decide request observation orientation :
  keeps cooldown_frame (Engine._decide request observation orientation).
Proof. apply cooldown_with_uuids. Qed.

Lemma registry_validate service : keeps registry_frame (Engine._validate service).
Proof. unfold Engine._validate. keeps_auto. Qed.

(** A frame proof for an operation of the engine. *)
Ltac keeps_op :=
  repeat
    lazymatch goal with
    | |- keeps _ (Engine._observe _) => apply keeps_observe; typeclasses eauto
    | |- keeps _ (Engine._orient _ _) => apply keeps_orient; typeclasses eauto
    | |- keeps registry_frame (Engine._decide _ _ _) => apply registry_decide
    | |- keeps cooldown_frame (Engine._decide _ _ _) => apply cooldown_decide
    | |- keeps registry_frame (Engine._validate _) => apply registry_validate
    | |- keeps registry_frame (Engine._act _ _) => apply registry_act
    | |- keeps cooldown_frame (Engine._act _ _) => apply cooldown_act
    | |- _ => keeps_step
    end.

Lemma registry_run_ooda_loop settings hid request :
  keeps registry_frame (Engine.run_ooda_loop settings hid request).
Proof. unfold Engine.run_ooda_loop. keeps_op. Qed.

Lemma registry_generate_plan_only hid request :
  keeps registry_frame (Engine.generate_plan_only hid request).
Proof. unfold Engine.generate_plan_only. keeps_op. Qed.

Lemma registry_analyze_only hid request :
  keeps registry_frame (Engine.analyze_only hid request).
Proof. unfold Engine.analyze_only. keeps_op. Qed.

Lemma registry_execute_plan hid : keeps registry_frame (Engine.execute_plan hid).
Proof. unfold Engine.execute_plan. keeps_op. Qed.

Lemma registry_cancel_healing hid : keeps registry_frame (Engine.cancel_healing hid).
Proof. unfold Engine.cancel_healing. keeps_op. Qed.

Lemma registry_run_task settings task :
  keeps registry_frame (Routes.run_task settings task).
Proof.
  destruct task; cbn [Routes.run_task];
    auto using registry_run_ooda_loop, registry_generate_plan_only,
      registry_analyze_only, registry_execute_plan.
Qed.

Lemma registry_route_cancel hid : keeps registry_frame (Routes.cancel_healing hid).
Proof.
  unfold Routes.cancel_healing.
  apply keeps_bind; [typeclasses eauto | apply registry_cancel_healing | intros ?].
  keeps_op.
Qed.

Lemma registry_route_approve hid : keeps registry_frame (Routes.approve_healing_plan hid).
Proof. unfold Routes.approve_healing_plan, Engine.get_healing. keeps_op. Qed.

(** The paths that finish a healing without touching the cooldown table:
    the plan-only and analysis-only pipelines, the execution of an approved
    plan, and cancellation. *)
Lemma cooldown_generate_plan_only hid request :
  keeps cooldown_frame (Engine.generate_plan_only hid request).
Proof. unfold Engine.generate_plan_only. keeps_op. Qed.

Lemma cooldown_analyze_only hid request :
  keeps cooldown_frame (Engine.analyze_only hid request).
Proof. unfold Engine.analyze_only. keeps_op. Qed.

Lemma cooldown_execute_plan hid : keeps cooldown_frame (Engine.execute_plan hid).
Proof. unfold Engine.execute_plan. keeps_op. Qed.

Lemma cooldown_cancel_healing hid : keeps cooldown_frame (Engine.cancel_healing hid).
Proof. unfold Engine.cancel_healing. keeps_op. Qed.

(** *** What a trigger does to the state *)

Lemma trigger_healing_run settings env st request_data :
  match Routes.trigger_healing settings request_data env st with
  | (st', inl _) =>
      engine st' = engine st ∧ n_uuid st' = n_uuid st
      ∧ n_post st' = n_post st ∧ calls st' = calls st
  | (st', inr (result, task)) =>
      let hid := uuid4 env (n_uuid st) in
      healing_id result = hid
      ∧ incident_id result = req_incident_id request_data
      ∧ plan result = None
      ∧ actions_executed result = 0%nat
      ∧ status result = match healing_mode settings with
                        | AUTO => OBSERVING
                        | SEMI_AUTO => DECIDING
                        | MANUAL => ORIENTING
                        end
      ∧ task = match healing_mode settings with
               | AUTO => Routes.TaskRunOODALoop hid request_data
               | SEMI_AUTO => Routes.TaskGeneratePlanOnly hid request_data
               | MANUAL => Routes.TaskAnalyzeOnly hid request_data
               end
      ∧ _healings (engine st') = <[hid := result]> (_healings (engine st))
      ∧ (∃ s0, _states (engine st') = <[hid := s0]> (_states (engine st)))
      ∧ _cooldowns (engine st') = _cooldowns (engine st)
      ∧ _history (engine st') = _history (engine st)
      ∧ n_uuid st' = S (n_uuid st)
      ∧ n_post st' = n_post st ∧ calls st' = calls st
  end.
Proof.
  unfold Routes.trigger_healing, Engine.is_in_cooldown. unfold_M.
  destruct (Engine.is_healing _ _); [done|].
  destruct (_ <=? _)%Z; [done|].
  destruct (_cooldowns (engine st) !! target_service request_data); cbn;
    [destruct (_ && _); [done|] |];
    destruct (healing_mode settings); cbn;
      rewrite alter_insert_eq; repeat split; try done; by eexists.
Qed.

(** *** The archive and the statistics *)

(** A step either keeps the registry (the registered ids, the archive) or
    is an admitted trigger, which registers one result under the next
    [uuid4] value. *)
Lemma step_registry settings env ev s :
  (registry_frame (state s) (state (step settings env ev s))
   ∧ registered (step settings env ev s) = registered s)
  ∨ (∃ result,
       _healings (engine (state (step settings env ev s)))
       = <[uuid4 env (n_uuid (state s)) := result]> (_healings (engine (state s)))
       ∧ _history (engine (state (step settings env ev s)))
         = _history (engine (state s))
       ∧ n_uuid (state (step settings env ev s)) = S (n_uuid (state s))
       ∧ registered (step settings env ev s) = S (registered s)).
Proof.
  destruct ev as [request_data|hid|hid|k]; cbn [step].
  - pose proof (trigger_healing_run settings env (state s) request_data) as Hrun.
    destruct (Routes.trigger_healing settings request_data env (state s))
      as [st' [e|[result task]]]; cbn [state registered].
    + left. destruct Hrun as (He & Hu & _). unfold registry_frame.
      rewrite He, Hu. auto.
    + right. exists result. cbv zeta in Hrun.
      destruct Hrun as (_ & _ & _ & _ & _ & _ & Hh & _ & _ & Hhist & Hu & _).
      auto.
  - left. pose proof (registry_route_approve hid env (state s)) as Hf.
    destruct (Routes.approve_healing_plan hid env (state s)) as [st' [e|task]];
      cbn in *; auto.
  - left. split; [|done]. apply registry_route_cancel.
  - left. destruct (background s !! k) as [task|]; cbn.
    + split; [|done]. apply registry_run_task.
    + split; [reflexivity|done].
Qed.

Lemma reachable_history_empty settings env s :
  reachable settings env s → _history (engine (state s)) = [].
Proof.
  induction 1 as [|s ev Hs IH]; [done|].
  destruct (step_registry settings env ev s)
    as [[(_ & Hh & _) _] | (result & _ & Hh & _)]; by rewrite Hh.
Qed.

(** When the values of [uuid4] are pairwise distinct, every registered id
    is one of the values consumed so far, and the registry has one entry per
    admitted trigger. *)
Lemma reachable_registry_size settings env s :
  Inj (=) (=) (uuid4 env) →
  reachable settings env s →
  size (_healings (engine (state s))) = registered s
  ∧ ∀ hid, hid ∈ dom (_healings (engine (state s))) →
           ∃ k, (k < n_uuid (state s))%nat ∧ hid = uuid4 env k.
Proof.
  intros Hinj. induction 1 as [|s ev Hs [IHsize IHdom]].
  - split; [done|]. intros hid. cbn. rewrite dom_empty_L. set_solver.
  - destruct (step_registry settings env ev s)
      as [[(Hd & _ & Hu) Hr] | (result & Hh & _ & Hu & Hr)].
    + split.
      * rewrite <- size_dom, Hd, size_dom, Hr. done.
      * intros hid Hin. rewrite Hd in Hin. destruct (IHdom hid Hin) as (k & Hk & ->).
        exists k. split; [lia|done].
    + assert (Hfresh : _healings (engine (state s)) !! uuid4 env (n_uuid (state s)) = None).
      { apply not_elem_of_dom. intros Hin.
        destruct (IHdom _ Hin) as (k & Hk & Heq). apply Hinj in Heq. lia. }
      split.
      * rewrite Hh, map_size_insert_None by done. by rewrite IHsize, Hr.
      * intros hid. rewrite Hh, dom_insert_L, elem_of_union, elem_of_singleton, Hu.
        intros [->|Hin].
        -- exists (n_uuid (state s)). split; [lia|done].
        -- destruct (IHdom hid Hin) as (k & Hk & ->). exists k. split; [lia|done].
Qed.

(** C9.  In every reachable state of the agent the archive [_history] is
    empty: [get_success_rate] and [get_average_duration] return 0.0 and
    [get_total_count] is the size of the registry, which, the values of
    [uuid4] being pairwise distinct, is the number of healings registered so
    far. *)
Theorem archive_stays_empty (settings : Settings) (env : Env) (s : Sys) :
  reachable settings env s →
  _history (engine (state s)) = []
  ∧ Engine.get_success_rate (engine (state s)) = 0%float
  ∧ Engine.get_average_duration (engine (state s)) = 0%float
  ∧ Engine.get_total_count (engine (state s)) = size (_healings (engine (state s)))
  ∧ (Inj (=) (=) (uuid4 env) →
     Engine.get_total_count (engine (state s)) = registered s).
Proof.
  intros Hs. pose proof (reachable_history_empty settings env s Hs) as Hh.
  unfold Engine.get_success_rate, Engine.get_average_duration, Engine.get_total_count.
  rewrite Hh. cbn. rewrite Nat.add_0_r. repeat split.
  intros Hinj. by apply (reachable_registry_size settings env s Hinj).
Qed.

(** *** Cancellation *)

Lemma cancel_healing_run env st hid :
  Engine.cancel_healing hid env st
  = match _healings (engine st) !! hid with
    | Some r =>
        ({| engine :=
              {| _healings :=
                   alter (with_completed_at (utcnow env (n_clock st))) hid
                     (alter (with_status CANCELLED) hid (_healings (engine st)));
                 _states := _states (engine st);
                 _cooldowns := _cooldowns (engine st);
                 _history := _history (engine st) |};
            n_uuid := n_uuid st; n_clock := S (n_clock st);
            n_post := n_post st; calls := calls st |},
         inr (Some (with_completed_at (utcnow env (n_clock st))
                      (with_status CANCELLED r))))
    | None => (st, inr None)
    end.
Proof.
  unfold Engine.cancel_healing, Engine.set_result. unfold_M.
  destruct (_healings (engine st) !! hid) as [r|] eqn:Hr; cbn; [|done].
  by rewrite !lookup_alter_eq, Hr.
Qed.

(** C4 (as the code has it).  [cancel_healing] does not look at the status:
    for every registered healing, terminal or not, it sets the status to
    CANCELLED and [completed_at] to the current time, keeps the other fields,
    returns the result, and leaves the other healings as they were. *)
Theorem cancel_healing_unconditional (env : Env) (st : St) (hid : string)
    (r : HealingResult) :
  _healings (engine st) !! hid = Some r →
  let out := Engine.cancel_healing hid env st in
  let r' := {| healing_id := healing_id r; incident_id := incident_id r;
               status := CANCELLED; plan := plan r;
               actions_executed := actions_executed r;
               actions_successful := actions_successful r;
               started_at := started_at r;
               completed_at := Some (utcnow env (n_clock st));
               result_message := result_message r;
               error_message := error_message r |} in
  out.2 = inr (Some r')
  ∧ _healings (engine out.1) !! hid = Some r'
  ∧ ∀ hid', hid' ≠ hid →
            _healings (engine out.1) !! hid' = _healings (engine st) !! hid'.
Proof.
  intros Hr out r'. subst out r'. rewrite cancel_healing_run, Hr. cbn.
  split; [done|]. split.
  - by rewrite !lookup_alter_eq, Hr.
  - intros hid' Hne. by rewrite !lookup_alter_ne.
Qed.

Lemma cancel_healing_unconditional_witness :
  _healings (engine (state healed)) !! "uuid-0" = Some healed_result
  ∧ status healed_result = COMPLETED
  ∧ status <$> (_healings (engine (Engine.cancel_healing "uuid-0" env_up (state healed)).1)
                  !! "uuid-0") = Some CANCELLED
  ∧ completed_at <$> (_healings (engine (Engine.cancel_healing "uuid-0" env_up
                                           (state healed)).1) !! "uuid-0")
    = Some (Some 3000000%Z).
Proof.
  assert (H : _healings (engine (state healed)) !! "uuid-0" = Some healed_result)
    by (vm_compute; reflexivity).
  split; [exact H|]. split; [reflexivity|].
  destruct (cancel_healing_unconditional env_up (state healed) "uuid-0" healed_result H)
    as (_ & Hl & _).
  rewrite Hl. split; reflexivity.
Defined.

(** C4 (as stated) fails: the healing of [healed] is COMPLETED, with a
    completion time of 1 s; a cancel request turns it into CANCELLED and
    restamps it at 3 s. *)
Lemma cancel_rewrites_a_completed_healing :
  status <$> result_of healed "uuid-0" = Some COMPLETED
  ∧ non_terminal COMPLETED = false
  ∧ completed_at <$> result_of healed "uuid-0" = Some (Some 1000000%Z)
  ∧ status <$> result_of (step auto_mode env_up (Cancel "uuid-0") healed) "uuid-0"
    = Some CANCELLED
  ∧ completed_at <$> result_of (step auto_mode env_up (Cancel "uuid-0") healed) "uuid-0"
    = Some (Some 3000000%Z).
Proof. vm_compute. repeat split. Qed.

(** On an id that is not registered, [cancel_healing] changes nothing. *)
Lemma cancel_healing_unknown env st hid :
  _healings (engine st) !! hid = None →
  Engine.cancel_healing hid env st = (st, inr None).
Proof. intros Hr. by rewrite cancel_healing_run, Hr. Qed.

Lemma execute_plan_completes_whatever_dispatch_witness :
  _healings (engine (state (planned env_down))) !! "uuid-0" = Some planned_result
  ∧ plan planned_result = Some planned_plan
  ∧ dispatch_outcomes env_down 0 (actions planned_plan) = [false; false]
  ∧ (Engine.execute_plan "uuid-0" env_down (state (planned env_down))).2 = inr tt
  ∧ (fun r => (status r, actions_executed r, actions_successful r, result_message r))
      <$> (_healings (engine (Engine.execute_plan "uuid-0" env_down
                                (state (planned env_down))).1) !! "uuid-0")
    = Some (COMPLETED, 2%nat, 0%nat, Some "Plan executed successfully").
Proof.
  assert (Hr : _healings (engine (state (planned env_down))) !! "uuid-0"
               = Some planned_result) by (vm_compute; reflexivity).
  assert (Hp : plan planned_result = Some planned_plan) by reflexivity.
  split; [exact Hr|]. split; [exact Hp|]. split; [reflexivity|].
  destruct (execute_plan_completes_whatever_dispatch env_down
              (state (planned env_down)) "uuid-0" planned_result planned_plan Hr Hp)
    as (H1 & H2 & _).
  split; [exact H1|]. rewrite H2. reflexivity.
Defined.

(** *** Manual mode *)

(** Observe and Orient compute a text and leave the state alone. *)
Lemma observe_run request :
  ∃ text, ∀ env st, Engine._observe request env st = (st, inr text).
Proof. unfold Engine._observe. eexists. intros env st. reflexivity. Qed.

Lemma orient_run request observation :
  ∃ text, ∀ env st, Engine._orient request observation env st = (st, inr text).
Proof. unfold Engine._orient. eexists. intros env st. reflexivity. Qed.

Lemma analyze_only_run env st hid request r s0 :
  _healings (engine st) !! hid = Some r →
  _states (engine st) !! hid = Some s0 →
  let out := Engine.analyze_only hid request env st in
  out.2 = inr tt
  ∧ _healings (engine out.1)
    = alter (with_completed_at (utcnow env (n_clock st))) hid
        (alter (with_result_message "Analysis complete. Manual action required.") hid
           (alter (with_status COMPLETED) hid (_healings (engine st))))
  ∧ (∃ s1, _states (engine out.1) !! hid = Some s1 ∧ phase s1 = "orient")
  ∧ (∀ hid', is_Some (_states (engine st) !! hid')
             → is_Some (_states (engine out.1) !! hid'))
  ∧ calls out.1 = calls st.
Proof.
  intros Hr Hs out. subst out.
  destruct (observe_run request) as [obs Hobs].
  destruct (orient_run request obs) as [ori Hori].
  unfold Engine.analyze_only. run_M. rewrite Hr, Hs. run_M.
  rewrite Hobs. run_M. rewrite Hori. run_M.
  split; [done|]. split; [done|]. split; [|split; [|done]].
  - rewrite !lookup_alter_eq, Hs. cbn. by eexists.
  - intros hid' Hsome. by rewrite !lookup_alter_is_Some.
Qed.

Lemma approve_rejected env st hid :
  (∀ r, _healings (engine st) !! hid = Some r → status r ≠ DECIDING) →
  ∃ e, Routes.approve_healing_plan hid env st = (st, inl e).
Proof.
  intros Hst. unfold Routes.approve_healing_plan, Engine.get_healing. unfold_M.
  destruct (_healings (engine st) !! hid) as [r|] eqn:Hr; [|by eexists].
  rewrite bool_decide_eq_false_2 by by apply Hst. by eexists.
Qed.

Lemma manual_invariant_step settings env ev s :
  healing_mode settings = MANUAL →
  manual_invariant s → manual_invariant (step settings env ev s).
Proof.
  intros Hmode (Hcalls & Hres & Htasks).
  destruct ev as [request_data|hid|hid|k]; cbn [step].
  - pose proof (trigger_healing_run settings env (state s) request_data) as Hrun.
    destruct (Routes.trigger_healing settings request_data env (state s))
      as [st' [e|[result task]]].
    + destruct Hrun as (He & _ & _ & Hc). unfold manual_invariant. cbn.
      rewrite He, Hc. auto.
    + cbv zeta in Hrun. rewrite Hmode in Hrun.
      destruct Hrun as (Hid & _ & Hplan & Hexec & Hstatus & -> & Hh & [s0 Hs] & _ & _ & _ & _ & Hc).
      unfold manual_invariant. cbn. rewrite Hh, Hs, Hc. split; [done|]. split.
      * intros hid r. rewrite lookup_insert. case_decide as Heq.
        -- intros [= <-]. auto.
        -- apply Hres.
      * intros task. rewrite elem_of_app, list_elem_of_singleton. intros [Hin| ->].
        -- destruct (Htasks task Hin) as (hid & request & -> & H1 & H2).
           exists hid, request. rewrite !lookup_insert_is_Some'. auto.
        -- eexists _, _. split; [done|]. rewrite !lookup_insert_eq. by split; eexists.
  - destruct (approve_rejected env (state s) hid) as [e He].
    { intros r Hr. destruct (Hres hid r Hr) as ([H|[H|H]] & _); rewrite H; done. }
    rewrite He. done.
  - unfold Routes.cancel_healing. unfold mbind, M_bind, bind.
    rewrite cancel_healing_run.
    destruct (_healings (engine (state s)) !! hid) as [r|] eqn:Hr; cbn; [|done].
    unfold manual_invariant. cbn. split; [done|]. split.
    + intros hid' r'. destruct (decide (hid' = hid)) as [->|Hne].
      * rewrite !lookup_alter_eq, Hr. cbn. intros [= <-]. cbn.
        destruct (Hres hid r Hr) as (_ & ? & ?). auto.
      * rewrite !lookup_alter_ne by done. apply Hres.
    + intros task Hin. destruct (Htasks task Hin) as (hid' & request & -> & H1 & H2).
      exists hid', request. rewrite !lookup_alter_is_Some. auto.
  - destruct (background s !! k) as [task|] eqn:Hk; [|done].
    destruct (Htasks task) as (hid & request & -> & [r Hr] & [s0 Hs]).
    { by apply list_elem_of_lookup_2 in Hk. }
    cbn [Routes.run_task].
    destruct (analyze_only_run env (state s) hid request r s0 Hr Hs)
      as (_ & Hh & _ & Hst & Hc).
    unfold manual_invariant. cbn [state background]. rewrite Hh, Hc.
    split; [done|]. split.
    + intros hid' r'. destruct (decide (hid' = hid)) as [->|Hne].
      * rewrite !lookup_alter_eq, Hr. cbn. intros [= <-]. cbn.
        destruct (Hres hid r Hr) as (_ & ? & ?). auto.
      * rewrite !lookup_alter_ne by done. apply Hres.
    + intros task Hin.
      assert (Hin' : task ∈ background s).
      { by apply list_elem_of_delete_inv in Hin. }
      destruct (Htasks task Hin') as (hid' & request' & -> & H1 & H2).
      exists hid', request'. split; [done|]. split.
      * by rewrite !lookup_alter_is_Some.
      * by apply Hst.
Qed.

Lemma reachable_manual_invariant settings env s :
  healing_mode settings = MANUAL →
  reachable settings env s → manual_invariant s.
Proof.
  intros Hmode. induction 1 as [|s ev Hs IH].
  - unfold manual_invariant. cbn. split; [done|]. split.
    + intros hid r. by rewrite lookup_empty.
    + intros task Hin. by apply elem_of_nil in Hin.
  - by apply manual_invariant_step.
Qed.

(** C8.  In manual mode, in every reachable state of the agent: no call
    was made to the executor (no action was executed) and no registered
    healing has the status ACTING, a plan or a counted action; an admitted
    trigger schedules the analysis-only pipeline; and running any pending
    background task, which is such an analysis, leaves its healing COMPLETED
    with the message "Analysis complete. Manual action required." and a
    completion time, its OODA state having stopped at the orient phase. *)
Theorem manual_mode_never_acts (settings : Settings) (env : Env) (s : Sys) :
  healing_mode settings = MANUAL →
  reachable settings env s →
  calls (state s) = []
  ∧ (∀ hid r, _healings (engine (state s)) !! hid = Some r →
              status r ≠ ACTING ∧ plan r = None ∧ actions_executed r = 0%nat)
  ∧ (∀ request_data,
       match Routes.trigger_healing settings request_data env (state s) with
       | (_, inr (result, task)) =>
           status result = ORIENTING
           ∧ task = Routes.TaskAnalyzeOnly (healing_id result) request_data
       | (_, inl _) => True
       end)
  ∧ (∀ k task, background s !! k = Some task →
       ∃ hid request r s1,
         task = Routes.TaskAnalyzeOnly hid request
         ∧ _healings (engine (state (step settings env (Run k) s))) !! hid = Some r
         ∧ status r = COMPLETED
         ∧ result_message r = Some "Analysis complete. Manual action required."
         ∧ completed_at r = Some (utcnow env (n_clock (state s)))
         ∧ _states (engine (state (step settings env (Run k) s))) !! hid = Some s1
         ∧ phase s1 = "orient").
Proof.
  intros Hmode Hs.
  destruct (reachable_manual_invariant settings env s Hmode Hs)
    as (Hcalls & Hres & Htasks).
  split; [done|]. split; [|split].
  - intros hid r Hr. destruct (Hres hid r Hr) as ([H|[H|H]] & ? & ?);
      rewrite H; done.
  - intros request_data.
    pose proof (trigger_healing_run settings env (state s) request_data) as Hrun.
    destruct (Routes.trigger_healing settings request_data env (state s))
      as [st' [e|[result task]]]; [done|].
    cbv zeta in Hrun. rewrite Hmode in Hrun.
    destruct Hrun as (-> & _ & _ & _ & Hstatus & -> & _). done.
  - intros k task Hk.
    destruct (Htasks task) as (hid & request & -> & [r Hr] & [s0 Hs0]).
    { by apply list_elem_of_lookup_2 in Hk. }
    destruct (analyze_only_run env (state s) hid request r s0 Hr Hs0)
      as (_ & Hh & (s1 & Hs1 & Hphase) & _ & _).
    cbn [step]. rewrite Hk. cbn [state Routes.run_task].
    eexists hid, request, _, s1. split; [done|].
    rewrite Hh, !lookup_alter_eq, Hr. cbn. repeat split; done.
Qed.

Lemma manual_mode_never_acts_witness :
  healing_mode manual_mode = MANUAL
  ∧ reachable manual_mode env_up analysed
  ∧ calls (state analysed) = []
  ∧ (fun r => (status r, plan r, actions_executed r, completed_at r))
      <$> result_of analysed "uuid-0"
    = Some (COMPLETED, None, 0%nat, Some 1000000%Z).
Proof.
  assert (Hreach : reachable manual_mode env_up analysed).
  { exact (reachable_step _ _ _ (Run 0)
             (reachable_step _ _ _ (Trigger checkout_request) (reachable_boot _ _))). }
  destruct (manual_mode_never_acts manual_mode env_up analysed eq_refl Hreach)
    as (Hcalls & _).
  split; [reflexivity|]. split; [exact Hreach|]. split; [exact Hcalls|].
  vm_compute. reflexivity.
Defined.

(** C2 (as the code has it on the approval path).  In semi-auto mode the
    healing of [approved env_up] was planned, approved and executed: it is
    COMPLETED, yet no cooldown was set for its target service, and a later
    non-forced trigger for that service is admitted. *)
Theorem approved_plan_sets_no_cooldown :
  status <$> result_of (approved env_up) "uuid-0" = Some COMPLETED
  ∧ _cooldowns (engine (state (approved env_up))) !! "checkout" = None
  ∧ target_service checkout_again = "checkout"
  ∧ force checkout_again = false
  ∧ ∃ result task,
      (Routes.trigger_healing semi_auto_mode checkout_again env_up
         (state (approved env_up))).2 = inr (result, task).
Proof.
  split; [vm_compute; reflexivity|]. split; [vm_compute; reflexivity|].
  split; [reflexivity|]. split; [reflexivity|].
  eexists _, _. vm_compute. reflexivity.
Qed.

(** The full pipeline of auto mode does set the cooldown: after [healed], a
    non-forced trigger for the service is rejected and a forced one is
    admitted. *)
Example auto_pipeline_sets_cooldown :
  _cooldowns (engine (state healed)) !! "checkout"
  = Some (2000000 + minutes (cooldown_minutes auto_mode))%Z
  ∧ (Routes.trigger_healing auto_mode checkout_again env_up (state healed)).2
    = inl (HTTPException 429 "Service checkout is in cooldown period")
  ∧ ∃ result task,
      (Routes.trigger_healing auto_mode
         {| req_incident_id := "inc-2"; target_service := "checkout";
            target_namespace := "default"; severity := "high";
            root_cause := None; recommended_actions := []; force := true |}
         env_up (state healed)).2 = inr (result, task).
Proof.
  split; [vm_compute; reflexivity|]. split; [vm_compute; reflexivity|].
  eexists _, _. vm_compute. reflexivity.
Qed.

Lemma archive_stays_empty_witness :
  reachable auto_mode env_up healed
  ∧ status <$> result_of healed "uuid-0" = Some COMPLETED
  ∧ _history (engine (state healed)) = []
  ∧ Engine.get_success_rate (engine (state healed)) = 0%float
  ∧ Engine.get_average_duration (engine (state healed)) = 0%float
  ∧ Engine.get_total_count (engine (state healed)) = 1%nat.
Proof.
  assert (Hreach : reachable auto_mode env_up healed).
  { exact (reachable_step _ _ _ (Run 0)
             (reachable_step _ _ _ (Trigger checkout_request) (reachable_boot _ _))). }
  destruct (archive_stays_empty auto_mode env_up healed Hreach)
    as (H1 & H2 & H3 & _ & H5).
  split; [exact Hreach|]. split; [vm_compute; reflexivity|].
  split; [exact H1|]. split; [exact H2|]. split; [exact H3|].
  rewrite (H5 PyStrFacts.scenario_uuid4_inj). vm_compute. reflexivity.
Defined.

End EngineFacts.

(* ===================================================================== *)
(** ** Incident store: correlation and the open-incident invariant *)
(* ===================================================================== *)

Module IncidentFacts.

Import PyStr IncidentManager DescribedIncidents IncidentScenario.

(** *** The dictionary *)

Lemma dict_get_Some_elem k i d : dict_get k d = Some i → (k, i) ∈ d.
Proof.
  induction d as [|[k' v] d IH]; cbn; [done|].
  destruct (String.eqb_spec k' k) as [->|Hne].
  - intros [= ->]. left.
  - intros H. right. by apply IH.
Qed.

Lemma dict_get_elem k i d : NoDup d.*1 → (k, i) ∈ d → dict_get k d = Some i.
Proof.
  induction d as [|[k' v] d IH]; cbn; [by intros _ ?%elem_of_nil|].
  rewrite NoDup_cons, elem_of_cons. intros [Hk Hd] [[= -> ->]|Hin].
  - by rewrite String.eqb_refl.
  - destruct (String.eqb_spec k' k) as [->|Hne]; [|by apply IH].
    exfalso. apply Hk. apply list_elem_of_fmap. by exists (k, i).
Qed.

Lemma elem_of_dict_set k v d k' i' :
  NoDup d.*1 →
  (k', i') ∈ dict_set k v d ↔ (k' = k ∧ i' = v) ∨ (k' ≠ k ∧ (k', i') ∈ d).
Proof.
  induction d as [|[k0 v0] d IH]; cbn.
  - intros _. rewrite list_elem_of_singleton. split.
    + intros [= -> ->]. by left.
    + intros [[-> ->]|[_ ?%elem_of_nil]]; done.
  - rewrite NoDup_cons. intros [Hk0 Hd].
    destruct (String.eqb_spec k0 k) as [->|Hne]; rewrite !elem_of_cons.
    + split.
      * intros [[= -> ->]|Hin]; [by left|].
        right. split; [|by right]. intros ->. apply Hk0.
        apply list_elem_of_fmap. by exists (k, i').
      * intros [[-> ->]|[Hne [[= -> ->]|Hin]]]; [by left|done|by right].
    + rewrite (IH Hd). split.
      * intros [[= -> ->]|[[-> ->]|[Hne' Hin]]]; [right|by left|right]; auto.
      * intros [[-> ->]|[Hne' [[= -> ->]|Hin]]]; auto.
Qed.

Lemma dict_set_keys k v d :
  (dict_set k v d).*1 = if decide (k ∈ d.*1) then d.*1 else d.*1 ++ [k].
Proof.
  induction d as [|[k0 v0] d IH]; cbn.
  - by rewrite decide_False by apply not_elem_of_nil.
  - destruct (String.eqb_spec k0 k) as [->|Hne]; cbn.
    + by rewrite decide_True by left.
    + rewrite IH. destruct (decide (k ∈ d.*1)) as [Hin|Hin].
      * by rewrite decide_True by by right.
      * rewrite decide_False; [done|]. rewrite elem_of_cons. intros [?|?]; done.
Qed.

Lemma dict_set_NoDup k v d : NoDup d.*1 → NoDup (dict_set k v d).*1.
Proof.
  intros Hd. rewrite dict_set_keys. destruct (decide (k ∈ d.*1)); [done|].
  apply NoDup_app. split; [done|]. split; [|apply NoDup_singleton].
  intros x Hx ->%list_elem_of_singleton. done.
Qed.

Lemma dict_get_set k v d : dict_get k (dict_set k v d) = Some v.
Proof.
  induction d as [|[k0 v0] d IH]; cbn.
  - by rewrite String.eqb_refl.
  - destruct (String.eqb_spec k0 k) as [->|Hne]; cbn.
    + by rewrite String.eqb_refl.
    + by destruct (String.eqb_spec k0 k).
Qed.

Lemma dict_set_set k v v' d : dict_set k v' (dict_set k v d) = dict_set k v' d.
Proof.
  induction d as [|[k0 v0] d IH]; cbn.
  - by rewrite String.eqb_refl.
  - destruct (String.eqb_spec k0 k) as [->|Hne]; cbn.
    + by rewrite String.eqb_refl.
    + destruct (String.eqb_spec k0 k); [done|]. by rewrite IH.
Qed.

Lemma store_wf_set i d : store_wf d → store_wf (dict_set (incident_id i) i d).
Proof.
  intros [Hd Hk]. split; [by apply dict_set_NoDup|].
  intros k' i'. rewrite elem_of_dict_set by done.
  intros [[-> ->]|[_ Hin]]; [done | by apply Hk].
Qed.

(** *** The scan of [find_related_incident] *)

Lemma find_related_loop_None d service namespace cutoff :
  find_related_loop d service namespace cutoff = None
  ↔ ∀ k i, (k, i) ∈ d →
           ¬ (is_open (status i) = true ∧ target_service i = service
              ∧ target_namespace i = namespace ∧ (cutoff ≤ created_at i)%Z).
Proof.
  induction d as [|[k0 i0] d IH]; cbn.
  - split; [|done]. intros _ k i Hin. by apply elem_of_nil in Hin.
  - destruct (is_open (status i0)) eqn:Ho; cbn;
      [destruct (String.eqb_spec (target_service i0) service) as [Hs|Hs]; cbn;
       [destruct (String.eqb_spec (target_namespace i0) namespace) as [Hn|Hn]; cbn;
        [destruct (Z.leb_spec cutoff (created_at i0)) as [Hc|Hc] | ] | ] | ].
    + split; [done|]. intros Hall. exfalso. by apply (Hall k0 i0); [left|].
    + rewrite IH. split.
      * intros Hall k i [[= -> ->]|Hin]%elem_of_cons;
          [intros (_ & _ & _ & ?); lia | exact (Hall k i Hin)].
      * intros Hall k i Hin. apply (Hall k i). by right.
    + rewrite IH. split.
      * intros Hall k i [[= -> ->]|Hin]%elem_of_cons;
          [intros (_ & _ & ? & _); done | exact (Hall k i Hin)].
      * intros Hall k i Hin. apply (Hall k i). by right.
    + rewrite IH. split.
      * intros Hall k i [[= -> ->]|Hin]%elem_of_cons;
          [intros (_ & ? & _); done | exact (Hall k i Hin)].
      * intros Hall k i Hin. apply (Hall k i). by right.
    + rewrite IH. split.
      * intros Hall k i [[= -> ->]|Hin]%elem_of_cons;
          [intros (? & _); congruence | exact (Hall k i Hin)].
      * intros Hall k i Hin. apply (Hall k i). by right.
Qed.

Lemma find_related_loop_Some d service namespace cutoff i :
  find_related_loop d service namespace cutoff = Some i →
  (∃ k, (k, i) ∈ d)
  ∧ is_open (status i) = true ∧ target_service i = service
  ∧ target_namespace i = namespace ∧ (cutoff ≤ created_at i)%Z.
Proof.
  induction d as [|[k0 i0] d IH]; cbn; [done|].
  destruct (is_open (status i0)) eqn:Ho; cbn;
    [destruct (String.eqb_spec (target_service i0) service) as [Hs|Hs]; cbn;
     [destruct (String.eqb_spec (target_namespace i0) namespace) as [Hn|Hn]; cbn;
      [destruct (Z.leb_spec cutoff (created_at i0)) as [Hc|Hc] | ] | ] | ];
    try (intros H; destruct (IH H) as ([k Hk] & ?); split; [exists k; by right | done]).
  intros [= <-]. split; [exists k0; left | done].
Qed.

(** *** What an ingest does to the store *)

Lemma ingest_run settings env sg st :
  store_wf (_incidents st) →
  let t := utcnow env (n_clock st) in
  let cutoff := (t - minutes (incident_correlation_window_minutes settings))%Z in
  let out := ingest settings env sg st in
  match find_related_loop (_incidents st) (signal_service sg) (signal_namespace sg)
          cutoff with
  | Some i =>
      action out.2 = "correlated" ∧ answer_incident_id out.2 = incident_id i
      ∧ (n_clock st < n_clock out.1)%nat
      ∧ ∃ i', _incidents out.1 = dict_set (incident_id i) i' (_incidents st)
              ∧ incident_id i' = incident_id i ∧ status i' = status i
              ∧ target_service i' = target_service i
              ∧ target_namespace i' = target_namespace i
              ∧ created_at i' = created_at i
              ∧ event_ids i' = event_ids i ++ [signal_event_id sg]
  | None =>
      action out.2 = "created"
      ∧ n_clock out.1 = (3 + n_clock st)%nat
      ∧ ∃ i', _incidents out.1 = dict_set (incident_id i') i' (_incidents st)
              ∧ answer_incident_id out.2 = incident_id i'
              ∧ is_open (status i') = true
              ∧ target_service i' = signal_service sg
              ∧ target_namespace i' = signal_namespace sg
              ∧ created_at i' = utcnow env (S (n_clock st))
              ∧ event_ids i' = [signal_event_id sg]
  end.
Proof.
  intros [Hnd Hkey]. cbv zeta.
  destruct sg as [e|e];
    cbn [ingest signal_service signal_namespace signal_event_id];
    [unfold receive_anomaly_event | unfold receive_log_analysis_event];
    unfold find_related_incident, now; cbn [_incidents n_clock];
    destruct (find_related_loop (_incidents st) _ _ _) as [i|] eqn:Hf.
  - destruct (find_related_loop_Some _ _ _ _ _ Hf) as ([k Hin] & _).
    pose proof (Hkey k i Hin) as Hid. subst k.
    unfold add_event_to_incident, now. cbn [_incidents n_clock].
    rewrite (dict_get_elem _ _ _ Hnd Hin). cbn.
    repeat split; [lia|].
    match goal with |- ∃ i', dict_set _ ?R _ = _ ∧ _ => exists R end. by cbn.
  - unfold create_incident, maybe_trigger_healing, _trigger_healing, new_uuid, now,
      with_incidents.
    destruct (healing_enabled settings && negb (approval_required settings));
      cbn; (split; [done|]); (split; [done|]);
      match goal with |- ∃ i', dict_set _ ?R _ = _ ∧ _ => exists R end; by cbn.
  - destruct (find_related_loop_Some _ _ _ _ _ Hf) as ([k Hin] & _).
    pose proof (Hkey k i Hin) as Hid. subst k.
    unfold add_event_to_incident, update_incident, now. cbn [_incidents n_clock].
    rewrite (dict_get_elem _ _ _ Hnd Hin). cbn [with_incidents _incidents n_clock].
    rewrite dict_get_set. cbn [with_incidents _incidents n_clock fst snd].
    rewrite dict_set_set. cbn.
    repeat split; [lia|].
    match goal with |- ∃ i', dict_set _ ?R _ = _ ∧ _ => exists R end. by cbn.
  - unfold create_incident, maybe_trigger_healing, _trigger_healing, new_uuid, now,
      with_incidents.
    destruct (healing_enabled settings && negb (approval_required settings));
      cbn; (split; [done|]); (split; [done|]);
      match goal with |- ∃ i', dict_set _ ?R _ = _ ∧ _ => exists R end; by cbn.
Qed.

(** *** The invariant of ingestion *)

Lemma ingest_invariant_step settings env sg st :
  monotone_clock env →
  ingest_invariant env (minutes (incident_correlation_window_minutes settings)) st →
  ingest_invariant env (minutes (incident_correlation_window_minutes settings))
    (ingest settings env sg st).1.
Proof.
  intros Hmono (Hwf & Hclock & Hapart).
  pose proof (ingest_run settings env sg st Hwf) as Hrun. cbv zeta in Hrun.
  destruct (find_related_loop (_incidents st) _ _ _) as [i|] eqn:Hf.
  - destruct Hrun as (_ & _ & Hn & i' & Hstore & Hid & Hst & Hsvc & Hns & Hcr & _).
    destruct (find_related_loop_Some _ _ _ _ _ Hf) as ([k Hin] & _).
    pose proof (proj2 Hwf k i Hin) as Hk. subst k.
    assert (Horig : ∀ k x, (k, x) ∈ _incidents (ingest settings env sg st).1 →
              ∃ x0, (k, x0) ∈ _incidents st ∧ status x = status x0
                    ∧ target_service x = target_service x0
                    ∧ target_namespace x = target_namespace x0
                    ∧ created_at x = created_at x0).
    { intros k x. rewrite Hstore, elem_of_dict_set by apply Hwf.
      intros [[-> ->]|[_ Hx]]; [exists i | exists x]; auto. }
    split; [|split].
    + rewrite Hstore, <- Hid. by apply store_wf_set.
    + intros k x Hx. destruct (Horig k x Hx) as (x0 & Hx0 & _ & _ & _ & ->).
      destruct (Hclock k x0 Hx0) as (j & Hj & ->). exists j. split; [lia|done].
    + intros k1 x1 k2 x2 H1 H2 Hne.
      destruct (Horig k1 x1 H1) as (y1 & Hy1 & -> & -> & -> & ->).
      destruct (Horig k2 x2 H2) as (y2 & Hy2 & -> & -> & -> & ->).
      by apply (Hapart k1 y1 k2 y2).
  - destruct Hrun as (_ & Hn & i' & Hstore & _ & Hopen & Hsvc & Hns & Hcr & _).
    pose proof (proj1 (find_related_loop_None _ _ _ _) Hf) as Hnone.
    assert (Hnew : ∀ k x, (k, x) ∈ _incidents st →
              is_open (status x) = true →
              target_service x = target_service i' →
              target_namespace x = target_namespace i' →
              (minutes (incident_correlation_window_minutes settings)
               < created_at i' - created_at x)%Z).
    { intros k x Hx Ho Hs Hnsx.
      assert (Hlt : ¬ (utcnow env (n_clock st)
                       - minutes (incident_correlation_window_minutes settings)
                       ≤ created_at x)%Z).
      { intros Hle. apply (Hnone k x Hx). rewrite <- Hsvc, <- Hns. auto. }
      pose proof (Hmono (n_clock st) (S (n_clock st))) as Hm. rewrite Hcr. lia. }
    split; [|split].
    + rewrite Hstore. by apply store_wf_set.
    + intros k x. rewrite Hstore, elem_of_dict_set by apply Hwf.
      intros [[-> ->]|[_ Hx]].
      * exists (S (n_clock st)). split; [lia|done].
      * destruct (Hclock k x Hx) as (j & Hj & ->). exists j. split; [lia|done].
    + intros k1 x1 k2 x2. rewrite Hstore, !elem_of_dict_set by apply Hwf.
      intros [[-> ->]|[Hk1 H1]] [[-> ->]|[Hk2 H2]] Hne Ho1 Ho2 Hs Hnsx.
      * done.
      * left. apply (Hnew k2 x2); auto.
      * right. apply (Hnew k1 x1); auto.
      * by apply (Hapart k1 x1 k2 x2).
Qed.

Lemma boot_invariant env window : ingest_invariant env window boot.
Proof.
  split; [|split]; cbn.
  - split; [constructor|]. intros k i Hin. by apply elem_of_nil in Hin.
  - intros k i Hin. by apply elem_of_nil in Hin.
  - intros k1 i1 k2 i2 Hin. by apply elem_of_nil in Hin.
Qed.

Lemma ingest_all_invariant settings env sgs st :
  monotone_clock env →
  ingest_invariant env (minutes (incident_correlation_window_minutes settings)) st →
  ingest_invariant env (minutes (incident_correlation_window_minutes settings))
    (ingest_all settings env sgs st).
Proof.
  intros Hmono. revert st. induction sgs as [|sg sgs IH]; intros st Hst; [done|].
  cbn [ingest_all fold_left]. apply IH. by apply ingest_invariant_step.
Qed.

(** *** Correlation *)

(** An ingest that answers "created" found no stored incident that is open,
    of the signal's target and within the window. *)
Lemma ingest_created_no_match settings env sg st :
  store_wf (_incidents st) →
  action (ingest settings env sg st).2 = "created" →
  ¬ ∃ k i, (k, i) ∈ _incidents st
           ∧ correlates_with sg (utcnow env (n_clock st))
               (minutes (incident_correlation_window_minutes settings)) i.
Proof.
  intros Hwf Hact.
  pose proof (ingest_run settings env sg st Hwf) as Hrun. cbv zeta in Hrun.
  destruct (find_related_loop (_incidents st) _ _ _) as [i|] eqn:Hf.
  - destruct Hrun as (Hact' & _). rewrite Hact' in Hact. discriminate.
  - pose proof (proj1 (find_related_loop_None _ _ _ _) Hf) as Hnone.
    intros (k & i & Hin & Ho' & Hs' & Hn' & Hc'). apply (Hnone k i Hin).
    repeat split; try done. lia.
Qed.

(** C7.  On a store keyed by incident id, a signal is correlated exactly
    when some stored incident is open, has the signal's service and
    namespace, and was created at most the window before the reading of the
    clock, and an incident is created otherwise.  When every open incident of
    the target is older than the window, the handler answers "created" and
    stores a new incident holding the signal's event id; when one is younger
    than the window, it answers "correlated" with the id of a stored incident
    that matches, whose event ids are extended by the signal's. *)
Theorem ingest_correlates_within_window (settings : Settings) (env : Env)
    (sg : Signal) (st : St) :
  store_wf (_incidents st) →
  let t := utcnow env (n_clock st) in
  let window := minutes (incident_correlation_window_minutes settings) in
  let out := ingest settings env sg st in
  ((∃ k i, (k, i) ∈ _incidents st ∧ correlates_with sg t window i)
   ↔ action out.2 = "correlated")
  ∧ ((¬ ∃ k i, (k, i) ∈ _incidents st ∧ correlates_with sg t window i)
     ↔ action out.2 = "created")
  ∧ ((∀ k i, (k, i) ∈ _incidents st →
             open_for (signal_service sg) (signal_namespace sg) i →
             (window < t - created_at i)%Z) →
     action out.2 = "created"
     ∧ ∃ i', dict_get (answer_incident_id out.2) (_incidents out.1) = Some i'
             ∧ open_for (signal_service sg) (signal_namespace sg) i'
             ∧ event_ids i' = [signal_event_id sg])
  ∧ ((∃ k i, (k, i) ∈ _incidents st
             ∧ open_for (signal_service sg) (signal_namespace sg) i
             ∧ (t - created_at i < window)%Z) →
     action out.2 = "correlated"
     ∧ ∃ i i', (answer_incident_id out.2, i) ∈ _incidents st
               ∧ correlates_with sg t window i
               ∧ dict_get (answer_incident_id out.2) (_incidents out.1) = Some i'
               ∧ event_ids i' = event_ids i ++ [signal_event_id sg]).
Proof.
  intros Hwf t window out. subst t window out.
  pose proof (ingest_run settings env sg st Hwf) as Hrun. cbv zeta in Hrun.
  destruct (find_related_loop (_incidents st) _ _ _) as [i|] eqn:Hf.
  - destruct Hrun as (Hact & Hans & _ & i' & Hstore & _ & _ & _ & _ & _ & Hev).
    destruct (find_related_loop_Some _ _ _ _ _ Hf) as ([k Hin] & Ho & Hs & Hn & Hc).
    pose proof (proj2 Hwf k i Hin) as Hk. subst k.
    assert (Hmatch : correlates_with sg (utcnow env (n_clock st))
                       (minutes (incident_correlation_window_minutes settings)) i).
    { unfold correlates_with. repeat split; try done. lia. }
    rewrite Hact, Hans. split; [|split; [|split]].
    + split; [done|]. intros _. by exists (incident_id i), i.
    + split; [|done]. intros Hno. exfalso. apply Hno. by exists (incident_id i), i.
    + intros Hold. exfalso.
      assert ((minutes (incident_correlation_window_minutes settings)
               < utcnow env (n_clock st) - created_at i)%Z).
      { by apply (Hold (incident_id i)). }
      lia.
    + intros _. split; [done|]. exists i, i'.
      rewrite Hstore, dict_get_set. done.
  - destruct Hrun as (Hact & _ & i' & Hstore & Hans & Ho & Hs & Hn & _ & Hev).
    pose proof (proj1 (find_related_loop_None _ _ _ _) Hf) as Hnone.
    assert (Hno : ¬ ∃ k i, (k, i) ∈ _incidents st
                    ∧ correlates_with sg (utcnow env (n_clock st))
                        (minutes (incident_correlation_window_minutes settings)) i).
    { intros (k & i & Hin & Ho' & Hs' & Hn' & Hc'). apply (Hnone k i Hin).
      repeat split; try done. lia. }
    rewrite Hact, Hans. split; [|split; [|split]].
    + split; [done|]. discriminate.
    + done.
    + intros _. split; [done|]. exists i'. rewrite Hstore, dict_get_set. done.
    + intros (k & i & Hin & (Ho' & Hs' & Hn') & Hc'). exfalso. apply Hno.
      exists k, i. split; [done|]. unfold correlates_with.
      repeat split; try done. lia.
Qed.

(** C1 (as the code has it).  After any sequence of ingests from the empty
    store under a monotone clock, at most one open incident of a target was
    created within the correlation window of the next reading of the clock;
    and the next ingest creates an incident only when no stored incident is
    open, of the signal's target and within the window. *)
Theorem one_open_incident_per_target_within_window (settings : Settings) (env : Env)
    (sgs : list Signal) :
  monotone_clock env →
  let st := ingest_all settings env sgs boot in
  let t := utcnow env (n_clock st) in
  let window := minutes (incident_correlation_window_minutes settings) in
  (∀ service namespace k1 i1 k2 i2,
     (k1, i1) ∈ _incidents st → (k2, i2) ∈ _incidents st →
     open_for service namespace i1 → open_for service namespace i2 →
     (t - created_at i1 ≤ window)%Z → (t - created_at i2 ≤ window)%Z →
     k1 = k2 ∧ i1 = i2)
  ∧ (∀ sg, action (ingest settings env sg st).2 = "created" →
           ¬ ∃ k i, (k, i) ∈ _incidents st ∧ correlates_with sg t window i).
Proof.
  intros Hmono st t window. subst st t window.
  destruct (ingest_all_invariant settings env sgs boot Hmono (boot_invariant _ _))
    as (Hwf & Hclock & Hapart).
  split.
  - intros service namespace k1 i1 k2 i2 H1 H2 (Ho1 & Hs1 & Hn1) (Ho2 & Hs2 & Hn2) Hw1 Hw2.
    assert (Hk : k1 = k2).
    { destruct (decide (k1 = k2)) as [|Hne]; [done|]. exfalso.
      destruct (Hclock k1 i1 H1) as (j1 & Hj1 & Hc1).
      destruct (Hclock k2 i2 H2) as (j2 & Hj2 & Hc2).
      pose proof (Hmono j1 (n_clock (ingest_all settings env sgs boot))) as Hm1.
      pose proof (Hmono j2 (n_clock (ingest_all settings env sgs boot))) as Hm2.
      assert (Hd : (minutes (incident_correlation_window_minutes settings)
                    < created_at i1 - created_at i2
                    ∨ minutes (incident_correlation_window_minutes settings)
                      < created_at i2 - created_at i1)%Z).
      { apply (Hapart k1 i1 k2 i2); try done; congruence. }
      lia. }
    split; [done|]. subst k2.
    pose proof (dict_get_elem _ _ _ (proj1 Hwf) H1) as G1.
    pose proof (dict_get_elem _ _ _ (proj1 Hwf) H2) as G2. congruence.
  - intros sg Hcreated.
    by apply ingest_created_no_match.
Qed.

(** *** The scenarios *)

Lemma env_quick_monotone : monotone_clock env_quick.
Proof.
  intros i j Hij. unfold env_quick, utcnow.
  apply Z.mul_le_mono_nonneg_r; [done|].
  apply Nat2Z.inj_le. by apply Nat.Div0.div_le_mono.
Qed.

Lemma one_spike_store : _incidents one_spike = [("uuid-0", first_incident)].
Proof. vm_compute. reflexivity. Qed.

Lemma ingest_correlates_within_window_witness :
  store_wf (_incidents one_spike)
  ∧ (∃ k i, (k, i) ∈ _incidents one_spike
            ∧ open_for "checkout" "default" i
            ∧ (utcnow env_quick (n_clock one_spike) - created_at i
               < minutes (incident_correlation_window_minutes default_settings))%Z)
  ∧ action (ingest default_settings env_quick (Anomaly (spike "e2")) one_spike).2
    = "correlated"
  ∧ event_ids <$> dict_get "uuid-0"
      (_incidents (ingest default_settings env_quick (Anomaly (spike "e2")) one_spike).1)
    = Some ["e1"; "e2"].
Proof.
  assert (Hwf : store_wf (_incidents one_spike)).
  { apply (ingest_all_invariant default_settings env_quick [Anomaly (spike "e1")] boot
             env_quick_monotone (boot_invariant _ _)). }
  assert (Hyoung : ∃ k i, (k, i) ∈ _incidents one_spike
            ∧ open_for "checkout" "default" i
            ∧ (utcnow env_quick (n_clock one_spike) - created_at i
               < minutes (incident_correlation_window_minutes default_settings))%Z).
  { exists "uuid-0", first_incident. rewrite one_spike_store.
    split; [left|]. split; [by vm_compute|]. by vm_compute. }
  split; [exact Hwf|]. split; [exact Hyoung|].
  destruct (ingest_correlates_within_window default_settings env_quick
              (Anomaly (spike "e2")) one_spike Hwf) as (_ & _ & _ & H4).
  destruct (H4 Hyoung) as (Hact & _).
  split; [exact Hact|]. vm_compute. reflexivity.
Defined.

Lemma one_open_incident_per_target_within_window_witness :
  monotone_clock env_quick
  ∧ length (_incidents (two_spikes env_quick)) = 1%nat
  ∧ ∀ service namespace k1 i1 k2 i2,
      (k1, i1) ∈ _incidents (two_spikes env_quick) →
      (k2, i2) ∈ _incidents (two_spikes env_quick) →
      open_for service namespace i1 → open_for service namespace i2 →
      (utcnow env_quick (n_clock (two_spikes env_quick)) - created_at i1
       ≤ minutes (incident_correlation_window_minutes default_settings))%Z →
      (utcnow env_quick (n_clock (two_spikes env_quick)) - created_at i2
       ≤ minutes (incident_correlation_window_minutes default_settings))%Z →
      k1 = k2 ∧ i1 = i2.
Proof.
  split; [exact env_quick_monotone|]. split; [vm_compute; reflexivity|].
  exact (proj1 (one_open_incident_per_target_within_window default_settings env_quick
                  [Anomaly (spike "e1"); Anomaly (spike "e2")] env_quick_monotone)).
Defined.

(** C1 (as stated) fails: of two signals for checkout/default that arrive
    sixteen minutes apart, with the window of fifteen minutes, the second
    does not correlate, and the store then holds two open incidents of that
    target. *)
Lemma two_open_incidents_of_one_target :
  (fun kv : string * Incident =>
     (kv.1, is_open (status kv.2), target_service kv.2, target_namespace kv.2,
      created_at kv.2)) <$> _incidents (two_spikes env_slow)
  = [("uuid-0", true, "checkout", "default", 0%Z);
     ("uuid-1", true, "checkout", "default", minutes 16)].
Proof. vm_compute. reflexivity. Qed.

End IncidentFacts.

(* ===================================================================== *)
(** ** Python lists: slices and the stable sort *)
(* ===================================================================== *)

Module PyListFacts.

Import PyList.

Section Sort.

Context {A : Type} (key : A -> Z).

Lemma insert_desc_Permutation (x : A) l : insert_desc key x l ≡ₚ x :: l.
Proof.
  induction l as [|y l IH]; cbn; [done|].
  destruct (key x <? key y)%Z; [|done].
  rewrite IH. apply Permutation_swap.
Qed.

Lemma sort_desc_Permutation (l : list A) : sort_desc key l ≡ₚ l.
Proof.
  induction l as [|x l IH]; cbn; [done|].
  unfold sort_desc in IH. by rewrite insert_desc_Permutation, IH.
Qed.

Lemma insert_desc_sorted (x : A) l :
  StronglySorted (fun a b => (key b ≤ key a)%Z) l →
  StronglySorted (fun a b => (key b ≤ key a)%Z) (insert_desc key x l).
Proof.
  induction 1 as [|y l Hs IH Hall]; cbn.
  - repeat constructor.
  - destruct (Z.ltb_spec (key x) (key y)) as [Hlt|Hge].
    + constructor; [done|].
      rewrite insert_desc_Permutation. constructor; [lia|done].
    + constructor; [by constructor|].
      constructor; [lia|].
      eapply Forall_impl; [exact Hall|]. cbn. intros; lia.
Qed.

Lemma sort_desc_sorted (l : list A) :
  StronglySorted (fun a b => (key b ≤ key a)%Z) (sort_desc key l).
Proof.
  induction l as [|x l IH]; cbn; [constructor|]. by apply insert_desc_sorted.
Qed.

(** The sort is stable: the elements of one key keep their order. *)
Lemma insert_desc_stable (k : Z) (x : A) l :
  filter (fun y => key y = k) (insert_desc key x l)
  = filter (fun y => key y = k) (x :: l).
Proof.
  induction l as [|y l IH]; cbn; [done|].
  destruct (Z.ltb_spec (key x) (key y)) as [Hlt|Hge]; [|done].
  rewrite (filter_cons _ y), IH, !filter_cons.
  repeat case_decide; try done; lia.
Qed.

Lemma sort_desc_stable (k : Z) (l : list A) :
  filter (fun y => key y = k) (sort_desc key l) = filter (fun y => key y = k) l.
Proof.
  induction l as [|x l IH]; cbn; [done|].
  unfold sort_desc in IH. rewrite insert_desc_stable, !filter_cons, IH. done.
Qed.

Lemma sort_desc_length (l : list A) : length (sort_desc key l) = length l.
Proof. by rewrite sort_desc_Permutation. Qed.

End Sort.

Lemma slice_take_drop {A} (start stop : Z) (l : list A) :
  (0 ≤ start ≤ stop)%Z →
  slice start stop l = take (Z.to_nat (stop - start)) (drop (Z.to_nat start) l).
Proof.
  intros H. unfold slice, clamp_index.
  destruct (Z.ltb_spec start 0); [lia|].
  destruct (Z.ltb_spec stop 0); [lia|].
  destruct (Z.le_gt_cases start (Z.of_nat (length l))) as [Hs|Hs].
  - rewrite (Z.min_l start) by lia.
    destruct (Z.le_gt_cases stop (Z.of_nat (length l))) as [He|He].
    + by rewrite (Z.min_l stop) by lia.
    + rewrite (Z.min_r stop) by lia.
      rewrite !take_ge; [done| |]; rewrite length_drop; lia.
  - rewrite (Z.min_r start) by lia.
    rewrite !drop_ge by lia. by rewrite !take_nil.
Qed.

Lemma slice_sublist {A} (start stop : Z) (l : list A) :
  slice start stop l `sublist_of` l.
Proof.
  unfold slice. etrans; [apply sublist_take | apply sublist_drop].
Qed.

Lemma StronglySorted_sublist {A} (R : relation A) (l1 l2 : list A) :
  l1 `sublist_of` l2 → StronglySorted R l2 → StronglySorted R l1.
Proof.
  induction 1 as [|x l1 l2 Hsub IH|x l1 l2 Hsub IH]; intros Hs; [done| |].
  - apply StronglySorted_inv in Hs as [Hs Hall]. constructor; [by apply IH|].
    rewrite Forall_forall in *. intros y Hy. apply Hall.
    by apply (sublist_subseteq _ _ Hsub).
  - apply StronglySorted_inv in Hs as [Hs _]. by apply IH.
Qed.

End PyListFacts.

(* ===================================================================== *)
(** ** The incident store: listing, counting, deletion *)
(* ===================================================================== *)

Module IncidentStoreFacts.

Import PyStr IncidentManager IncidentStore IncidentQueryTerms DescribedIncidents.

Lemma filter_true {A} (l : list A) : List.filter (fun _ => true) l = l.
Proof. induction l as [|x l IH]; cbn; [done|]. by rewrite IH. Qed.

Lemma filter_and {A} (f g : A -> bool) (l : list A) :
  List.filter g (List.filter f l) = List.filter (fun x => f x && g x) l.
Proof.
  induction l as [|x l IH]; cbn; [done|].
  destruct (f x); cbn; [destruct (g x)|]; by rewrite IH.
Qed.

Lemma filter_opt {A B} (o : option B) (p : B -> A -> bool) (l : list A) :
  match o with Some s => List.filter (p s) l | None => l end
  = List.filter (fun x => match o with Some s => p s x | None => true end) l.
Proof. destruct o; [done|]. by rewrite filter_true. Qed.

(** The three filtering steps select the incidents that pass. *)
Lemma filters_passes status severity service (l : list Incident) :
  match service with
  | Some s =>
      if truthy s
      then List.filter (fun i => String.eqb (target_service i) s)
             match severity with
             | Some s => List.filter (fun i => bool_decide (IncidentManager.severity i = s))
                           match status with
                           | Some s => List.filter (fun i => bool_decide (IncidentManager.status i = s)) l
                           | None => l
                           end
             | None => match status with
                       | Some s => List.filter (fun i => bool_decide (IncidentManager.status i = s)) l
                       | None => l
                       end
             end
      else match severity with
           | Some s => List.filter (fun i => bool_decide (IncidentManager.severity i = s))
                         match status with
                         | Some s => List.filter (fun i => bool_decide (IncidentManager.status i = s)) l
                         | None => l
                         end
           | None => match status with
                     | Some s => List.filter (fun i => bool_decide (IncidentManager.status i = s)) l
                     | None => l
                     end
           end
  | None => match severity with
            | Some s => List.filter (fun i => bool_decide (IncidentManager.severity i = s))
                          match status with
                          | Some s => List.filter (fun i => bool_decide (IncidentManager.status i = s)) l
                          | None => l
                          end
            | None => match status with
                      | Some s => List.filter (fun i => bool_decide (IncidentManager.status i = s)) l
                      | None => l
                      end
            end
  end = List.filter (passes status severity service) l.
Proof.
  rewrite (filter_opt status (fun s i => bool_decide (IncidentManager.status i = s))).
  rewrite (filter_opt severity (fun s i => bool_decide (IncidentManager.severity i = s))).
  rewrite filter_and.
  destruct service as [s|]; [destruct (truthy s) eqn:Ht|]; rewrite ?filter_and;
    apply List.filter_ext; intros i; unfold passes; rewrite ?Ht; cbn;
    by rewrite ?andb_true_r.
Qed.

Lemma list_incidents_slice status severity service page page_size st :
  list_incidents status severity service page page_size st
  = PyList.slice ((page - 1) * page_size) ((page - 1) * page_size + page_size)
      (PyList.sort_desc created_at
         (List.filter (passes status severity service) (values st))).
Proof. unfold list_incidents. cbv zeta. by rewrite filters_passes. Qed.

Lemma count_incidents_length status severity service st :
  count_incidents status severity service st
  = length (List.filter (passes status severity service) (values st)).
Proof. unfold count_incidents. cbv zeta. by rewrite filters_passes. Qed.

Lemma listing_sorted status severity service st :
  listing status severity service st
  = PyList.sort_desc created_at
      (List.filter (passes status severity service) (values st)).
Proof.
  unfold listing. rewrite list_incidents_slice, count_incidents_length.
  rewrite PyListFacts.slice_take_drop by lia.
  replace ((1 - 1) * _)%Z with 0%Z by lia.
  change (Z.to_nat 0) with 0%nat. rewrite drop_0.
  apply take_ge. rewrite PyListFacts.sort_desc_length. lia.
Qed.

(** X1.  The complete listing (the first page, of the size
    [count_incidents] reports) holds exactly the stored incidents that pass
    the filters given, each as often as it is stored; it has as many entries
    as [count_incidents] counts; it is ordered newest first; and incidents
    created at the same instant come in the order they were stored. *)
Theorem listing_complete_newest_first (status : option IncidentStatus)
    (severity : option IncidentSeverity) (service : option string) (st : St) :
  listing status severity service st
    ≡ₚ List.filter (passes status severity service) (values st)
  ∧ length (listing status severity service st)
    = count_incidents status severity service st
  ∧ newest_first (listing status severity service st)
  ∧ ∀ t, filter (fun i => created_at i = t) (listing status severity service st)
         = filter (fun i => created_at i = t)
             (List.filter (passes status severity service) (values st)).
Proof.
  rewrite listing_sorted, count_incidents_length. split; [|split; [|split]].
  - apply PyListFacts.sort_desc_Permutation.
  - apply PyListFacts.sort_desc_length.
  - apply PyListFacts.sort_desc_sorted.
  - intros t. apply PyListFacts.sort_desc_stable.
Qed.

(** X2.  With the bounds the endpoint validates ([page >= 1],
    [1 <= page_size <= 100]), page [page] of [GET /incidents] is the chunk of
    the complete listing that starts after [(page - 1) * page_size] entries:
    at most [page_size] entries, [total] the length of the complete listing,
    and no entry once the pages before hold them all. *)
Theorem list_incidents_pages (status : option IncidentStatus)
    (severity : option IncidentSeverity) (service : option string)
    (page page_size : Z) (st : St) :
  (1 ≤ page)%Z → (1 ≤ page_size ≤ 100)%Z →
  let r := IncidentRoutes.list_incidents status severity service page page_size st in
  IncidentRoutes.incidents r
  = take (Z.to_nat page_size)
      (drop (Z.to_nat ((page - 1) * page_size)) (listing status severity service st))
  ∧ IncidentRoutes.total r = length (listing status severity service st)
  ∧ (length (IncidentRoutes.incidents r) ≤ Z.to_nat page_size)%nat
  ∧ ((Z.of_nat (IncidentRoutes.total r) ≤ (page - 1) * page_size)%Z →
     IncidentRoutes.incidents r = []).
Proof.
  intros Hp Hs r. subst r. cbn [IncidentRoutes.list_incidents IncidentRoutes.incidents
                                 IncidentRoutes.total].
  rewrite listing_sorted, list_incidents_slice, count_incidents_length.
  rewrite PyListFacts.slice_take_drop by nia.
  replace ((page - 1) * page_size + page_size - (page - 1) * page_size)%Z
    with page_size by lia.
  split; [done|]. split; [by rewrite PyListFacts.sort_desc_length|]. split.
  - rewrite length_take. lia.
  - intros Hle. rewrite drop_ge; [apply take_nil|].
    rewrite PyListFacts.sort_desc_length. lia.
Qed.

(** *** Counting *)

Lemma fold_bump_lookup (f : Incident -> string) (l : list Incident)
    (c0 : gmap string nat) (k : string) :
  foldl (fun counts i => bump (f i) counts) c0 l !! k
  = match c0 !! k, length (List.filter (fun i => String.eqb (f i) k) l) with
    | None, O => None
    | o, n => Some (default 0 o + n)%nat
    end.
Proof.
  revert c0. induction l as [|a l IH]; intros c0; cbn.
  - destruct (c0 !! k); cbn; [f_equal; lia|done].
  - rewrite IH. unfold bump. destruct (String.eqb_spec (f a) k) as [->|Hne].
    + rewrite lookup_insert_eq. cbn [length].
      destruct (c0 !! k); cbn; f_equal; lia.
    + by rewrite lookup_insert_ne.
Qed.

Lemma sum_counts_bump k (c : gmap string nat) :
  sum_counts (bump k c) = S (sum_counts c).
Proof.
  assert (Hcomm : ∀ (m : gmap string nat) (j1 j2 : string) (z1 z2 y : nat),
             j1 ≠ j2 → m !! j1 = Some z1 → m !! j2 = Some z2 →
             (z1 + (z2 + y) = z2 + (z1 + y))%nat) by (intros; lia).
  unfold sum_counts, bump. destruct (c !! k) as [n|] eqn:Hk; cbn.
  - rewrite <- insert_delete_eq.
    rewrite map_fold_insert_L; [|by eauto|by rewrite lookup_delete_eq].
    rewrite (map_fold_delete_L _ _ k n c); [lia|by eauto|done].
  - rewrite map_fold_insert_L; [done|by eauto|done].
Qed.

Lemma sum_counts_fold (f : Incident -> string) (l : list Incident) c0 :
  sum_counts (foldl (fun counts i => bump (f i) counts) c0 l)
  = (length l + sum_counts c0)%nat.
Proof.
  revert c0. induction l as [|a l IH]; intros c0; cbn; [done|].
  rewrite IH, sum_counts_bump. lia.
Qed.

Lemma status_value_eqb a s :
  String.eqb (status_value a) (status_value s) = bool_decide (a = s).
Proof. by destruct a, s. Qed.

Lemma severity_value_eqb a s :
  String.eqb (severity_value a) (severity_value s) = bool_decide (a = s).
Proof. by destruct a, s. Qed.

Lemma filter_nonempty_elem {A} (p : A -> bool) (l : list A) :
  length (List.filter p l) ≠ 0%nat → ∃ x, x ∈ l ∧ p x = true.
Proof.
  induction l as [|x l IH]; cbn; [done|].
  destruct (p x) eqn:Hp.
  - intros _. exists x. split; [left|done].
  - intros H. destruct (IH H) as (y & Hy & Hpy). exists y. split; [by right|done].
Qed.

(** X3.  The tables of [count_by_status] and [count_by_severity] hold,
    for each status and each severity that some stored incident has, the
    number [count_incidents] reports for it, hold no entry for one that no
    incident has, and have no other key. *)
Theorem counts_by_status_and_severity (st : St) :
  (∀ s, count_by_status st !! status_value s
        = match count_incidents (Some s) None None st with
          | O => None
          | n => Some n
          end)
  ∧ (∀ v, count_by_severity st !! severity_value v
          = match count_incidents None (Some v) None st with
            | O => None
            | n => Some n
            end)
  ∧ (∀ k n, count_by_status st !! k = Some n → ∃ s, k = status_value s)
  ∧ (∀ k n, count_by_severity st !! k = Some n → ∃ v, k = severity_value v).
Proof.
  unfold count_by_status, count_by_severity. split; [|split; [|split]].
  - intros s. rewrite fold_bump_lookup, lookup_empty, count_incidents_length.
    rewrite (List.filter_ext _ (passes (Some s) None None))
      by (intros; unfold passes; by rewrite status_value_eqb, !andb_true_r).
    by destruct (length _).
  - intros v. rewrite fold_bump_lookup, lookup_empty, count_incidents_length.
    rewrite (List.filter_ext _ (passes None (Some v) None))
      by (intros; unfold passes; by rewrite severity_value_eqb, !andb_true_r).
    by destruct (length _).
  - intros k n. rewrite fold_bump_lookup, lookup_empty.
    destruct (length _) eqn:Hl; [done|]. intros _.
    destruct (filter_nonempty_elem _ (values st) ltac:(rewrite Hl; done))
      as (i & _ & Hi).
    apply String.eqb_eq in Hi. by eexists.
  - intros k n. rewrite fold_bump_lookup, lookup_empty.
    destruct (length _) eqn:Hl; [done|]. intros _.
    destruct (filter_nonempty_elem _ (values st) ltac:(rewrite Hl; done))
      as (i & _ & Hi).
    apply String.eqb_eq in Hi. by eexists.
Qed.

Lemma count_active_split (l : list Incident) :
  (sum_list_with (fun i => if is_open (IncidentManager.status i) then 1 else 0) l
   + length (List.filter (fun i => String.eqb (status_value (IncidentManager.status i))
                                     "resolved") l)
   + length (List.filter (fun i => String.eqb (status_value (IncidentManager.status i))
                                     "failed") l)
   = length l)%nat.
Proof.
  induction l as [|i l IH]; cbn; [done|].
  destruct (IncidentManager.status i); cbn; lia.
Qed.

Lemma sum_list_with_indicator_le {A} (p : A -> bool) (l : list A) :
  (sum_list_with (fun x => if p x then 1 else 0) l ≤ length l)%nat.
Proof. induction l as [|x l IH]; cbn; [done|]. destruct (p x); lia. Qed.

(** X4.  The figures of [GET /stats] agree with each other: the counts
    by status add up to the total, and so do the counts by severity; the
    active incidents and the incidents counted as ["resolved"] and as
    ["failed"] add up to the total; the incidents of the last 24 hours are
    at most the total, which is the size of the store; and the store is left
    as it was. *)
Theorem stats_agree (env : Env) (st : St) :
  let out := IncidentRoutes.get_incident_stats env st in
  let s := out.2 in
  _incidents out.1 = _incidents st
  ∧ IncidentRoutes.total_incidents s = length (_incidents st)
  ∧ sum_counts (IncidentRoutes.by_status s) = IncidentRoutes.total_incidents s
  ∧ sum_counts (IncidentRoutes.by_severity s) = IncidentRoutes.total_incidents s
  ∧ (IncidentRoutes.active_incidents s
     + default 0 (IncidentRoutes.by_status s !! "resolved")
     + default 0 (IncidentRoutes.by_status s !! "failed")
     = IncidentRoutes.total_incidents s)%nat
  ∧ (IncidentRoutes.last_24h s ≤ IncidentRoutes.total_incidents s)%nat.
Proof.
  cbv zeta. unfold IncidentRoutes.get_incident_stats, count_recent, now. cbn.
  unfold count_by_status, count_by_severity, count_active, values. cbn.
  rewrite !sum_counts_fold, !fold_bump_lookup, !lookup_empty, !length_fmap.
  split; [done|]. split; [done|]. split; [done|]. split; [done|]. split.
  - pose proof (count_active_split (_incidents st).*2) as H.
    rewrite length_fmap in H.
    destruct (length (List.filter (fun i => String.eqb _ "resolved") _)) as [|n1];
      destruct (length (List.filter (fun i => String.eqb _ "failed") _)) as [|n2];
      cbn; lia.
  - pose proof (sum_list_with_indicator_le
                  (fun i => (utcnow env (n_clock st) - hours 24 <=? created_at i)%Z)
                  (_incidents st).*2) as H.
    by rewrite length_fmap in H.
Qed.

(** *** Creation, lookup, deletion *)

Lemma dict_get_set_ne k k' v d :
  k' ≠ k → dict_get k' (dict_set k v d) = dict_get k' d.
Proof.
  intros Hne. induction d as [|[k0 v0] d IH]; cbn.
  - destruct (String.eqb_spec k k'); [congruence|done].
  - destruct (String.eqb_spec k0 k) as [->|H0]; cbn.
    + destruct (String.eqb_spec k k'); [congruence|done].
    + destruct (String.eqb_spec k0 k'); [done|apply IH].
Qed.

Lemma dict_get_del k d : dict_get k (dict_del k d) = None.
Proof.
  induction d as [|[k0 v0] d IH]; cbn; [done|].
  destruct (String.eqb_spec k0 k) as [->|H0]; cbn; [done|].
  destruct (String.eqb_spec k0 k); [done|apply IH].
Qed.

Lemma dict_get_del_ne k k' d : k' ≠ k → dict_get k' (dict_del k d) = dict_get k' d.
Proof.
  intros Hne. induction d as [|[k0 v0] d IH]; cbn; [done|].
  destruct (String.eqb_spec k0 k) as [->|H0]; cbn.
  - destruct (String.eqb_spec k k'); [congruence|apply IH].
  - destruct (String.eqb_spec k0 k'); [done|apply IH].
Qed.

Lemma dict_del_sublist k d : dict_del k d `sublist_of` d.
Proof.
  induction d as [|[k0 v0] d IH]; cbn; [done|].
  destruct (String.eqb k0 k); [by apply sublist_cons|by apply sublist_skip].
Qed.

Lemma dict_set_length k v d :
  length (dict_set k v d)
  = match dict_get k d with
    | Some _ => length d
    | None => S (length d)
    end.
Proof.
  induction d as [|[k0 v0] d IH]; cbn; [done|].
  destruct (String.eqb_spec k0 k) as [->|H0]; cbn; [done|].
  rewrite IH. by destruct (dict_get k d).
Qed.

(** X5.  [delete_incident] reports whether the id was stored; afterwards
    the id is not found, every other id is found as before, and no incident
    appears that was not stored; deleting an id that is not stored changes
    nothing. *)
Theorem delete_incident_forgets (iid : string) (st : St) :
  let out := delete_incident iid st in
  out.2 = bool_decide (is_Some (get_incident iid st))
  ∧ get_incident iid out.1 = None
  ∧ (∀ iid', iid' ≠ iid → get_incident iid' out.1 = get_incident iid' st)
  ∧ values out.1 `sublist_of` values st
  ∧ (out.2 = false → out.1 = st).
Proof.
  cbv zeta. unfold delete_incident, get_incident, values.
  destruct (dict_get iid (_incidents st)) as [i|] eqn:Hget; cbn.
  - split; [done|]. split; [apply dict_get_del|].
    split; [intros; by apply dict_get_del_ne|].
    split; [|done]. apply (fmap_sublist snd), dict_del_sublist.
  - split; [done|]. split; [done|]. done.
Qed.

(** X6.  [create_incident] stores the incident under its id and returns
    it: the id is then found with that incident, every other id is found as
    before, and the store grows by one entry exactly when the id was not
    stored before; an incident already stored under the id is replaced
    without notice. *)
Theorem create_incident_then_get (incident : Incident) (st : St) :
  let out := create_incident incident st in
  out.2 = incident
  ∧ get_incident (incident_id incident) out.1 = Some incident
  ∧ (∀ iid', iid' ≠ incident_id incident →
             get_incident iid' out.1 = get_incident iid' st)
  ∧ length (_incidents out.1)
    = match get_incident (incident_id incident) st with
      | Some _ => length (_incidents st)
      | None => S (length (_incidents st))
      end.
Proof.
  cbv zeta. unfold create_incident, get_incident. cbn.
  split; [done|]. split; [apply IncidentFacts.dict_get_set|].
  split; [intros; by apply dict_get_set_ne|]. apply dict_set_length.
Qed.

(** *** Updates *)



End IncidentStoreFacts.

(* ===================================================================== *)
(** ** The incident manager: management endpoints *)
(* ===================================================================== *)

Module IncidentRoutesFacts.

Import PyStr IncidentManager IncidentQueryTerms DescribedIncidents.
Import IncidentRoutes.

(** X8.  [PATCH /incidents/{id}] answers 404 for an id that is not stored
    and leaves the store as it was.  For a stored id it answers with the
    incident it stores: the status and the severity are the ones given (the
    old ones where none is given), [resolved_at] is set to the time of the
    request when the status given is RESOLVED and is otherwise kept, also
    when a resolved incident is given another status; and [updated_at] is
    rewritten even when nothing is given. *)
Theorem patch_incident_fields (env : Env) (iid : string)
    (status : option IncidentStatus) (severity : option IncidentSeverity) (st : St) :
  let out := IncidentRoutes.update_incident env iid status severity st in
  match IncidentManager.get_incident iid st with
  | None =>
      out.2 = HTTPError 404 "Incident not found" ∧ _incidents out.1 = _incidents st
  | Some i =>
      ∃ i', out.2 = Ok i'
            ∧ IncidentManager.get_incident iid out.1 = Some i'
            ∧ IncidentManager.status i' = default (IncidentManager.status i) status
            ∧ IncidentManager.severity i' = default (IncidentManager.severity i) severity
            ∧ resolved_at i'
              = match status with
                | Some RESOLVED => Some (utcnow env (n_clock st))
                | _ => resolved_at i
                end
            ∧ updated_at i'
              = match status with
                | Some RESOLVED => utcnow env (S (n_clock st))
                | _ => utcnow env (n_clock st)
                end
            ∧ incident_id i' = incident_id i
            ∧ target_service i' = target_service i
            ∧ target_namespace i' = target_namespace i
            ∧ created_at i' = created_at i
            ∧ event_ids i' = event_ids i
  end.
Proof.
  cbv zeta. unfold IncidentRoutes.update_incident, IncidentManager.update_incident,
    IncidentManager.get_incident, now.
  destruct (dict_get iid (_incidents st)) as [i|] eqn:Hget.
  - destruct status as [s|], severity as [v|]; cbn;
      try (case_bool_decide as Hs; [subst s|destruct s; try done]);
      cbn; rewrite ?Hget; cbn;
      (eexists; split; [done|]; split; [apply IncidentFacts.dict_get_set|]; by cbn).
  - destruct status as [s|], severity as [v|]; cbn;
      try case_bool_decide; cbn; by rewrite ?Hget.
Qed.

Lemma closed_never_related d iid (i' : Incident) service namespace cutoff r :
  store_wf d →
  IncidentManager.status i' = RESOLVED →
  find_related_loop (dict_set iid i' d) service namespace cutoff = Some r →
  incident_id r ≠ iid.
Proof.
  intros [Hnd Hkey] Hst Hf.
  destruct (IncidentFacts.find_related_loop_Some _ _ _ _ _ Hf) as ([k Hin] & Hopen & _).
  apply (IncidentFacts.elem_of_dict_set _ _ _ _ _ Hnd) in Hin
    as [[-> ->]|[Hne Hin]].
  - by rewrite Hst in Hopen.
  - by rewrite (Hkey _ _ Hin).
Qed.

(** X9.  [DELETE /incidents/{id}] answers 404 for an id that is not
    stored and leaves the store as it was.  It closes a stored incident
    whatever its status: the incident becomes RESOLVED, [resolved_at] is the
    time of the request (again, if it was resolved already), its target and
    creation time stay; the store stays keyed by incident id; and no later
    search for a related incident returns the closed one. *)
Theorem close_incident_resolves (env : Env) (iid : string) (st : St) :
  store_wf (_incidents st) →
  let out := IncidentRoutes.close_incident env iid st in
  match IncidentManager.get_incident iid st with
  | None =>
      out.2 = HTTPError 404 "Incident not found" ∧ _incidents out.1 = _incidents st
  | Some i =>
      out.2 = Ok {| ack_status := "closed"; ack_incident_id := iid |}
      ∧ (∃ i', IncidentManager.get_incident iid out.1 = Some i'
               ∧ IncidentManager.status i' = RESOLVED
               ∧ resolved_at i' = Some (utcnow env (n_clock st))
               ∧ updated_at i' = utcnow env (S (n_clock st))
               ∧ target_service i' = target_service i
               ∧ target_namespace i' = target_namespace i
               ∧ created_at i' = created_at i)
      ∧ store_wf (_incidents out.1)
      ∧ ∀ service namespace cutoff r,
          find_related_loop (_incidents out.1) service namespace cutoff = Some r →
          incident_id r ≠ iid
  end.
Proof.
  intros Hwf. cbv zeta.
  unfold IncidentRoutes.close_incident, IncidentManager.update_incident,
    IncidentManager.get_incident, now. cbn.
  destruct (dict_get iid (_incidents st)) as [i|] eqn:Hget; cbn; [|done].
  assert (Hid : incident_id i = iid).
  { destruct Hwf as [_ Hkey]. by apply Hkey, IncidentFacts.dict_get_Some_elem. }
  split; [done|]. split; [|split].
  - eexists. split; [apply IncidentFacts.dict_get_set|]. by cbn.
  - rewrite <- Hid at 1.
    match goal with
    | |- store_wf (dict_set _ ?R _) =>
        change (incident_id i) with (incident_id R)
    end.
    by apply IncidentFacts.store_wf_set.
  - intros service namespace cutoff r Hf.
    by eapply closed_never_related in Hf.
Qed.

(** X10.  [POST /incidents/{id}/heal] answers 404 for an id that is not
    stored and 400 for an incident that is RESOLVED, without calling the
    agent.  For any other stored incident, a FAILED one included, it posts
    the incident to the agent once and answers ["healing_triggered"] whatever
    the agent does; the result says [triggered] exactly when the agent
    answered 200, 201 or 202 with a body that parses.  The store is never
    changed. *)
Theorem manual_heal_outcome (agent : nat -> AgentResponse) (iid : string) (st : St) :
  let out := IncidentRoutes.trigger_incident_healing agent iid st in
  _incidents out.1 = _incidents st
  ∧ match IncidentManager.get_incident iid st with
    | None =>
        out.2 = HTTPError 404 "Incident not found" ∧ triggered out.1 = triggered st
    | Some i =>
        if bool_decide (IncidentManager.status i = RESOLVED)
        then out.2 = HTTPError 400 "Incident already resolved"
             ∧ triggered out.1 = triggered st
        else
          ∃ result,
            out.2 = Ok ({| ack_status := "healing_triggered"; ack_incident_id := iid |},
                        result)
            ∧ triggered out.1 = triggered st ++ [i]
            ∧ (result_triggered result = true
               ↔ ∃ code text body,
                   agent (length (triggered st)) = Responded code text (inr body)
                   ∧ (code = 200 ∨ code = 201 ∨ code = 202)%Z)
    end.
Proof.
  cbv zeta. unfold IncidentRoutes.trigger_incident_healing, IncidentManager.get_incident.
  destruct (dict_get iid (_incidents st)) as [i|]; [|done].
  destruct (bool_decide (IncidentManager.status i = RESOLVED)); [done|].
  unfold IncidentRoutes._trigger_healing, IncidentManager._trigger_healing.
  destruct (agent (length (triggered st))) as [code text [msg|body]|msg]; cbn;
    try case_bool_decide; cbn; (split; [done|]); eexists; (split; [done|]);
    (split; [done|]); cbn; split; try done.
  all: try (intros (c & t & b & Heq & Hc); congruence).
  intros _. by exists code, text, body.
Qed.

(** *** Ingestion and the automatic trigger *)

Lemma ingest_triggered settings env sg st :
  let out := ingest settings env sg st in
  (action out.2 = "correlated"
   ∧ triggered out.1 = triggered st ∧ n_uuid out.1 = n_uuid st)
  ∨ (action out.2 = "created"
     ∧ n_uuid out.1 = S (n_uuid st)
     ∧ ∃ i, IncidentManager.get_incident (answer_incident_id out.2) out.1 = Some i
            ∧ incident_id i = uuid4 env (n_uuid st)
            ∧ triggered out.1
              = triggered st
                ++ (if healing_enabled settings && negb (approval_required settings)
                    then [i] else [])).
Proof.
  cbv zeta.
  destruct sg as [e|e]; cbn [ingest];
    [unfold receive_anomaly_event | unfold receive_log_analysis_event];
    unfold find_related_incident, now; cbn [_incidents n_clock];
    destruct (find_related_loop (_incidents st) _ _ _) as [i|] eqn:Hf.
  - left. unfold add_event_to_incident, now. cbn [_incidents n_clock].
    by destruct (dict_get (incident_id i) (_incidents st)).
  - right. unfold create_incident, maybe_trigger_healing, _trigger_healing, new_uuid,
      now, with_incidents, IncidentManager.get_incident.
    destruct (healing_enabled settings && negb (approval_required settings)); cbn;
      (split; [done|]); (split; [done|]); eexists;
      (split; [apply IncidentFacts.dict_get_set|]); cbn; by rewrite ?app_nil_r.
  - left. unfold add_event_to_incident, IncidentManager.update_incident, now.
    cbn [_incidents n_clock].
    destruct (dict_get (incident_id i) (_incidents st)) eqn:Hg;
      cbn [with_incidents _incidents n_clock fst snd];
      [by rewrite IncidentFacts.dict_get_set|by rewrite Hg].
  - right. unfold create_incident, maybe_trigger_healing, _trigger_healing, new_uuid,
      now, with_incidents, IncidentManager.get_incident.
    destruct (healing_enabled settings && negb (approval_required settings)); cbn;
      (split; [done|]); (split; [done|]); eexists;
      (split; [apply IncidentFacts.dict_get_set|]); cbn; by rewrite ?app_nil_r.
Qed.

Lemma ingest_all_triggered settings env sgs st :
  (n_uuid st ≤ n_uuid (ingest_all settings env sgs st))%nat
  ∧ length (triggered (ingest_all settings env sgs st))
    = (length (triggered st)
       + if healing_enabled settings && negb (approval_required settings)
         then n_uuid (ingest_all settings env sgs st) - n_uuid st
         else 0)%nat.
Proof.
  revert st. induction sgs as [|sg sgs IH]; intros st.
  - cbn. destruct (_ && _); lia.
  - change (ingest_all settings env (sg :: sgs) st)
      with (ingest_all settings env sgs (ingest settings env sg st).1).
    destruct (IH (ingest settings env sg st).1) as [Hle Hlen].
    rewrite Hlen.
    destruct (ingest_triggered settings env sg st)
      as [(_ & Ht & Hu)|(_ & Hu & i & _ & _ & Ht)]; rewrite Ht, Hu in *.
    + done.
    + rewrite length_app. destruct (_ && _); cbn; lia.
Qed.

(** X11.  Ingesting a signal calls the agent only when it creates an
    incident, and then only if healing is enabled and needs no approval: a
    signal that is correlated into an incident triggers nothing; a signal
    that creates one triggers the healing of the incident it stored, under
    these settings, and nothing otherwise.  So over any sequence of signals
    as many healings are triggered as incidents are created (ids drawn)
    under these settings, and none otherwise. *)
Theorem ingest_triggers_on_creation_only (settings : Settings) (env : Env) :
  (∀ sg st,
     let out := ingest settings env sg st in
     (action out.2 = "correlated" ∧ triggered out.1 = triggered st)
     ∨ (action out.2 = "created"
        ∧ ∃ i, IncidentManager.get_incident (answer_incident_id out.2) out.1 = Some i
               ∧ triggered out.1
                 = triggered st
                   ++ (if healing_enabled settings && negb (approval_required settings)
                       then [i] else [])))
  ∧ (∀ sgs st,
       length (triggered (ingest_all settings env sgs st))
       = (length (triggered st)
          + if healing_enabled settings && negb (approval_required settings)
            then n_uuid (ingest_all settings env sgs st) - n_uuid st
            else 0)%nat).
Proof.
  split.
  - intros sg st.
    destruct (ingest_triggered settings env sg st)
      as [(Ha & Ht & _)|(Ha & _ & i & Hg & _ & Ht)]; [by left|].
    right. split; [done|]. by exists i.
  - intros sgs st. apply ingest_all_triggered.
Qed.

(** X12.  When a signal is correlated into an incident, the incident
    stored afterwards lists the event of the signal last, and its
    [event_count] is the number of its event ids, whatever count it held
    before (an incident created from a log analysis holds the [error_count]
    of its signal). *)
Theorem correlated_event_count (settings : Settings) (env : Env) (sg : Signal)
    (st : St) :
  store_wf (_incidents st) →
  let out := ingest settings env sg st in
  action out.2 = "correlated" →
  ∃ i', IncidentManager.get_incident (answer_incident_id out.2) out.1 = Some i'
        ∧ last (event_ids i') = Some (signal_event_id sg)
        ∧ event_count i' = Z.of_nat (length (event_ids i')).
Proof.
  intros [Hnd Hkey]. cbv zeta. unfold IncidentManager.get_incident.
  destruct sg as [e|e]; cbn [ingest signal_event_id];
    [unfold receive_anomaly_event | unfold receive_log_analysis_event];
    unfold find_related_incident, now; cbn [_incidents n_clock];
    destruct (find_related_loop (_incidents st) _ _ _) as [i|] eqn:Hf.
  - intros _.
    destruct (IncidentFacts.find_related_loop_Some _ _ _ _ _ Hf) as ([k Hin] & _).
    pose proof (Hkey k i Hin) as Hid. subst k.
    unfold add_event_to_incident, now. cbn [_incidents n_clock].
    rewrite (IncidentFacts.dict_get_elem _ _ _ Hnd Hin). cbn.
    eexists. split; [apply IncidentFacts.dict_get_set|]. cbn.
    by rewrite last_snoc.
  - unfold create_incident, maybe_trigger_healing, new_uuid, now.
    destruct (_ && _); cbn; done.
  - intros _.
    destruct (IncidentFacts.find_related_loop_Some _ _ _ _ _ Hf) as ([k Hin] & _).
    pose proof (Hkey k i Hin) as Hid. subst k.
    unfold add_event_to_incident, IncidentManager.update_incident, now.
    cbn [_incidents n_clock].
    rewrite (IncidentFacts.dict_get_elem _ _ _ Hnd Hin).
    cbn [with_incidents _incidents n_clock].
    rewrite IncidentFacts.dict_get_set. cbn [with_incidents _incidents n_clock fst snd].
    eexists. split; [apply IncidentFacts.dict_get_set|]. cbn.
    by rewrite last_snoc.
  - unfold create_incident, maybe_trigger_healing, new_uuid, now.
    destruct (_ && _); cbn; done.
Qed.

(** *** Instances *)

Lemma one_spike_wf : store_wf (_incidents IncidentScenario.one_spike).
Proof.
  apply (IncidentFacts.ingest_all_invariant default_settings IncidentScenario.env_quick
           [Anomaly (IncidentScenario.spike "e1")] boot
           IncidentFacts.env_quick_monotone (IncidentFacts.boot_invariant _ _)).
Qed.

Lemma list_incidents_pages_witness :
  (1 ≤ 2)%Z ∧ (1 ≤ 1 ≤ 100)%Z
  ∧ IncidentRoutes.incidents
      (IncidentRoutes.list_incidents None None None 2 1
         (IncidentScenario.two_spikes IncidentScenario.env_slow))
    = take 1 (drop 1 (listing None None None
                        (IncidentScenario.two_spikes IncidentScenario.env_slow)))
  ∧ IncidentRoutes.total
      (IncidentRoutes.list_incidents None None None 2 1
         (IncidentScenario.two_spikes IncidentScenario.env_slow))
    = 2%nat.
Proof.
  split; [lia|]. split; [lia|].
  destruct (IncidentStoreFacts.list_incidents_pages None None None 2 1
              (IncidentScenario.two_spikes IncidentScenario.env_slow))
    as (H1 & H2 & _); [lia|lia|].
  split; [exact H1|]. rewrite H2. vm_compute. reflexivity.
Defined.

Lemma close_incident_resolves_witness :
  store_wf (_incidents IncidentScenario.one_spike)
  ∧ (IncidentRoutes.close_incident IncidentScenario.env_quick "uuid-0"
       IncidentScenario.one_spike).2
    = Ok {| ack_status := "closed"; ack_incident_id := "uuid-0" |}
  ∧ ∀ service namespace cutoff r,
      find_related_loop
        (_incidents (IncidentRoutes.close_incident IncidentScenario.env_quick "uuid-0"
                       IncidentScenario.one_spike).1)
        service namespace cutoff = Some r →
      incident_id r ≠ "uuid-0".
Proof.
  split; [exact one_spike_wf|].
  pose proof (close_incident_resolves IncidentScenario.env_quick "uuid-0"
                IncidentScenario.one_spike one_spike_wf) as H.
  cbv zeta in H.
  assert (Hg : IncidentManager.get_incident "uuid-0" IncidentScenario.one_spike
               = Some IncidentScenario.first_incident) by (vm_compute; reflexivity).
  rewrite Hg in H. destruct H as (H1 & _ & _ & H4).
  split; [exact H1|exact H4].
Defined.

Lemma correlated_event_count_witness :
  store_wf (_incidents IncidentScenario.one_spike)
  ∧ action (ingest default_settings IncidentScenario.env_quick
              (Anomaly (IncidentScenario.spike "e2")) IncidentScenario.one_spike).2
    = "correlated"
  ∧ ∃ i', IncidentManager.get_incident "uuid-0"
            (ingest default_settings IncidentScenario.env_quick
               (Anomaly (IncidentScenario.spike "e2")) IncidentScenario.one_spike).1
          = Some i'
          ∧ last (event_ids i') = Some "e2"
          ∧ event_count i' = 2%Z.
Proof.
  assert (Ha : action (ingest default_settings IncidentScenario.env_quick
                         (Anomaly (IncidentScenario.spike "e2"))
                         IncidentScenario.one_spike).2 = "correlated")
    by (vm_compute; reflexivity).
  split; [exact one_spike_wf|]. split; [exact Ha|].
  destruct (correlated_event_count default_settings IncidentScenario.env_quick
              (Anomaly (IncidentScenario.spike "e2")) IncidentScenario.one_spike
              one_spike_wf Ha) as (i' & Hg & Hl & Hc).
  exists i'. split; [exact Hg|]. split; [exact Hl|].
  rewrite Hc.
  assert (Hi : event_ids <$> IncidentManager.get_incident "uuid-0"
                 (ingest default_settings IncidentScenario.env_quick
                    (Anomaly (IncidentScenario.spike "e2"))
                    IncidentScenario.one_spike).1 = Some ["e1"; "e2"])
    by (vm_compute; reflexivity).
  change (answer_incident_id _) with "uuid-0" in Hg.
  rewrite Hg in Hi. cbn in Hi. injection Hi as ->. reflexivity.
Defined.

(** *** A signal after a close *)

Lemma close_incident_run env iid st i :
  store_wf (_incidents st) →
  IncidentManager.get_incident iid st = Some i →
  ∃ i', _incidents (IncidentRoutes.close_incident env iid st).1
        = dict_set iid i' (_incidents st)
        ∧ IncidentManager.status i' = RESOLVED ∧ incident_id i' = iid
        ∧ n_clock (IncidentRoutes.close_incident env iid st).1 = S (S (n_clock st)).
Proof.
  intros [_ Hkey] Hget.
  unfold IncidentRoutes.close_incident, IncidentManager.update_incident,
    IncidentManager.get_incident, now in *. cbn. rewrite Hget. cbn.
  eexists. split; [done|]. cbn. split; [done|]. split; [|done].
  by apply Hkey, IncidentFacts.dict_get_Some_elem.
Qed.

(** X28.  After an incident was closed, a signal for a target none of
    whose other incidents is open creates a new incident, whatever the
    time: the closed incident no longer holds the signals of its target. *)
Theorem signal_after_close_creates (settings : Settings) (env : Env) (iid : string)
    (sg : Signal) (st : St) (i : Incident) :
  store_wf (_incidents st) →
  IncidentManager.get_incident iid st = Some i →
  (∀ k i2, (k, i2) ∈ _incidents st → k ≠ iid →
           ¬ open_for (signal_service sg) (signal_namespace sg) i2) →
  action (ingest settings env sg (IncidentRoutes.close_incident env iid st).1).2
  = "created".
Proof.
  intros Hwf Hget Hothers.
  destruct (close_incident_run env iid st i Hwf Hget) as (i' & Hd & Hst & Hid & _).
  assert (Hwf' : store_wf (_incidents (IncidentRoutes.close_incident env iid st).1)).
  { rewrite Hd, <- Hid. by apply IncidentFacts.store_wf_set. }
  pose proof (IncidentFacts.ingest_run settings env sg _ Hwf') as Hrun.
  cbv zeta in Hrun.
  destruct (find_related_loop _ _ _ _) as [r|] eqn:Hf; [|by destruct Hrun].
  exfalso.
  destruct (IncidentFacts.find_related_loop_Some _ _ _ _ _ Hf)
    as ([k Hin] & Hopen & Hsvc & Hns & _).
  rewrite Hd in Hin. destruct Hwf as [Hnd _].
  apply (IncidentFacts.elem_of_dict_set _ _ _ _ _ Hnd) in Hin as [[-> ->]|[Hne Hin]].
  - by rewrite Hst in Hopen.
  - by apply (Hothers k r Hin Hne).
Qed.

Lemma signal_after_close_creates_witness :
  store_wf (_incidents IncidentScenario.one_spike)
  ∧ IncidentManager.get_incident "uuid-0" IncidentScenario.one_spike
    = Some IncidentScenario.first_incident
  ∧ action (ingest default_settings IncidentScenario.env_quick
              (Anomaly (IncidentScenario.spike "e2"))
              (IncidentRoutes.close_incident IncidentScenario.env_quick "uuid-0"
                 IncidentScenario.one_spike).1).2
    = "created".
Proof.
  assert (Hg : IncidentManager.get_incident "uuid-0" IncidentScenario.one_spike
               = Some IncidentScenario.first_incident) by (vm_compute; reflexivity).
  split; [exact one_spike_wf|]. split; [exact Hg|].
  apply (signal_after_close_creates default_settings IncidentScenario.env_quick "uuid-0"
           (Anomaly (IncidentScenario.spike "e2")) IncidentScenario.one_spike
           IncidentScenario.first_incident one_spike_wf Hg).
  intros k i2 Hin Hne. rewrite IncidentFacts.one_spike_store in Hin.
  apply list_elem_of_singleton in Hin. injection Hin as -> _. done.
Defined.

End IncidentRoutesFacts.

(* ===================================================================== *)
(** ** The agent: pipelines, queries and the executor *)
(* ===================================================================== *)

Module AgentFacts.

Import PyStr AutoHealAgent Described Scenario AgentQueries.
Import EngineFacts.

(** *** The pipelines *)

Lemma HealingResult_ext (r1 r2 : HealingResult) :
  healing_id r1 = healing_id r2 → incident_id r1 = incident_id r2 →
  status r1 = status r2 → plan r1 = plan r2 →
  actions_executed r1 = actions_executed r2 →
  actions_successful r1 = actions_successful r2 →
  started_at r1 = started_at r2 → completed_at r1 = completed_at r2 →
  result_message r1 = result_message r2 → error_message r1 = error_message r2 →
  r1 = r2.
Proof. destruct r1, r2; cbn; intros; by subst. Qed.

Lemma decide_run request observation orientation env st :
  Engine._decide request observation orientation env st
  = let p := DecisionMaker.generate_plan (fun i => uuid4 env (n_uuid st + i))
               (req_incident_id request) (target_service request)
               (target_namespace request) observation orientation
               (recommended_actions request) in
    ({| engine := engine st; n_uuid := n_uuid st + S (length (actions p));
        n_clock := n_clock st; n_post := n_post st; calls := calls st |}, inr p).
Proof. reflexivity. Qed.

(** The observation and the orientation of a request. *)
Lemma observe_orient_run request :
  ∃ obs ori,
    (∀ env st, Engine._observe request env st = (st, inr obs))
    ∧ (∀ env st, Engine._orient request obs env st = (st, inr ori))
    ∧ ori = DecisionMaker.analyze_incident (root_cause request) (severity request)
              (recommended_actions request).
Proof.
  destruct (observe_run request) as [obs Hobs]. exists obs. eexists.
  split; [exact Hobs|]. split; [|reflexivity]. intros env st. reflexivity.
Qed.

Lemma run_ooda_loop_run settings env st hid request r s0 :
  _healings (engine st) !! hid = Some r →
  _states (engine st) !! hid = Some s0 →
  ∃ obs ori,
    (∀ env st, Engine._observe request env st = (st, inr obs))
    ∧ (∀ env st, Engine._orient request obs env st = (st, inr ori))
    ∧ let p := DecisionMaker.generate_plan (fun i => uuid4 env (n_uuid st + i))
                 (req_incident_id request) (target_service request)
                 (target_namespace request) obs ori (recommended_actions request) in
      let oks := dispatch_outcomes env (n_post st) (actions p) in
      let out := Engine.run_ooda_loop settings hid request env st in
      out.2 = inr tt
      ∧ _healings (engine out.1) !! hid
        = Some {| healing_id := healing_id r; incident_id := incident_id r;
                  status := COMPLETED; plan := Some p;
                  actions_executed := actions_executed r + length (actions p);
                  actions_successful := actions_successful r + successes oks;
                  started_at := started_at r;
                  completed_at := Some (utcnow env (n_clock st));
                  result_message := Some "Healing completed successfully";
                  error_message := error_message r |}
      ∧ (∀ hid', hid' ≠ hid →
                 _healings (engine out.1) !! hid' = _healings (engine st) !! hid')
      ∧ _cooldowns (engine out.1)
        = <[target_service request
            := (utcnow env (S (n_clock st)) + minutes (cooldown_minutes settings))%Z]>
            (_cooldowns (engine st))
      ∧ _history (engine out.1) = _history (engine st)
      ∧ n_clock out.1 = S (S (n_clock st))
      ∧ n_post out.1 = (n_post st + length (actions p))%nat
      ∧ calls out.1
        = calls st ++ (CallExecute <$> actions p)
            ++ [CallValidate (target_service request)]
      ∧ (∀ hid', is_Some (_states (engine st) !! hid')
                 → is_Some (_states (engine out.1) !! hid')).
Proof.
  intros Hr Hs.
  destruct (observe_orient_run request) as (obs & ori & Hobs & Hori & _).
  exists obs, ori. split; [exact Hobs|]. split; [exact Hori|].
  intros p oks out.
  assert (Hex : Engine.run_ooda_loop settings hid request env st = out) by reflexivity.
  clearbody out. revert Hex.
  unfold Engine.run_ooda_loop. run_M. rewrite Hr, Hs. run_M.
  rewrite Hobs. run_M. rewrite Hori. run_M. rewrite decide_run. run_M.
  fold p. subst oks. clearbody p.
  rewrite act_run by (cbn; rewrite !lookup_alter_eq, Hr; by eexists).
  match goal with |- context [Engine._act_loop hid (actions p) env ?s] =>
    pose proof (act_loop_run env hid (actions p) s) as Hact;
    cbv zeta in Hact;
    cbn [engine n_uuid n_clock n_post calls
           _healings _states _cooldowns _history] in Hact;
    destruct (Engine._act_loop hid (actions p) env s) as [st2 [e|[]]]
  end; cbn [fst snd] in Hact;
    destruct Hact as (H1 & H2 & H3 & H4 & H5 & H6 & H7 & H8 & H9); [done|].
  unfold Engine._validate. run_M. intros <-. cbn [fst snd].
  run_M. rewrite H2, H3, H4, H5, H7, H8, H9.
  split; [done|]. split; [|split; [|split; [done|split; [done|split; [done|split;
    [done|split]]]]]].
  - rewrite !lookup_alter_eq, Hr. cbn.
    destruct (count_actions_fields (dispatch_outcomes env (n_post st) (actions p))
                (with_status ACTING
                   (with_plan p
                      (with_status DECIDING
                         (with_status ORIENTING (with_status OBSERVING r))))))
      as (F1 & F2 & F3 & F4 & F5 & F6 & F7 & F8 & F9 & F10).
    cbv zeta in *. f_equal.
    apply HealingResult_ext; cbn; rewrite ?F1, ?F2, ?F4, ?F5, ?F6, ?F7, ?F10; cbn;
      by rewrite ?dispatch_outcomes_length.
  - intros hid' Hne. by rewrite !lookup_alter_ne.
  - by rewrite <- app_assoc.
  - intros hid' Hsome. by rewrite !lookup_alter_is_Some.
Qed.

Lemma generate_plan_only_run env st hid request r s0 :
  _healings (engine st) !! hid = Some r →
  _states (engine st) !! hid = Some s0 →
  ∃ obs ori,
    (∀ env st, Engine._observe request env st = (st, inr obs))
    ∧ (∀ env st, Engine._orient request obs env st = (st, inr ori))
    ∧ let p := DecisionMaker.generate_plan (fun i => uuid4 env (n_uuid st + i))
                 (req_incident_id request) (target_service request)
                 (target_namespace request) obs ori (recommended_actions request) in
      let out := Engine.generate_plan_only hid request env st in
      out.2 = inr tt
      ∧ _healings (engine out.1) !! hid
        = Some {| healing_id := healing_id r; incident_id := incident_id r;
                  status := DECIDING; plan := Some p;
                  actions_executed := actions_executed r;
                  actions_successful := actions_successful r;
                  started_at := started_at r;
                  completed_at := completed_at r;
                  result_message := Some "Plan generated, awaiting approval";
                  error_message := error_message r |}
      ∧ (∀ hid', hid' ≠ hid →
                 _healings (engine out.1) !! hid' = _healings (engine st) !! hid')
      ∧ (∀ hid', is_Some (_states (engine st) !! hid')
                 → is_Some (_states (engine out.1) !! hid'))
      ∧ _cooldowns (engine out.1) = _cooldowns (engine st)
      ∧ _history (engine out.1) = _history (engine st)
      ∧ n_clock out.1 = n_clock st
      ∧ n_post out.1 = n_post st
      ∧ calls out.1 = calls st.
Proof.
  intros Hr Hs.
  destruct (observe_orient_run request) as (obs & ori & Hobs & Hori & _).
  exists obs, ori. split; [exact Hobs|]. split; [exact Hori|].
  intros p out.
  assert (Hex : Engine.generate_plan_only hid request env st = out) by reflexivity.
  clearbody out. revert Hex.
  unfold Engine.generate_plan_only. run_M. rewrite Hr, Hs. run_M.
  rewrite Hobs. run_M. rewrite Hori. run_M. rewrite decide_run. run_M.
  fold p. clearbody p. intros <-. cbn [fst snd]. run_M.
  split; [done|]. split; [|split; [|split]]; [| |by intros; rewrite !lookup_alter_is_Some|done].
  - rewrite !lookup_alter_eq, Hr. cbn. done.
  - intros hid' Hne. by rewrite !lookup_alter_ne.
Qed.

Lemma generate_plan_actions_length uuids incident service namespace observation
    orientation recs :
  (1 ≤ length (actions (DecisionMaker.generate_plan uuids incident service namespace
                          observation orientation recs)) ≤ 3)%nat.
Proof.
  unfold DecisionMaker.generate_plan. cbn [actions].
  match goal with |- context [match ?l with [] => _ | _ => _ end] =>
    assert (Hl : (length l ≤ 3)%nat)
      by (rewrite length_imap; unfold DecisionMaker._select_actions;
          rewrite length_take; lia);
    destruct l
  end; cbn in *; lia.
Qed.

(** X13.  The pipeline of auto mode, run on a registered healing whatever
    its status, a cancelled one included, and whatever the executor answers
    to the dispatches: it returns normally; the healing ends COMPLETED with
    the message of success, completed at the time of the call, with a plan
    of one to three actions for the incident, every action counted as
    executed and the accepted ones as successful; the target service gets a
    cooldown until the next reading of the clock plus [cooldown_minutes]; and
    the engine dispatched the actions of the plan in order and then ran the
    validation hook once. *)
Theorem auto_pipeline_completes (settings : Settings) (env : Env) (st : St)
    (hid : string) (request : HealingRequest) (r : HealingResult) (s0 : OODAState) :
  _healings (engine st) !! hid = Some r →
  _states (engine st) !! hid = Some s0 →
  let out := Engine.run_ooda_loop settings hid request env st in
  ∃ p : HealingPlan,
    out.2 = inr tt
    ∧ _healings (engine out.1) !! hid
      = Some {| healing_id := healing_id r; incident_id := incident_id r;
                status := COMPLETED; plan := Some p;
                actions_executed := actions_executed r + length (actions p);
                actions_successful :=
                  actions_successful r
                  + successes (dispatch_outcomes env (n_post st) (actions p));
                started_at := started_at r;
                completed_at := Some (utcnow env (n_clock st));
                result_message := Some "Healing completed successfully";
                error_message := error_message r |}
    ∧ (1 ≤ length (actions p) ≤ 3)%nat
    ∧ plan_incident_id p = req_incident_id request
    ∧ _cooldowns (engine out.1) !! target_service request
      = Some (utcnow env (S (n_clock st)) + minutes (cooldown_minutes settings))%Z
    ∧ calls out.1
      = calls st ++ (CallExecute <$> actions p)
          ++ [CallValidate (target_service request)].
Proof.
  intros Hr Hs out. subst out.
  destruct (run_ooda_loop_run settings env st hid request r s0 Hr Hs)
    as (obs & ori & _ & _ & H). cbv zeta in H.
  destruct H as (H1 & H2 & _ & H4 & _ & _ & _ & H8 & _).
  eexists. split; [exact H1|]. split; [exact H2|].
  split; [apply generate_plan_actions_length|]. split; [done|].
  split; [by rewrite H4, lookup_insert_eq|exact H8].
Qed.

(** X14.  After the pipeline of auto mode ran for a service, the service
    is in cooldown exactly while the clock reads less than the end of the
    cooldown (at the end itself it no longer is), and while it is, no
    non-forced request for that service is admitted, whatever its incident
    and its namespace: the cooldown is kept per service name. *)
Theorem auto_pipeline_cooldown (settings : Settings) (env : Env) (st : St)
    (hid : string) (request : HealingRequest) (r : HealingResult) (s0 : OODAState)
    (request2 : HealingRequest) :
  _healings (engine st) !! hid = Some r →
  _states (engine st) !! hid = Some s0 →
  target_service request2 = target_service request →
  let st' := (Engine.run_ooda_loop settings hid request env st).1 in
  let until := (utcnow env (S (n_clock st)) + minutes (cooldown_minutes settings))%Z in
  (Engine.is_in_cooldown (target_service request2) env st').2
  = inr (bool_decide (utcnow env (S (S (n_clock st))) < until)%Z)
  ∧ (force request2 = false →
     (utcnow env (S (S (n_clock st))) < until)%Z →
     ∃ c d, (Routes.trigger_healing settings request2 env st').2
            = inl (HTTPException c d)
            ∧ (c = 409 ∨ c = 429)%Z).
Proof.
  intros Hr Hs Hsvc st' until. subst st' until.
  destruct (run_ooda_loop_run settings env st hid request r s0 Hr Hs)
    as (obs & ori & _ & _ & H). cbv zeta in H.
  destruct H as (_ & _ & _ & H4 & _ & H6 & _).
  destruct (Engine.run_ooda_loop settings hid request env st) as [st' res].
  cbn [fst snd] in *.
  assert (Hc : _cooldowns (engine st') !! target_service request2
               = Some (utcnow env (S (n_clock st))
                       + minutes (cooldown_minutes settings))%Z)
    by (by rewrite H4, Hsvc, lookup_insert_eq).
  split.
  - unfold Engine.is_in_cooldown. run_M. rewrite Hc. run_M. rewrite H6.
    cbn. f_equal. case_bool_decide as Hlt.
    + by apply Z.ltb_lt.
    + by apply Z.ltb_ge, Z.nlt_ge.
  - intros Hforce Hlt.
    unfold Routes.trigger_healing, Engine.is_in_cooldown. run_M.
    destruct (Engine.is_healing _ _); [cbn; eauto|].
    destruct (_ <=? _)%Z; [cbn; eauto|].
    run_M. rewrite Hc. run_M. rewrite H6, Hforce.
    apply Z.ltb_lt in Hlt. rewrite Hlt. cbn. eauto.
Qed.

(** X15.  The planning task of semi-auto mode, run on a registered
    healing whatever its status: it returns normally and leaves the healing
    DECIDING, with a plan of one to three actions and the message that the
    plan awaits approval; it calls neither the executor nor the validation
    hook and sets no cooldown; and the approval of the healing is then
    accepted and schedules the execution of the plan. *)
Theorem plan_awaits_approval (env : Env) (st : St) (hid : string)
    (request : HealingRequest) (r : HealingResult) (s0 : OODAState) :
  _healings (engine st) !! hid = Some r →
  _states (engine st) !! hid = Some s0 →
  let out := Engine.generate_plan_only hid request env st in
  ∃ p : HealingPlan,
    out.2 = inr tt
    ∧ _healings (engine out.1) !! hid
      = Some {| healing_id := healing_id r; incident_id := incident_id r;
                status := DECIDING; plan := Some p;
                actions_executed := actions_executed r;
                actions_successful := actions_successful r;
                started_at := started_at r;
                completed_at := completed_at r;
                result_message := Some "Plan generated, awaiting approval";
                error_message := error_message r |}
    ∧ (1 ≤ length (actions p) ≤ 3)%nat
    ∧ calls out.1 = calls st
    ∧ _cooldowns (engine out.1) = _cooldowns (engine st)
    ∧ (Routes.approve_healing_plan hid env out.1).2 = inr (Routes.TaskExecutePlan hid).
Proof.
  intros Hr Hs out. subst out.
  destruct (generate_plan_only_run env st hid request r s0 Hr Hs)
    as (obs & ori & _ & _ & H). cbv zeta in H.
  destruct H as (H1 & H2 & _ & _ & H5 & _ & _ & _ & H9).
  eexists. split; [exact H1|]. split; [exact H2|].
  split; [apply generate_plan_actions_length|]. split; [exact H9|].
  split; [exact H5|].
  unfold Routes.approve_healing_plan, Engine.get_healing. run_M. rewrite H2. by cbn.
Qed.

(** X16.  For a healing id that is not registered, every background task
    (the pipeline of auto mode, the planning, the analysis, the execution of
    a plan) returns without changing anything, the engine's [cancel_healing]
    returns [None], and the endpoints that cancel, approve and read a
    healing answer 404, all leaving the state as it was. *)
Theorem unknown_healing_is_left_alone (settings : Settings) (env : Env) (st : St)
    (hid : string) (request : HealingRequest) :
  _healings (engine st) !! hid = None →
  Engine.run_ooda_loop settings hid request env st = (st, inr tt)
  ∧ Engine.generate_plan_only hid request env st = (st, inr tt)
  ∧ Engine.analyze_only hid request env st = (st, inr tt)
  ∧ Engine.execute_plan hid env st = (st, inr tt)
  ∧ Engine.cancel_healing hid env st = (st, inr None)
  ∧ Routes.cancel_healing hid env st = (st, inl (HTTPException 404 "Healing not found"))
  ∧ Routes.approve_healing_plan hid env st
    = (st, inl (HTTPException 404 "Healing not found"))
  ∧ get_healing_status hid env st = (st, inl (HTTPException 404 "Healing not found")).
Proof.
  intros Hr.
  unfold Engine.run_ooda_loop, Engine.generate_plan_only, Engine.analyze_only,
    Engine.execute_plan, Routes.cancel_healing, Engine.cancel_healing,
    Routes.approve_healing_plan, get_healing_status, Engine.get_healing.
  run_M. rewrite Hr. by run_M.
Qed.

Lemma execute_plan_without_plan env st hid r :
  _healings (engine st) !! hid = Some r → plan r = None →
  Engine.execute_plan hid env st = (st, inr tt).
Proof.
  intros Hr Hp. unfold Engine.execute_plan. run_M. by rewrite Hr, Hp.
Qed.

(** X17.  In semi-auto mode the approval of a healing is accepted as soon
    as the healing is triggered, before its plan exists (the trigger leaves
    it DECIDING), and the execution it schedules, run before the planning
    task, finds no plan and does nothing: no action is dispatched and the
    healing stays DECIDING without a plan. *)
Theorem early_approval_executes_nothing (settings : Settings) (env : Env) (st st1 : St)
    (request_data : HealingRequest) (result : HealingResult) (task : Routes.Task) :
  healing_mode settings = SEMI_AUTO →
  Routes.trigger_healing settings request_data env st = (st1, inr (result, task)) →
  let hid := healing_id result in
  task = Routes.TaskGeneratePlanOnly hid request_data
  ∧ _healings (engine st1) !! hid = Some result
  ∧ status result = DECIDING ∧ plan result = None
  ∧ Routes.approve_healing_plan hid env st1 = (st1, inr (Routes.TaskExecutePlan hid))
  ∧ Routes.run_task settings (Routes.TaskExecutePlan hid) env st1 = (st1, inr tt).
Proof.
  intros Hmode Htrig hid. subst hid.
  pose proof (trigger_healing_run settings env st request_data) as H.
  rewrite Htrig in H. cbv zeta in H. rewrite Hmode in H.
  destruct H as (Hid & _ & Hplan & _ & Hst & Htask & Hh & _).
  assert (Hr : _healings (engine st1) !! healing_id result = Some result)
    by (by rewrite Hh, Hid, lookup_insert_eq).
  split; [by rewrite Hid|]. split; [exact Hr|]. split; [exact Hst|].
  split; [exact Hplan|]. split.
  - unfold Routes.approve_healing_plan, Engine.get_healing. run_M.
    rewrite Hr, Hst. by cbn.
  - cbn [Routes.run_task]. by apply (execute_plan_without_plan _ _ _ result).
Qed.

(** *** Instances *)

Lemma pending_auto_result :
  _healings (engine (state AgentScenario.pending_auto)) !! "uuid-0"
  = Some AgentScenario.pending_result.
Proof. vm_compute. reflexivity. Qed.

Lemma pending_auto_state :
  _states (engine (state AgentScenario.pending_auto)) !! "uuid-0"
  = Some AgentScenario.pending_state.
Proof. vm_compute. reflexivity. Qed.

Lemma pending_semi_result :
  _healings (engine (state AgentScenario.pending_semi)) !! "uuid-0"
  = Some AgentScenario.pending_semi_result.
Proof. vm_compute. reflexivity. Qed.

Lemma pending_semi_state :
  _states (engine (state AgentScenario.pending_semi)) !! "uuid-0"
  = Some AgentScenario.pending_semi_state.
Proof. vm_compute. reflexivity. Qed.

Lemma auto_pipeline_completes_witness :
  _healings (engine (state AgentScenario.pending_auto)) !! "uuid-0"
  = Some AgentScenario.pending_result
  ∧ _states (engine (state AgentScenario.pending_auto)) !! "uuid-0"
    = Some AgentScenario.pending_state
  ∧ status <$> (_healings
                  (engine (Engine.run_ooda_loop auto_mode "uuid-0" checkout_request
                             env_down (state AgentScenario.pending_auto)).1)
                  !! "uuid-0")
    = Some COMPLETED.
Proof.
  split; [exact pending_auto_result|]. split; [exact pending_auto_state|].
  destruct (auto_pipeline_completes auto_mode env_down
              (state AgentScenario.pending_auto) "uuid-0" checkout_request
              AgentScenario.pending_result AgentScenario.pending_state
              pending_auto_result pending_auto_state) as (p & _ & H2 & _).
  rewrite H2. reflexivity.
Defined.

Lemma auto_pipeline_cooldown_witness :
  _healings (engine (state AgentScenario.pending_auto)) !! "uuid-0"
  = Some AgentScenario.pending_result
  ∧ _states (engine (state AgentScenario.pending_auto)) !! "uuid-0"
    = Some AgentScenario.pending_state
  ∧ target_service checkout_again = target_service checkout_request
  ∧ force checkout_again = false
  ∧ ∃ c d,
      (Routes.trigger_healing auto_mode checkout_again env_up
         (Engine.run_ooda_loop auto_mode "uuid-0" checkout_request env_up
            (state AgentScenario.pending_auto)).1).2
      = inl (HTTPException c d)
      ∧ (c = 409 ∨ c = 429)%Z.
Proof.
  split; [exact pending_auto_result|]. split; [exact pending_auto_state|].
  split; [reflexivity|]. split; [reflexivity|].
  destruct (auto_pipeline_cooldown auto_mode env_up
              (state AgentScenario.pending_auto) "uuid-0" checkout_request
              AgentScenario.pending_result AgentScenario.pending_state checkout_again
              pending_auto_result pending_auto_state eq_refl) as (_ & H).
  apply H; [reflexivity|]. vm_compute. reflexivity.
Defined.

Lemma plan_awaits_approval_witness :
  _healings (engine (state AgentScenario.pending_semi)) !! "uuid-0"
  = Some AgentScenario.pending_semi_result
  ∧ _states (engine (state AgentScenario.pending_semi)) !! "uuid-0"
    = Some AgentScenario.pending_semi_state
  ∧ calls (Engine.generate_plan_only "uuid-0" checkout_request env_up
             (state AgentScenario.pending_semi)).1 = []
  ∧ (Routes.approve_healing_plan "uuid-0" env_up
       (Engine.generate_plan_only "uuid-0" checkout_request env_up
          (state AgentScenario.pending_semi)).1).2
    = inr (Routes.TaskExecutePlan "uuid-0").
Proof.
  split; [exact pending_semi_result|]. split; [exact pending_semi_state|].
  destruct (plan_awaits_approval env_up (state AgentScenario.pending_semi) "uuid-0"
              checkout_request AgentScenario.pending_semi_result
              AgentScenario.pending_semi_state pending_semi_result pending_semi_state)
    as (p & _ & _ & _ & H4 & _ & H6).
  split; [rewrite H4; reflexivity|exact H6].
Defined.

Lemma unknown_healing_is_left_alone_witness :
  _healings (engine (state boot)) !! "uuid-7" = None
  ∧ Engine.execute_plan "uuid-7" env_up (state boot) = (state boot, inr tt)
  ∧ Routes.cancel_healing "uuid-7" env_up (state boot)
    = (state boot, inl (HTTPException 404 "Healing not found")).
Proof.
  assert (H : _healings (engine (state boot)) !! "uuid-7" = None) by reflexivity.
  split; [exact H|].
  destruct (unknown_healing_is_left_alone auto_mode env_up (state boot) "uuid-7"
              checkout_request H) as (_ & _ & _ & H4 & _ & H6 & _).
  split; [exact H4|exact H6].
Defined.

Lemma early_approval_executes_nothing_witness :
  healing_mode semi_auto_mode = SEMI_AUTO
  ∧ Routes.trigger_healing semi_auto_mode checkout_request env_up (state boot)
    = (state AgentScenario.pending_semi,
       inr (AgentScenario.pending_semi_result,
            Routes.TaskGeneratePlanOnly "uuid-0" checkout_request))
  ∧ Routes.run_task semi_auto_mode (Routes.TaskExecutePlan "uuid-0") env_up
      (state AgentScenario.pending_semi)
    = (state AgentScenario.pending_semi, inr tt).
Proof.
  assert (H : Routes.trigger_healing semi_auto_mode checkout_request env_up (state boot)
              = (state AgentScenario.pending_semi,
                 inr (AgentScenario.pending_semi_result,
                      Routes.TaskGeneratePlanOnly "uuid-0" checkout_request)))
    by (vm_compute; reflexivity).
  split; [reflexivity|]. split; [exact H|].
  destruct (early_approval_executes_nothing semi_auto_mode env_up (state boot)
              (state AgentScenario.pending_semi) checkout_request
              AgentScenario.pending_semi_result
              (Routes.TaskGeneratePlanOnly "uuid-0" checkout_request) eq_refl H)
    as (_ & _ & _ & _ & _ & H6).
  exact H6.
Defined.

(** *** Semi-auto mode without approval *)

Lemma semi_auto_step settings env ev s :
  healing_mode settings = SEMI_AUTO →
  (∀ hid, ev ≠ Approve hid) →
  calls (state s) = []
  ∧ (∀ task, task ∈ background s →
             ∃ hid request,
               task = Routes.TaskGeneratePlanOnly hid request
               ∧ is_Some (_healings (engine (state s)) !! hid)
               ∧ is_Some (_states (engine (state s)) !! hid)) →
  calls (state (step settings env ev s)) = []
  ∧ (∀ task, task ∈ background (step settings env ev s) →
             ∃ hid request,
               task = Routes.TaskGeneratePlanOnly hid request
               ∧ is_Some (_healings (engine (state (step settings env ev s))) !! hid)
               ∧ is_Some (_states (engine (state (step settings env ev s))) !! hid)).
Proof.
  intros Hmode Hev (Hcalls & Htasks).
  destruct ev as [request_data|hid|hid|k]; cbn [step].
  - pose proof (trigger_healing_run settings env (state s) request_data) as Hrun.
    destruct (Routes.trigger_healing settings request_data env (state s))
      as [st' [e|[result task]]].
    + destruct Hrun as (He & _ & _ & Hc). cbn. rewrite He, Hc. auto.
    + cbv zeta in Hrun. rewrite Hmode in Hrun.
      destruct Hrun as (Hid & _ & _ & _ & _ & -> & Hh & [s0 Hs] & _ & _ & _ & _ & Hc).
      cbn. rewrite Hh, Hs, Hc. split; [done|].
      intros task. rewrite elem_of_app, list_elem_of_singleton. intros [Hin| ->].
      * destruct (Htasks task Hin) as (hid & request & -> & H1 & H2).
        exists hid, request. rewrite !lookup_insert_is_Some'. auto.
      * eexists _, _. split; [done|]. rewrite !lookup_insert_eq. by split; eexists.
  - by destruct (Hev hid).
  - unfold Routes.cancel_healing. unfold mbind, M_bind, bind.
    rewrite cancel_healing_run.
    destruct (_healings (engine (state s)) !! hid) as [r|] eqn:Hr; cbn; [|done].
    split; [done|].
    intros task Hin. destruct (Htasks task Hin) as (hid' & request & -> & H1 & H2).
    exists hid', request. rewrite !lookup_alter_is_Some. auto.
  - destruct (background s !! k) as [task|] eqn:Hk; [|done].
    destruct (Htasks task) as (hid & request & -> & [r Hr] & [s0 Hs]).
    { by apply list_elem_of_lookup_2 in Hk. }
    cbn [Routes.run_task].
    destruct (generate_plan_only_run env (state s) hid request r s0 Hr Hs)
      as (obs & ori & _ & _ & H). cbv zeta in H.
    destruct H as (_ & H2 & H3 & H4 & _ & _ & _ & _ & H9).
    cbn [state background]. rewrite H9. split; [done|].
    intros task Hin.
    assert (Hin' : task ∈ background s).
    { by apply list_elem_of_delete_inv in Hin. }
    destruct (Htasks task Hin') as (hid' & request' & -> & H1' & H2').
    exists hid', request'. split; [done|]. split; [|by apply H4].
    destruct (decide (hid' = hid)) as [->|Hne]; [by rewrite H2|by rewrite H3].
Qed.

(** X22.  In semi-auto mode, as long as no approval is sent, the agent
    never calls the executor nor the validation hook, whatever requests are
    triggered and cancelled and whichever background tasks run. *)
Theorem semi_auto_waits_for_approval (settings : Settings) (env : Env)
    (evs : list Event) :
  healing_mode settings = SEMI_AUTO →
  Forall (fun ev => ∀ hid, ev ≠ Approve hid) evs →
  calls (state (run settings env evs boot)) = [].
Proof.
  intros Hmode Hevs.
  enough (H : ∀ s,
            calls (state s) = []
            ∧ (∀ task, task ∈ background s →
                       ∃ hid request,
                         task = Routes.TaskGeneratePlanOnly hid request
                         ∧ is_Some (_healings (engine (state s)) !! hid)
                         ∧ is_Some (_states (engine (state s)) !! hid)) →
            calls (state (run settings env evs s)) = []).
  { apply H. split; [done|]. intros task Hin. by apply elem_of_nil in Hin. }
  induction Hevs as [|ev evs Hev _ IH]; intros s Hinv; [by destruct Hinv|].
  cbn [run fold_left]. apply IH. by apply semi_auto_step.
Qed.

Lemma semi_auto_waits_for_approval_witness :
  healing_mode semi_auto_mode = SEMI_AUTO
  ∧ Forall (fun ev => ∀ hid, ev ≠ Approve hid)
      [Trigger checkout_request; Run 0; Cancel "uuid-0"; Trigger checkout_again]
  ∧ calls (state (run semi_auto_mode env_up
                    [Trigger checkout_request; Run 0; Cancel "uuid-0";
                     Trigger checkout_again] boot)) = [].
Proof.
  assert (H : Forall (fun ev => ∀ hid, ev ≠ Approve hid)
                [Trigger checkout_request; Run 0; Cancel "uuid-0";
                 Trigger checkout_again])
    by (repeat constructor; intros hid; discriminate).
  split; [reflexivity|]. split; [exact H|].
  exact (semi_auto_waits_for_approval semi_auto_mode env_up _ eq_refl H).
Defined.

(** *** The concurrency cap *)

Lemma trigger_admitted_below_cap settings env st request_data st' result task :
  Routes.trigger_healing settings request_data env st = (st', inr (result, task)) →
  (Z.of_nat (Engine.get_active_count (engine st)) < max_concurrent_healings settings)%Z.
Proof.
  unfold Routes.trigger_healing. unfold_M.
  destruct (Engine.is_healing _ _); [done|].
  destruct (Z.leb_spec (max_concurrent_healings settings)
              (Z.of_nat (Engine.get_active_count (engine st)))); [done|].
  intros _. lia.
Qed.

Lemma active_insert_le (m : gmap string HealingResult) hid r :
  (size (filter (fun kv : string * HealingResult =>
                   non_terminal (status kv.2) = true) (<[hid := r]> m))
   ≤ S (size (filter (fun kv : string * HealingResult =>
                        non_terminal (status kv.2) = true) m)))%nat.
Proof.
  rewrite map_filter_insert. case_decide.
  - rewrite map_size_insert. destruct (filter _ m !! hid); cbn; lia.
  - rewrite map_filter_delete, map_size_delete.
    destruct (filter _ m !! hid); cbn; lia.
Qed.

Lemma active_update_terminal (m m' : gmap string HealingResult) hid r' :
  m' !! hid = Some r' → non_terminal (status r') = false →
  (∀ hid', hid' ≠ hid → m' !! hid' = m !! hid') →
  (size (filter (fun kv : string * HealingResult =>
                   non_terminal (status kv.2) = true) m')
   ≤ size (filter (fun kv : string * HealingResult =>
                     non_terminal (status kv.2) = true) m))%nat.
Proof.
  intros Hr' Hterm Hothers.
  assert (m' = <[hid := r']> m) as ->.
  { apply map_eq. intros k. destruct (decide (k = hid)) as [->|Hne].
    - by rewrite lookup_insert_eq.
    - rewrite lookup_insert_ne by done. by apply Hothers. }
  rewrite map_filter_insert_False by (cbn; congruence).
  rewrite map_filter_delete, map_size_delete.
  destruct (filter _ m !! hid); cbn; lia.
Qed.

Lemma cap_step settings env ev s :
  healing_mode settings ≠ SEMI_AUTO →
  (∀ hid r, _healings (engine (state s)) !! hid = Some r → status r ≠ DECIDING)
  ∧ (∀ task, task ∈ background s →
             ∃ hid request,
               (task = Routes.TaskRunOODALoop hid request
                ∨ task = Routes.TaskAnalyzeOnly hid request)
               ∧ is_Some (_healings (engine (state s)) !! hid)
               ∧ is_Some (_states (engine (state s)) !! hid))
  ∧ (Z.of_nat (active_healings (engine (state s)))
     ≤ max_concurrent_healings settings)%Z →
  (∀ hid r, _healings (engine (state (step settings env ev s))) !! hid = Some r →
            status r ≠ DECIDING)
  ∧ (∀ task, task ∈ background (step settings env ev s) →
             ∃ hid request,
               (task = Routes.TaskRunOODALoop hid request
                ∨ task = Routes.TaskAnalyzeOnly hid request)
               ∧ is_Some (_healings (engine (state (step settings env ev s))) !! hid)
               ∧ is_Some (_states (engine (state (step settings env ev s))) !! hid))
  ∧ (Z.of_nat (active_healings (engine (state (step settings env ev s))))
     ≤ max_concurrent_healings settings)%Z.
Proof.
  intros Hmode (Hres & Htasks & Hcap). unfold active_healings in *.
  destruct ev as [request_data|hid|hid|k]; cbn [step].
  - pose proof (trigger_healing_run settings env (state s) request_data) as Hrun.
    pose proof (trigger_admitted_below_cap settings env (state s) request_data) as Hlt.
    destruct (Routes.trigger_healing settings request_data env (state s))
      as [st' [e|[result task]]].
    + destruct Hrun as (He & _). cbn. rewrite He. auto.
    + specialize (Hlt _ _ _ eq_refl).
      rewrite get_active_count_active_healings in Hlt. unfold active_healings in Hlt.
      cbv zeta in Hrun.
      destruct Hrun as (Hid & _ & _ & _ & Hst & Htask & Hh & [s0 Hs] & _).
      cbn. rewrite Hh, Hs. split; [|split].
      * intros hid r. rewrite lookup_insert. case_decide as Heq; [|apply Hres].
        intros [= <-]. rewrite Hst. by destruct (healing_mode settings).
      * intros task'. rewrite elem_of_app, list_elem_of_singleton. intros [Hin| ->].
        -- destruct (Htasks task' Hin) as (hid & request & Ht & H1 & H2).
           exists hid, request. rewrite !lookup_insert_is_Some'. auto.
        -- rewrite Htask. eexists _, request_data.
           split; [by destruct (healing_mode settings); auto|].
           rewrite !lookup_insert_eq. by split; eexists.
      * pose proof (active_insert_le (_healings (engine (state s)))
                      (uuid4 env (n_uuid (state s))) result). lia.
  - destruct (approve_rejected env (state s) hid) as [e He].
    { intros r Hr. by apply (Hres hid). }
    rewrite He. cbn. auto.
  - unfold Routes.cancel_healing. unfold mbind, M_bind, bind.
    rewrite cancel_healing_run.
    destruct (_healings (engine (state s)) !! hid) as [r|] eqn:Hr; cbn; [|auto].
    split; [|split].
    + intros hid' r'. destruct (decide (hid' = hid)) as [->|Hne].
      * rewrite !lookup_alter_eq, Hr. cbn. by intros [= <-].
      * rewrite !lookup_alter_ne by done. apply Hres.
    + intros task Hin. destruct (Htasks task Hin) as (hid' & request & Ht & H1 & H2).
      exists hid', request. rewrite !lookup_alter_is_Some. auto.
    + etrans; [|exact Hcap]. apply inj_le.
      eapply (active_update_terminal _ _ hid).
      * by rewrite !lookup_alter_eq, Hr.
      * done.
      * intros hid' Hne. by rewrite !lookup_alter_ne.
  - destruct (background s !! k) as [task|] eqn:Hk; [|auto].
    destruct (Htasks task) as (hid & request & Ht & [r Hr] & [s0 Hs]).
    { by apply list_elem_of_lookup_2 in Hk. }
    cbn [state background].
    assert (Hrun : ∃ r',
               _healings (engine (Routes.run_task settings task env (state s)).1) !! hid
               = Some r'
               ∧ status r' = COMPLETED
               ∧ (∀ hid', hid' ≠ hid →
                    _healings (engine (Routes.run_task settings task env (state s)).1)
                      !! hid' = _healings (engine (state s)) !! hid')
               ∧ (∀ hid', is_Some (_states (engine (state s)) !! hid') →
                    is_Some (_states (engine (Routes.run_task settings task env
                                                (state s)).1) !! hid'))).
    { destruct Ht as [-> | ->]; cbn [Routes.run_task].
      - destruct (run_ooda_loop_run settings env (state s) hid request r s0 Hr Hs)
          as (obs & ori & _ & _ & H). cbv zeta in H.
        destruct H as (_ & H2 & H3 & _ & _ & _ & _ & _ & H9).
        eexists. split; [exact H2|]. split; [done|]. by split.
      - destruct (analyze_only_run env (state s) hid request r s0 Hr Hs)
          as (_ & Hh & _ & Hst & _).
        rewrite Hh. eexists. split; [by rewrite !lookup_alter_eq, Hr|].
        split; [done|]. split; [|exact Hst].
        intros hid' Hne. by rewrite !lookup_alter_ne. }
    destruct Hrun as (r' & Hr' & Hst' & Hothers & Hstates).
    split; [|split].
    + intros hid' r''. destruct (decide (hid' = hid)) as [->|Hne].
      * rewrite Hr'. intros [= <-]. by rewrite Hst'.
      * rewrite Hothers by done. apply Hres.
    + intros task' Hin.
      assert (Hin' : task' ∈ background s).
      { by apply list_elem_of_delete_inv in Hin. }
      destruct (Htasks task' Hin') as (hid' & request' & Ht' & H1' & H2').
      exists hid', request'. split; [done|]. split; [|by apply Hstates].
      destruct (decide (hid' = hid)) as [->|Hne]; [by rewrite Hr'|by rewrite Hothers].
    + etrans; [|exact Hcap]. apply inj_le.
      eapply (active_update_terminal _ _ hid); [exact Hr'|by rewrite Hst'|exact Hothers].
Qed.

(** X23.  In auto mode and in manual mode, with each handler and each
    background task run to completion before the next, the number of active
    (non-terminal) healings never exceeds [max_concurrent_healings], in any
    state the agent can reach. *)
Theorem concurrency_cap_holds (settings : Settings) (env : Env) (s : Sys) :
  healing_mode settings ≠ SEMI_AUTO →
  (0 ≤ max_concurrent_healings settings)%Z →
  reachable settings env s →
  (Z.of_nat (Engine.get_active_count (engine (state s)))
   ≤ max_concurrent_healings settings)%Z.
Proof.
  intros Hmode Hmax Hs. rewrite get_active_count_active_healings.
  enough (H : (∀ hid r, _healings (engine (state s)) !! hid = Some r →
                        status r ≠ DECIDING)
              ∧ (∀ task, task ∈ background s →
                   ∃ hid request,
                     (task = Routes.TaskRunOODALoop hid request
                      ∨ task = Routes.TaskAnalyzeOnly hid request)
                     ∧ is_Some (_healings (engine (state s)) !! hid)
                     ∧ is_Some (_states (engine (state s)) !! hid))
              ∧ (Z.of_nat (active_healings (engine (state s)))
                 ≤ max_concurrent_healings settings)%Z) by apply H.
  induction Hs as [|s ev Hs IH].
  - unfold active_healings. cbn. split; [|split].
    + intros hid r. by rewrite lookup_empty.
    + intros task Hin. by apply elem_of_nil in Hin.
    + rewrite map_filter_empty, map_size_empty. lia.
  - by apply cap_step.
Qed.

Lemma healed_reachable : reachable auto_mode env_up healed.
Proof.
  exact (reachable_step auto_mode env_up _ (Run 0)
           (reachable_step auto_mode env_up _ (Trigger checkout_request)
              (reachable_boot auto_mode env_up))).
Qed.

Lemma concurrency_cap_holds_witness :
  healing_mode auto_mode ≠ SEMI_AUTO
  ∧ (0 ≤ max_concurrent_healings auto_mode)%Z
  ∧ reachable auto_mode env_up healed
  ∧ (Z.of_nat (Engine.get_active_count (engine (state healed))) ≤ 3)%Z.
Proof.
  assert (H1 : healing_mode auto_mode ≠ SEMI_AUTO) by discriminate.
  assert (H2 : (0 ≤ max_concurrent_healings auto_mode)%Z) by (cbn; lia).
  split; [exact H1|]. split; [exact H2|]. split; [exact healed_reachable|].
  exact (concurrency_cap_holds auto_mode env_up healed H1 H2 healed_reachable).
Defined.

(** *** Reading the registry *)

Lemma elem_of_values e h :
  h ∈ Engine.values e ↔ ∃ hid, _healings e !! hid = Some h.
Proof.
  unfold Engine.values. rewrite list_elem_of_fmap. split.
  - intros ([k h'] & -> & Hin). apply elem_of_map_to_list in Hin. by exists k.
  - intros (k & Hk). exists (k, h). split; [done|]. by apply elem_of_map_to_list.
Qed.

Lemma elem_of_List_filter {A} (f : A -> bool) (l : list A) x :
  x ∈ List.filter f l ↔ x ∈ l ∧ f x = true.
Proof. rewrite !list_elem_of_In. apply filter_In. Qed.

Lemma List_filter_length_le {A} (f : A -> bool) (l : list A) :
  (length (List.filter f l) ≤ length l)%nat.
Proof. induction l as [|x l IH]; cbn; [done|]. destruct (f x); cbn; lia. Qed.

(** X24.  In any state the agent can reach, whatever the order in which
    the registry enumerates its healings: [get_history] with a non-negative
    limit lists only registered healings that are COMPLETED or FAILED (a
    cancelled healing is never listed), at most [limit] of them, ordered by
    start time, latest first; the [service] argument has no effect; every
    completed or failed healing is listed when the limit is at least the
    size of the registry; and [GET /history] reports the length of the list
    as its count. *)
Theorem history_lists_finished_healings (settings : Settings) (env : Env) (s : Sys)
    (vals : list HealingResult) (service : option string) (limit : Z) :
  reachable settings env s →
  vals ≡ₚ Engine.values (engine (state s)) →
  (0 ≤ limit)%Z →
  let history := get_history vals (engine (state s)) service limit in
  (∀ h, h ∈ history →
        (status h = COMPLETED ∨ status h = FAILED)
        ∧ ∃ hid, _healings (engine (state s)) !! hid = Some h)
  ∧ (length history ≤ Z.to_nat limit)%nat
  ∧ StronglySorted (fun a b => (started_at b ≤ started_at a)%Z) history
  ∧ history = get_history vals (engine (state s)) None limit
  ∧ (∀ hid h, _healings (engine (state s)) !! hid = Some h →
              status h = COMPLETED ∨ status h = FAILED →
              (size (_healings (engine (state s))) ≤ Z.to_nat limit)%nat →
              h ∈ history)
  ∧ get_healing_history vals service limit env (state s)
    = (state s, inr (history, length history)).
Proof.
  intros Hs Hvals Hlimit history.
  assert (Hh : history
               = take (Z.to_nat limit)
                   (PyList.sort_desc started_at
                      (List.filter (fun h => bool_decide (status h = COMPLETED)
                                             || bool_decide (status h = FAILED)) vals))).
  { subst history. unfold get_history.
    rewrite (reachable_history_empty settings env s Hs). cbn [app].
    assert (Hsv : match service with
                  | Some s0 => if truthy s0
                               then List.filter (fun h => bool_decide (status h = COMPLETED)
                                                          || bool_decide (status h = FAILED)) vals
                               else List.filter (fun h => bool_decide (status h = COMPLETED)
                                                          || bool_decide (status h = FAILED)) vals
                  | None => List.filter (fun h => bool_decide (status h = COMPLETED)
                                                  || bool_decide (status h = FAILED)) vals
                  end
                  = List.filter (fun h => bool_decide (status h = COMPLETED)
                                          || bool_decide (status h = FAILED)) vals)
      by (destruct service as [s0|]; [by destruct (truthy s0)|done]).
    cbv zeta. rewrite Hsv.
    rewrite PyListFacts.slice_take_drop by lia.
    by rewrite Z.sub_0_r. }
  assert (Hnone : get_history vals (engine (state s)) None limit = history).
  { subst history. unfold get_history. cbv zeta.
    destruct service as [s0|]; [by destruct (truthy s0)|done]. }
  split; [|split; [|split; [|split; [|split]]]].
  - intros h Hin. rewrite Hh in Hin. apply subseteq_take in Hin.
    rewrite PyListFacts.sort_desc_Permutation in Hin.
    apply elem_of_List_filter in Hin as [Hin Hst]. split.
    + apply orb_true_iff in Hst as [Hst|Hst]; apply bool_decide_eq_true in Hst; auto.
    + rewrite Hvals in Hin. by apply elem_of_values.
  - rewrite Hh, length_take. lia.
  - rewrite Hh. eapply PyListFacts.StronglySorted_sublist; [apply sublist_take|].
    apply PyListFacts.sort_desc_sorted.
  - done.
  - intros hid h Hlook Hst Hsize. rewrite Hh, take_ge.
    + rewrite PyListFacts.sort_desc_Permutation. apply elem_of_List_filter. split.
      * rewrite Hvals. apply elem_of_values. by exists hid.
      * destruct Hst as [-> | ->]; done.
    + rewrite PyListFacts.sort_desc_length.
      etrans; [apply List_filter_length_le|].
      rewrite Hvals. unfold Engine.values. rewrite length_fmap, length_map_to_list. done.
  - done.
Qed.

Lemma history_lists_finished_healings_witness :
  reachable auto_mode env_up healed
  ∧ Engine.values (engine (state healed)) ≡ₚ Engine.values (engine (state healed))
  ∧ (0 ≤ 20)%Z
  ∧ (length (get_history (Engine.values (engine (state healed)))
               (engine (state healed)) (Some "checkout") 20) ≤ 20)%nat
  ∧ healed_result
      ∈ get_history (Engine.values (engine (state healed)))
          (engine (state healed)) (Some "checkout") 20.
Proof.
  assert (Hp : Engine.values (engine (state healed))
               ≡ₚ Engine.values (engine (state healed))) by reflexivity.
  assert (Hl : (0 ≤ 20)%Z) by lia.
  split; [exact healed_reachable|]. split; [exact Hp|]. split; [exact Hl|].
  destruct (history_lists_finished_healings auto_mode env_up healed
              (Engine.values (engine (state healed))) (Some "checkout") 20
              healed_reachable Hp Hl) as (_ & H2 & _ & _ & H5 & _).
  split; [exact H2|].
  apply (H5 "uuid-0" healed_result); [vm_compute; reflexivity|by left|].
  vm_compute. lia.
Defined.

Lemma trigger_registers_pending settings env st request_data st' result task :
  Routes.trigger_healing settings request_data env st = (st', inr (result, task)) →
  _healings (engine st') !! healing_id result = Some result
  ∧ _states (engine st') !! healing_id result
    = Some {| st_healing_id := healing_id result; phase := "pending";
              st_observation := None; st_orientation := None;
              st_decision := None |}.
Proof.
  unfold Routes.trigger_healing, Engine.is_in_cooldown, Engine.register_healing.
  unfold_M.
  destruct (Engine.is_healing _ _); [done|].
  destruct (_ <=? _)%Z; [done|].
  destruct (_cooldowns (engine st) !! target_service request_data); cbn;
    [destruct (_ && _); [done|] |];
    destruct (healing_mode settings); cbn; intros [= <- <- <-]; cbn;
      by rewrite alter_insert_eq, !lookup_insert_eq.
Qed.

(** X25.  What [POST /heal] answers for an admitted request is what
    [GET /heal/{id}] then returns for the id it answered, with the status the
    handler gave it after registering it, and [GET /heal/{id}/state] returns
    the state of the healing in the phase ["pending"], with no observation,
    orientation or decision yet. *)
Theorem triggered_healing_is_readable (settings : Settings) (env : Env) (st st' : St)
    (request_data : HealingRequest) (result : HealingResult) (task : Routes.Task) :
  Routes.trigger_healing settings request_data env st = (st', inr (result, task)) →
  get_healing_status (healing_id result) env st' = (st', inr result)
  ∧ get_ooda_state (healing_id result) env st'
    = (st', inr {| st_healing_id := healing_id result; phase := "pending";
                   st_observation := None; st_orientation := None;
                   st_decision := None |})
  ∧ status result = match healing_mode settings with
                    | AUTO => OBSERVING
                    | SEMI_AUTO => DECIDING
                    | MANUAL => ORIENTING
                    end.
Proof.
  intros Htrig.
  destruct (trigger_registers_pending _ _ _ _ _ _ _ Htrig) as [Hr Hs].
  pose proof (trigger_healing_run settings env st request_data) as Hrun.
  rewrite Htrig in Hrun. cbv zeta in Hrun.
  destruct Hrun as (_ & _ & _ & _ & Hst & _).
  unfold get_healing_status, get_ooda_state, Engine.get_healing, Engine.get_ooda_state.
  run_M. by rewrite Hr, Hs.
Qed.

Lemma triggered_healing_is_readable_witness :
  Routes.trigger_healing semi_auto_mode checkout_request env_up (state boot)
  = (state AgentScenario.pending_semi,
     inr (AgentScenario.pending_semi_result,
          Routes.TaskGeneratePlanOnly "uuid-0" checkout_request))
  ∧ get_healing_status "uuid-0" env_up (state AgentScenario.pending_semi)
    = (state AgentScenario.pending_semi, inr AgentScenario.pending_semi_result).
Proof.
  assert (H : Routes.trigger_healing semi_auto_mode checkout_request env_up (state boot)
              = (state AgentScenario.pending_semi,
                 inr (AgentScenario.pending_semi_result,
                      Routes.TaskGeneratePlanOnly "uuid-0" checkout_request)))
    by (vm_compute; reflexivity).
  split; [exact H|].
  destruct (triggered_healing_is_readable semi_auto_mode env_up (state boot)
              (state AgentScenario.pending_semi) checkout_request
              AgentScenario.pending_semi_result
              (Routes.TaskGeneratePlanOnly "uuid-0" checkout_request) H) as (H1 & _).
  exact H1.
Defined.

End AgentFacts.

(* ===================================================================== *)
(** ** Plans and their execution *)
(* ===================================================================== *)

Module PlanFacts.

Import PyStr AutoHealAgent AutoHealAgent.DecisionMaker Described.

(** *** The shape of a plan *)

Lemma table_types :
  Forall (fun e : string * list (ActionType * string) =>
            Forall (fun p : ActionType * string =>
                      p.1 ≠ SCALE_DOWN ∧ p.1 ≠ CUSTOM) e.2)
         CAUSE_ACTION_MAP.
Proof. repeat (constructor; [repeat (constructor; [done|]); constructor|]). constructor. Qed.

Lemma selected_types observation hints p :
  p ∈ _select_actions observation hints → p.1 ≠ SCALE_DOWN ∧ p.1 ≠ CUSTOM.
Proof.
  rewrite DecisionMakerFacts.select_actions_selection. unfold selection.
  intros H. apply subseteq_take, DecisionMakerFacts.first_by_type_elem in H.
  apply elem_of_app in H as [H|H].
  - unfold table_candidates, first_matching_entry in H.
    destruct (List.find _ _) as [e|] eqn:Hf; [|by apply elem_of_nil in H].
    apply find_some in Hf as [Hin _]. apply subseteq_take in H.
    pose proof table_types as Ht. rewrite Forall_forall in Ht.
    apply list_elem_of_In in Hin. specialize (Ht e Hin).
    rewrite Forall_forall in Ht. by apply Ht.
  - unfold hint_candidates in H. apply list_elem_of_omap in H as (x & _ & Hx).
    unfold hint_candidate in Hx.
    repeat (destruct (contains _ _); [by injection Hx as <-|]). done.
Qed.

(** X18.  Every plan [generate_plan] builds has between one and three
    actions and an estimated duration of thirty seconds per action; its id
    is the first id drawn and the id of its [k]-th action the [k+1]-th; every
    action targets ["namespace/service"], is marked reversible, carries the
    risk level of its type, and is never of type SCALE_DOWN or CUSTOM. *)
Theorem generated_plan_shape (uuids : nat -> string)
    (incident service namespace observation orientation : string)
    (hints : list string) :
  let p := generate_plan uuids incident service namespace observation orientation hints in
  (1 ≤ length (actions p) ≤ 3)%nat
  ∧ estimated_duration_seconds p = (length (actions p) * 30)%nat
  ∧ plan_id p = uuids 0%nat
  ∧ plan_incident_id p = incident
  ∧ ∀ k a, actions p !! k = Some a →
           action_id a = uuids (S k)
           ∧ target a = namespace +:+ "/" +:+ service
           ∧ reversible a = true
           ∧ risk_level a = _assess_action_risk (action_type a)
           ∧ action_type a ≠ SCALE_DOWN ∧ action_type a ≠ CUSTOM.
Proof.
  cbv zeta. split; [apply AgentFacts.generate_plan_actions_length|].
  split; [done|]. split; [done|]. split; [done|].
  intros k a. unfold generate_plan. cbn [actions].
  match goal with |- context [match ?l with [] => _ | _ => _ end] =>
    destruct l as [|a0 l0] eqn:Hl
  end.
  - destruct k as [|k]; [|done]. intros [= <-]. by cbn.
  - rewrite <- Hl, list_lookup_imap. intros Hk.
    destruct (_select_actions observation hints !! k) as [q|] eqn:Hq; [|done].
    cbn in Hk. injection Hk as <-. cbn.
    apply list_elem_of_lookup_2, selected_types in Hq as [H1 H2].
    repeat split; try done. by rewrite bool_decide_eq_false_2.
Qed.

(** *** The confidence of a plan *)

Lemma contains_starts_with s needle :
  starts_with needle s = true → contains s needle = true.
Proof. intros H. destruct s; cbn; by rewrite H. Qed.

Lemma contains_skip c s needle :
  contains s needle = true → contains (String c s) needle = true.
Proof. intros H. cbn [contains]. rewrite H. apply orb_true_r. Qed.

Lemma contains_unknown_known s :
  contains s "unknown pattern" = true → contains s "known pattern" = true.
Proof.
  induction s as [|c s IH]; [done|].
  cbn [contains]. intros H. apply orb_true_iff in H as [H|H].
  - destruct s as [|c' s]; [cbn in H; by rewrite andb_false_r in H|].
    apply contains_skip, contains_skip, contains_starts_with.
    cbn [starts_with] in H. apply andb_true_iff in H as [_ H].
    by apply andb_true_iff in H as [_ H].
  - fold (contains s "known pattern"). rewrite (IH H). apply orb_true_r.
Qed.

(** X19.  [_calculate_confidence] takes one of six values, and the clamp
    to [0.3, 0.95] never applies.  A text that mentions an unknown pattern
    also mentions a known pattern (the one phrase contains the other), so
    that it scores [0.7 + 0.15 - 0.2], not [0.7 - 0.2]; a high-risk action
    takes [0.1] off each value. *)
Theorem confidence_values (acts : list HealingAction) (text : string) :
  let c := _calculate_confidence acts text in
  let high := existsb (fun a => String.eqb (risk_level a) "high") acts in
  (contains (lower text) "unknown pattern" = true →
   contains (lower text) "known pattern" = true)
  ∧ c = (if contains (lower text) "unknown pattern"
         then if high then (0.7 + 0.15 - 0.2 - 0.1)%float else (0.7 + 0.15 - 0.2)%float
         else if contains (lower text) "known pattern"
         then if high then (0.7 + 0.15 - 0.1)%float else (0.7 + 0.15)%float
         else if high then (0.7 - 0.1)%float else 0.7%float)
  ∧ PrimFloat.leb 0.5 c = true ∧ PrimFloat.leb c 0.9 = true.
Proof.
  cbv zeta. split; [apply contains_unknown_known|].
  unfold _calculate_confidence.
  pose proof (contains_unknown_known (lower text)) as Hk.
  destruct (contains (lower text) "unknown pattern");
    [rewrite Hk by done|destruct (contains (lower text) "known pattern")];
    destruct (existsb _ acts); by vm_compute.
Qed.

(** *** The action executor *)

Lemma truthy_target namespace service : truthy (namespace +:+ "/" +:+ service) = true.
Proof. by destruct namespace. Qed.

(** X20.  Every action of every plan [generate_plan] builds passes
    [validate_action]: its type is supported, its target is not empty, and
    a SCALE_UP action carries the [increment] parameter. *)
Theorem planned_actions_are_valid (str_action_type : ActionType -> string)
    (uuids : nat -> string)
    (incident service namespace observation orientation : string)
    (hints : list string) :
  Forall (fun a => ActionExecutor.validate_action str_action_type a
                   = (true, "Action is valid"))
         (actions (generate_plan uuids incident service namespace observation
                     orientation hints)).
Proof.
  apply Forall_lookup. intros k a. unfold generate_plan. cbn [actions].
  match goal with |- context [match ?l with [] => _ | _ => _ end] =>
    destruct l as [|a0 l0] eqn:Hl
  end.
  - destruct k as [|k]; [|done]. intros [= <-].
    unfold ActionExecutor.validate_action. cbn [default_action action_type target].
    by rewrite truthy_target.
  - rewrite <- Hl, list_lookup_imap. intros Hk.
    destruct (_select_actions observation hints !! k) as [q|] eqn:Hq; [|done].
    cbn in Hk. injection Hk as <-.
    unfold ActionExecutor.validate_action. cbn [action_type target parameters].
    rewrite truthy_target.
    rewrite (bool_decide_eq_true_2 (q.1 ∈ ActionExecutor.supported))
      by (destruct q.1; unfold ActionExecutor.supported; set_solver).
    by destruct q.1.
Qed.

Lemma execute_batch_loop_run post k actions results :
  let out := ActionExecutor.execute_batch_loop post k actions results in
  ActionExecutor.total out = ActionExecutor.total results
  ∧ (ActionExecutor.successful out + ActionExecutor.failed out
     = ActionExecutor.successful results + ActionExecutor.failed results
       + length actions)%nat
  ∧ ActionExecutor.details out
    = ActionExecutor.details results
      ++ imap (fun i a =>
                 {| ActionExecutor.detail_action_id := action_id a;
                    ActionExecutor.detail_action_type := action_type a;
                    ActionExecutor.detail_success :=
                      (ActionExecutor.execute (post (k + i)%nat) a).1;
                    ActionExecutor.detail_message :=
                      (ActionExecutor.execute (post (k + i)%nat) a).2 |}) actions
  ∧ ActionExecutor.successful out
    = (ActionExecutor.successful results
       + length (List.filter (fun b : bool => b)
                   (imap (fun i a => (ActionExecutor.execute (post (k + i)%nat) a).1)
                      actions)))%nat.
Proof.
  revert k results. induction actions as [|a actions IH]; intros k results.
  - cbn. rewrite app_nil_r. repeat split; lia.
  - cbn [ActionExecutor.execute_batch_loop].
    destruct (ActionExecutor.execute (post k) a) as [success message] eqn:He.
    rewrite !imap_cons, Nat.add_0_r, He. cbn [fst snd].
    rewrite (imap_ext (_ ∘ S) (fun i a => {|
                 ActionExecutor.detail_action_id := action_id a;
                 ActionExecutor.detail_action_type := action_type a;
                 ActionExecutor.detail_success :=
                   (ActionExecutor.execute (post (S k + i)%nat) a).1;
                 ActionExecutor.detail_message :=
                   (ActionExecutor.execute (post (S k + i)%nat) a).2 |}) actions)
      by (intros i x _; cbn; by rewrite Nat.add_succ_r).
    rewrite (imap_ext (_ ∘ S)
               (fun i a => (ActionExecutor.execute (post (S k + i)%nat) a).1) actions)
      by (intros i x _; cbn; by rewrite Nat.add_succ_r).
    destruct success;
      match goal with
      | |- context [ActionExecutor.execute_batch_loop post (S k) actions ?r] =>
          destruct (IH (S k) r) as (H1 & H2 & H3 & H4)
      end;
      cbv zeta in *; rewrite H1, H3, H4;
      cbn [ActionExecutor.total ActionExecutor.successful ActionExecutor.failed
           ActionExecutor.details List.filter length] in *;
      rewrite <- ?app_assoc; cbn [app]; repeat split; try done; lia.
Qed.

(** X21.  [execute_batch] never raises and accounts for every action:
    [total] is the number of actions, [successful] and [failed] add up to it,
    [details] has one entry per action, in order, with the id and type of
    the action, and an entry reports success exactly when the executor
    answered that POST with 200, 201 or 202 (a timeout, an exception and any
    other status are failures). *)
Theorem execute_batch_accounts (post : nat -> ActionExecutor.Outcome)
    (actions : list HealingAction) :
  let res := ActionExecutor.execute_batch post actions in
  ActionExecutor.total res = length actions
  ∧ (ActionExecutor.successful res + ActionExecutor.failed res
     = ActionExecutor.total res)%nat
  ∧ ActionExecutor.detail_action_id <$> ActionExecutor.details res
    = action_id <$> actions
  ∧ ActionExecutor.successful res
    = length (List.filter ActionExecutor.detail_success (ActionExecutor.details res))
  ∧ ∀ k d, ActionExecutor.details res !! k = Some d →
           (ActionExecutor.detail_success d = true
            ↔ ∃ code, post k = ActionExecutor.Answered code
                      ∧ (code = 200 ∨ code = 201 ∨ code = 202)%Z).
Proof.
  cbv zeta. unfold ActionExecutor.execute_batch.
  match goal with |- context [ActionExecutor.execute_batch_loop post 0 actions ?r] =>
    destruct (execute_batch_loop_run post 0 actions r) as (H1 & H2 & H3 & H4)
  end.
  cbv zeta in *. cbn [ActionExecutor.total ActionExecutor.successful
                      ActionExecutor.failed ActionExecutor.details app Nat.add] in *.
  rewrite H1, H3, H4. split; [done|]. split; [lia|]. split; [|split].
  - apply list_eq. intros k. rewrite !list_lookup_fmap, list_lookup_imap.
    by destruct (actions !! k).
  - clear. induction actions as [|a l IH] using rev_ind; [done|].
    rewrite !imap_app, !List.filter_app, !length_app, IH. cbn.
    by destruct (ActionExecutor.execute _ a).1.
  - intros k d. rewrite list_lookup_imap.
    destruct (actions !! k) as [a|]; [|done]. cbn. intros [= <-]. cbn.
    unfold ActionExecutor.execute. destruct (post k) as [code| |msg]; cbn.
    + case_bool_decide as Hc; cbn; split; try done.
      * intros _. by exists code.
      * intros (c & [= <-] & Hc'). done.
    + split; [done|]. by intros (c & ? & _).
    + split; [done|]. by intros (c & ? & _).
Qed.

End PlanFacts.

(* ===================================================================== *)
(** ** The event correlator *)
(* ===================================================================== *)

Module EventCorrelatorFacts.

Import PyStr EventCorrelator.

Lemma is_service_spec value service :
  is_service value service = true ↔ value = Some service.
Proof.
  destruct value as [s|]; cbn; [|done].
  rewrite String.eqb_eq. split; [by intros ->|by intros [= ->]].
Qed.

(** X26.  [find_related_events] returns, in the order of the history, the
    events whose [target_service] is the service, whatever their age, and
    the events whose [service_name] is the service and that were added at
    [since] or later ([since] being one window before now when it is not
    given); the [namespace] argument has no effect, and the history is left
    as it was. *)
Theorem related_events_by_service (utcnow : nat -> Z) (service namespace : string)
    (since : option Z) (c : Correlator) :
  let out := find_related_events utcnow service namespace since c in
  let since' := default (utcnow (n_clock c) - correlation_window c)%Z since in
  _event_history out.1 = _event_history c
  ∧ out.2 `sublist_of` _event_history c
  ∧ (∀ e, e ∈ out.2
          ↔ e ∈ _event_history c
            ∧ (target_service e = Some service
               ∨ (service_name e = Some service ∧ (since' ≤ _added_at e)%Z)))
  ∧ (∀ e, e ∈ _event_history c → target_service e = Some service → e ∈ out.2)
  ∧ ∀ namespace',
      (find_related_events utcnow service namespace' since c).2 = out.2.
Proof.
  cbv zeta.
  assert (Hiff : ∀ (l : list Event) t e,
             e ∈ List.filter (fun e => is_service (target_service e) service
                                       || is_service (service_name e) service
                                          && (t <=? _added_at e)%Z) l
             ↔ e ∈ l ∧ (target_service e = Some service
                        ∨ (service_name e = Some service ∧ (t ≤ _added_at e)%Z))).
  { intros l t e. rewrite !list_elem_of_In, filter_In, orb_true_iff, andb_true_iff,
      !is_service_spec, Z.leb_le. done. }
  assert (Hsub : ∀ (f : Event -> bool) (l : list Event), List.filter f l `sublist_of` l).
  { intros f l. induction l as [|x l IH]; cbn; [done|].
    destruct (f x); [by apply sublist_skip|by apply sublist_cons]. }
  destruct since as [t|]; cbn; (split; [done|]); (split; [apply Hsub|]);
    (split; [intros e; apply Hiff|]); (split; [|done]);
    intros e Hin Ht; apply Hiff; auto.
Qed.

(** X27.  After [add_event] the history holds no event added earlier than
    two windows before the second reading of the clock that the call takes;
    it keeps, in their order, the events of the old history that are not
    older than that; and the event given is last in it, stamped with the
    first reading, unless that reading is itself older than the bound. *)
Theorem add_event_prunes (utcnow : nat -> Z) (event : Event) (c : Correlator) :
  let c' := add_event utcnow event c in
  let cutoff := (utcnow (S (n_clock c)) - correlation_window c * 2)%Z in
  let stamped := with_added_at (utcnow (n_clock c)) event in
  (∀ e, e ∈ _event_history c' → (cutoff ≤ _added_at e)%Z)
  ∧ _event_history c'
    = List.filter (fun e => (cutoff <=? _added_at e)%Z) (_event_history c)
      ++ (if (cutoff <=? utcnow (n_clock c))%Z then [stamped] else [])
  ∧ (∀ e, e ∈ _event_history c → (cutoff ≤ _added_at e)%Z → e ∈ _event_history c')
  ∧ correlation_window c' = correlation_window c.
Proof.
  cbv zeta. unfold add_event. cbn [_event_history correlation_window].
  rewrite List.filter_app. cbn [List.filter with_added_at _added_at].
  split; [|split; [done|split; [|done]]].
  - intros e. rewrite elem_of_app. intros [H|H].
    + apply list_elem_of_In, filter_In in H as [_ H]. by apply Z.leb_le.
    + destruct (Z.leb_spec (utcnow (S (n_clock c)) - correlation_window c * 2)
                  (utcnow (n_clock c))) as [Hle|Hgt].
      * apply list_elem_of_singleton in H as ->. done.
      * by apply elem_of_nil in H.
  - intros e Hin Hle. apply elem_of_app. left.
    rewrite list_elem_of_In, filter_In, Z.leb_le. by rewrite <- list_elem_of_In.
Qed.

End EventCorrelatorFacts.
